(** * Scribble: ingestion and digest pipeline, shallow embedding

    The Python sources embedded here are [file_processors.py],
    [folder_monitor.py], [llm_service.py], [database_manager.py] and
    [digest_generator.py].  Python values are modelled as follows.

    - A [str] is a [string]; every character is one code point below 256.
    - An exception is a value of [exn] (class and message); a call that
      may raise returns a [result].  Only classes below [Exception] are
      modelled (a keyboard interrupt is not an outcome of these functions).
    - Library calls whose outcome depends on the outside world (file
      reads, OCR, page rendering, HTTP, the JSON decoder, the LLM API) are
      fields of an environment record [Env]; every theorem quantifies
      over the environment, the examples use the concrete one built at the
      end of the definitions.
    - The SQLite store, the temporary files and the sequence of external
      calls are threaded through the state monad [M]. *)

From Stdlib Require Import ZArith List String Ascii Bool Lia Arith.
Import ListNotations.
Open Scope string_scope.
Open Scope Z_scope.

(** ** Python values, exceptions and results *)

Module Py.

(** The exception classes named in the sources or raised by the library
    calls they make. *)
Inductive exn_class : Type :=
| Exception
| ValueError
| JSONDecodeError
| UnicodeDecodeError
| TypeError
| AttributeError
| KeyError
| ImportError
| OSError
| NotImplementedError
| RuntimeError
| RequestException.

Definition exn_class_eqb (a b : exn_class) : bool :=
  match a, b with
  | Exception, Exception | ValueError, ValueError
  | JSONDecodeError, JSONDecodeError
  | UnicodeDecodeError, UnicodeDecodeError | TypeError, TypeError
  | AttributeError, AttributeError | KeyError, KeyError
  | ImportError, ImportError | OSError, OSError
  | NotImplementedError, NotImplementedError
  | RuntimeError, RuntimeError | RequestException, RequestException => true
  | _, _ => false
  end.

(** Direct base class; [None] for the root [Exception]. *)
Definition base_class (c : exn_class) : option exn_class :=
  match c with
  | Exception => None
  | JSONDecodeError => Some ValueError
  | UnicodeDecodeError => Some ValueError
  | NotImplementedError => Some RuntimeError
  | RequestException => Some OSError
  | _ => Some Exception
  end.

(** [issubclass c d], following [base_class] (the hierarchy has depth 3). *)
Fixpoint issubclass_fuel (fuel : nat) (c d : exn_class) : bool :=
  exn_class_eqb c d ||
  match fuel with
  | O => false
  | S f => match base_class c with
           | Some b => issubclass_fuel f b d
           | None => false
           end
  end.

Definition issubclass : exn_class -> exn_class -> bool := issubclass_fuel 3.

Record exn : Type := mkExn { exn_cls : exn_class; exn_msg : string }.

(** [except cls as e] catches [e] exactly when [isinstance e cls]. *)
Definition isinstance (e : exn) (c : exn_class) : bool :=
  issubclass (exn_cls e) c.

Inductive result (A : Type) : Type :=
| Ret (a : A)
| Raise (e : exn).
Arguments Ret {A} a.
Arguments Raise {A} e.

Set Warnings "-register-all".

(** The values [json.loads] can build. A float keeps the decimal literal it
    was read from, [mant * 10 ^ expo]; NaN and the infinities are the
    constants the decoder accepts. *)
Inductive value : Type :=
| VNone
| VBool (b : bool)
| VInt (n : Z)
| VFloat (mant expo : Z)
| VFloatSpecial (name : string)
| VStr (s : string)
| VList (l : list value)
| VDict (d : list (string * value)).

(** The double nearest to [mant * 10 ^ expo] is zero exactly when the
    magnitude is at most [2 ^ -1075] (half of the least subnormal; the tie
    rounds to even, that is to zero). *)
Definition float_is_zero (mant expo : Z) : bool :=
  if expo >=? 0 then mant =? 0
  else Z.abs mant * 2 ^ 1075 <=? 10 ^ (- expo).

(** Truth value of an object ([if x:], [not x]). *)
Definition truthy (v : value) : bool :=
  match v with
  | VNone => false
  | VBool b => b
  | VInt n => negb (n =? 0)
  | VFloat m e => negb (float_is_zero m e)
  | VFloatSpecial _ => true
  | VStr s => negb (String.eqb s "")
  | VList l => match l with [] => false | _ => true end
  | VDict d => match d with [] => false | _ => true end
  end.

Definition str_truthy (s : string) : bool := negb (String.eqb s "").

(** [d.get(key, default)] on a dict held in insertion order with unique
    keys. *)
Fixpoint dict_get (d : list (string * value)) (key : string) (default : value)
  : value :=
  match d with
  | [] => default
  | (k, v) :: d' => if String.eqb k key then v else dict_get d' key default
  end.

Definition isinstance_dict (v : value) : bool :=
  match v with VDict _ => true | _ => false end.

Definition isinstance_list (v : value) : bool :=
  match v with VList _ => true | _ => false end.

(** [iter(v)]: the items a [for] loop visits, or [TypeError] for an object
    that is not iterable. A string yields its characters, a dict its
    keys. *)
Definition iterate (v : value) : result (list value) :=
  match v with
  | VList l => Ret l
  | VStr s =>
      Ret (map (fun c => VStr (String c EmptyString)) (list_ascii_of_string s))
  | VDict d => Ret (map (fun kv => VStr (fst kv)) d)
  | VNone => Raise (mkExn TypeError "'NoneType' object is not iterable")
  | VBool _ => Raise (mkExn TypeError "'bool' object is not iterable")
  | VInt _ => Raise (mkExn TypeError "'int' object is not iterable")
  | VFloat _ _ | VFloatSpecial _ =>
      Raise (mkExn TypeError "'float' object is not iterable")
  end.

End Py.
Export Py.

(** ** Text: the [str] methods and [os.path] helpers the sources call *)

Module Text.

Definition NL : string := String "010"%char EmptyString.
Definition DQ : string := String "034"%char EmptyString.

Definition code (c : ascii) : nat := nat_of_ascii c.

Definition in_range (lo hi : nat) (c : ascii) : bool :=
  (lo <=? code c)%nat && (code c <=? hi)%nat.

(** [str.isspace] for one character: tab to carriage return, the four
    separators 28..31, space, NEL (133) and the no-break space (160). *)
Definition isspace (c : ascii) : bool :=
  in_range 9 13 c || in_range 28 32 c
  || (code c =? 133)%nat || (code c =? 160)%nat.

Definition isdigit_ascii (c : ascii) : bool := in_range 48 57 c.

(** The characters [\w] matches in a [str] pattern: alphanumerics in the
    sense of [str.isalnum], and the underscore. *)
Definition isword (c : ascii) : bool :=
  in_range 48 57 c || in_range 65 90 c || in_range 97 122 c
  || (code c =? 95)%nat
  || (code c =? 170)%nat || (code c =? 178)%nat || (code c =? 179)%nat
  || (code c =? 181)%nat || (code c =? 185)%nat || (code c =? 186)%nat
  || in_range 188 190 c || in_range 192 214 c || in_range 216 246 c
  || in_range 248 255 c.

Definition lower_char (c : ascii) : ascii :=
  if in_range 65 90 c || ((in_range 192 222 c) && negb (code c =? 215)%nat)
  then ascii_of_nat (code c + 32) else c.

Fixpoint lower (s : string) : string :=
  match s with
  | EmptyString => EmptyString
  | String c r => String (lower_char c) (lower r)
  end.

Definition chars : string -> list ascii := list_ascii_of_string.
Definition text : list ascii -> string := string_of_list_ascii.

Fixpoint lstrip_chars (l : list ascii) : list ascii :=
  match l with
  | c :: r => if isspace c then lstrip_chars r else l
  | [] => []
  end.

(** [s.strip()] *)
Definition strip (s : string) : string :=
  text (rev (lstrip_chars (rev (lstrip_chars (chars s))))).

(** [s.startswith(p)] *)
Definition startswith (s p : string) : bool := String.prefix p s.

Fixpoint drop (n : nat) (s : string) : string :=
  match n, s with
  | O, _ => s
  | S m, String _ r => drop m r
  | S _, EmptyString => EmptyString
  end.

(** [s[:n]] and [s[n:]] for a non-negative [n]. *)
Fixpoint slice_to (n : Z) (s : string) : string :=
  match s with
  | EmptyString => EmptyString
  | String c r => if n <=? 0 then EmptyString else String c (slice_to (n - 1) r)
  end.

Fixpoint slice_from (n : Z) (s : string) : string :=
  match s with
  | EmptyString => EmptyString
  | String c r => if n <=? 0 then s else slice_from (n - 1) r
  end.

(** [p in s] *)
Fixpoint contains (s p : string) : bool :=
  String.prefix p s ||
  match s with
  | EmptyString => false
  | String _ r => contains r p
  end.

(** [s.endswith(p)] *)
Definition endswith (s p : string) : bool :=
  (String.length p <=? String.length s)%nat
  && String.eqb (drop (String.length s - String.length p) s) p.

(** [s.split(sep)] for a non-empty separator: pieces between successive
    non-overlapping occurrences, scanned from the left. [cur] holds the
    current piece reversed. *)
Fixpoint split_on_aux (fuel : nat) (sep : string) (s : string)
  (cur : list ascii) : list string :=
  match fuel with
  | O => [text (rev cur)]
  | S f =>
      match s with
      | EmptyString => [text (rev cur)]
      | String c r =>
          if String.prefix sep s
          then text (rev cur)
               :: split_on_aux f sep (drop (String.length sep) s) []
          else split_on_aux f sep r (c :: cur)
      end
  end.

Definition split_on (sep s : string) : list string :=
  split_on_aux (S (String.length s)) sep s [].

(** [s.split()]: the maximal runs of non-blank characters. *)
Fixpoint words_aux (l : list ascii) (cur : list ascii) : list string :=
  match l with
  | [] => match cur with [] => [] | _ => [text (rev cur)] end
  | c :: r =>
      if isspace c
      then match cur with
           | [] => words_aux r []
           | _ => text (rev cur) :: words_aux r []
           end
      else words_aux r (c :: cur)
  end.

Definition split_words (s : string) : list string := words_aux (chars s) [].

(** Line boundaries of [str.splitlines]. *)
Definition islinebreak (c : ascii) : bool :=
  in_range 10 13 c || in_range 28 30 c || (code c =? 133)%nat.

(** [s.splitlines()]: a carriage return followed by a line feed is one
    boundary; no empty last line is produced. *)
Fixpoint splitlines_aux (l : list ascii) (cur : list ascii) : list string :=
  match l with
  | [] => match cur with [] => [] | _ => [text (rev cur)] end
  | c :: r =>
      if islinebreak c
      then text (rev cur)
           :: (if (code c =? 13)%nat
               then match r with
                    | c' :: r' => if (code c' =? 10)%nat
                                  then splitlines_aux r' []
                                  else splitlines_aux r []
                    | [] => splitlines_aux r []
                    end
               else splitlines_aux r [])
      else splitlines_aux r (c :: cur)
  end.

Definition splitlines (s : string) : list string := splitlines_aux (chars s) [].

(** [sep.join(pieces)] *)
Definition join (sep : string) (pieces : list string) : string :=
  String.concat sep pieces.

(** [os.path.basename] on a POSIX path: what follows the last slash. *)
Definition basename (path : string) : string :=
  last (split_on "/" path) "".

(** [os.path.join(a, b)] on POSIX paths. *)
Definition path_join (a b : string) : string :=
  if startswith b "/" then b
  else if String.eqb a "" || endswith a "/" then a ++ b
  else a ++ "/" ++ b.

(** Decimal text of an integer, as [str(n)] and an f-string print it. *)
Fixpoint digits_aux (fuel : nat) (n : Z) (acc : string) : string :=
  match fuel with
  | O => acc
  | S f =>
      let d := String (ascii_of_nat (48 + Z.to_nat (n mod 10))) EmptyString in
      if n <? 10 then d ++ acc else digits_aux f (n / 10) (d ++ acc)
  end.

Definition str_of_nonneg (n : Z) : string :=
  digits_aux (S (Z.to_nat (Z.log2 n))) n "".

Definition str_of_Z (n : Z) : string :=
  if n <? 0 then "-" ++ str_of_nonneg (- n) else str_of_nonneg n.

Definition str_of_nat (n : nat) : string := str_of_nonneg (Z.of_nat n).

End Text.

(** ** Regular expressions: a backtracking matcher for the patterns of the
    sources, with Python's priorities (greedy and lazy repetition, leftmost
    alternative first) *)

Module Re.
Import Text.

Inductive regex : Type :=
| Chr (p : ascii -> bool)
| Eps
| Seq (a b : regex)
| Alt (a b : regex)
| Star (greedy : bool) (a : regex)
| Group (n : nat) (a : regex)
| Look (a : regex)
| Eos.

Definition Plus (greedy : bool) (a : regex) : regex := Seq a (Star greedy a).

Fixpoint Lit (s : string) : regex :=
  match s with
  | EmptyString => Eps
  | String c r => Seq (Chr (Ascii.eqb c)) (Lit r)
  end.

(** [.] with and without [re.DOTALL], [\s], [\w]. *)
Definition any_char : regex := Chr (fun _ => true).
Definition dot : regex := Chr (fun c => negb (code c =? 10)%nat).
Definition ws : regex := Chr isspace.
Definition word : regex := Chr isword.

Definition captures : Type := list (nat * string).

Definition cont : Type :=
  list ascii -> captures -> option (list ascii * captures).

(** The text consumed between two suffixes of the subject. *)
Definition consumed (from to : list ascii) : string :=
  text (firstn (List.length from - List.length to) from).

(** [run fuel r s c k]: match [r] at the front of [s], then continue with
    [k]. A repetition re-enters only after its body consumed a character,
    so [S (length s)] units of fuel are never exhausted. *)
Fixpoint run (fuel : nat) : regex -> list ascii -> captures -> cont
  -> option (list ascii * captures) :=
  fix go (r : regex) (s : list ascii) (c : captures) (k : cont) :=
    match r with
    | Chr p => match s with
               | x :: s' => if p x then k s' c else None
               | [] => None
               end
    | Eps => k s c
    | Seq a b => go a s c (fun s' c' => go b s' c' k)
    | Alt a b => match go a s c k with
                 | Some res => Some res
                 | None => go b s c k
                 end
    | Star greedy a =>
        match fuel with
        | O => None
        | S f =>
            let again := fun s' c' =>
              if (List.length s' <? List.length s)%nat
              then run f (Star greedy a) s' c' k else None in
            if greedy
            then match go a s c again with
                 | Some res => Some res
                 | None => k s c
                 end
            else match k s c with
                 | Some res => Some res
                 | None => go a s c again
                 end
        end
    | Group n a => go a s c (fun s' c' => k s' ((n, consumed s s') :: c'))
    | Look a => match go a s c (fun s' c' => Some (s', c')) with
                | Some (_, c') => k s c'
                | None => None
                end
    | Eos => match s with
             | [] => k s c
             | [x] => if (code x =? 10)%nat then k s c else None
             | _ => None
             end
    end.

Definition match_at (r : regex) (s : list ascii)
  : option (list ascii * captures) :=
  run (S (List.length s)) r s [] (fun s' c' => Some (s', c')).

Record found : Type := mkFound {
  m_start : list ascii;   (* the subject from the start of the match *)
  m_end : list ascii;     (* the subject after the match *)
  m_caps : captures
}.

(** [re.search]: the match at the leftmost position that has one. *)
Fixpoint search_chars (r : regex) (s : list ascii) : option found :=
  match match_at r s with
  | Some (e, c) => Some (mkFound s e c)
  | None => match s with
            | [] => None
            | _ :: s' => search_chars r s'
            end
  end.

Definition search (r : regex) (s : string) : option found :=
  search_chars r (chars s).

(** [m.group(0)] and [m.group(n)]. *)
Definition group0 (m : found) : string := consumed (m_start m) (m_end m).

Fixpoint lookup_cap (n : nat) (c : captures) : option string :=
  match c with
  | [] => None
  | (i, t) :: c' => if (i =? n)%nat then Some t else lookup_cap n c'
  end.

Definition group (n : nat) (m : found) : string :=
  match lookup_cap n (m_caps m) with Some t => t | None => "" end.

(** [re.findall] for a pattern with one group: group 1 of the successive
    non-overlapping matches. *)
Fixpoint findall_aux (fuel : nat) (r : regex) (s : list ascii) : list string :=
  match fuel with
  | O => []
  | S f =>
      match search_chars r s with
      | None => []
      | Some m =>
          group 1 m ::
          (if (List.length (m_end m) <? List.length (m_start m))%nat
           then findall_aux f r (m_end m)
           else match m_end m with
                | [] => []
                | _ :: rest => findall_aux f r rest
                end)
      end
  end.

Definition findall (r : regex) (s : string) : list string :=
  findall_aux (S (String.length s)) r (chars s).

End Re.

(** ** A JSON decoder

    [Json.loads] follows the grammar [json.loads] accepts (RFC 8259 plus the
    constants NaN, Infinity and -Infinity; duplicate keys keep the last
    value). It serves as the decoder of the concrete environment used in
    the examples; the theorems quantify over the decoder. An escape that
    denotes a code point above 255 cannot be represented in [string] and is
    reported apart ([Beyond]); messages are shortened. *)

Module Json.
Import Text.

Inductive parsed (A : Type) : Type :=
| Ok (a : A) (rest : list ascii)
| Bad
| Beyond.
Arguments Ok {A} a rest.
Arguments Bad {A}.
Arguments Beyond {A}.

Definition chr_is (n : nat) (c : ascii) : bool := (code c =? n)%nat.

Fixpoint skip_ws (s : list ascii) : list ascii :=
  match s with
  | c :: r => if chr_is 32 c || chr_is 9 c || chr_is 10 c || chr_is 13 c then skip_ws r else s
  | [] => []
  end.

Definition hex_digit (c : ascii) : option nat :=
  if in_range 48 57 c then Some (code c - 48)%nat
  else if in_range 97 102 c then Some (code c - 87)%nat
  else if in_range 65 70 c then Some (code c - 55)%nat
  else None.

Definition hex4 (a b c d : ascii) : option nat :=
  match hex_digit a, hex_digit b, hex_digit c, hex_digit d with
  | Some x, Some y, Some z, Some w =>
      Some (((x * 16 + y) * 16 + z) * 16 + w)%nat
  | _, _, _, _ => None
  end.

(** The one-letter escapes: quote, backslash, slash, b, f, n, r, t. *)
Definition simple_escape (c : ascii) : option ascii :=
  if chr_is 34 c || chr_is 92 c || chr_is 47 c then Some c
  else if chr_is 98 c then Some (ascii_of_nat 8)
  else if chr_is 102 c then Some (ascii_of_nat 12)
  else if chr_is 110 c then Some (ascii_of_nat 10)
  else if chr_is 114 c then Some (ascii_of_nat 13)
  else if chr_is 116 c then Some (ascii_of_nat 9)
  else None.

(** The body of a string literal, after its opening quote. *)
Fixpoint scan_string (s : list ascii) (acc : list ascii) : parsed string :=
  match s with
  | [] => Bad
  | c :: r =>
      if chr_is 34 c then Ok (text (rev acc)) r
      else if chr_is 92 c then
        match r with
        | [] => Bad
        | e :: r' =>
            match simple_escape e with
            | Some ch => scan_string r' (ch :: acc)
            | None =>
                if chr_is 117 e then
                  match r' with
                  | h1 :: h2 :: h3 :: h4 :: r'' =>
                      match hex4 h1 h2 h3 h4 with
                      | Some n => if (n <? 256)%nat
                                  then scan_string r'' (ascii_of_nat n :: acc)
                                  else Beyond
                      | None => Bad
                      end
                  | _ => Bad
                  end
                else Bad
            end
        end
      else if (code c <? 32)%nat then Bad
      else scan_string r (c :: acc)
  end.

Fixpoint take_digits (s : list ascii) (acc : list ascii)
  : list ascii * list ascii :=
  match s with
  | c :: r => if isdigit_ascii c then take_digits r (c :: acc) else (rev acc, s)
  | [] => (rev acc, [])
  end.

Definition Z_of_digits (ds : list ascii) : Z :=
  fold_left (fun a c => a * 10 + Z.of_nat (code c - 48)) ds 0.

(** The optional fraction: a point followed by at least one digit. *)
Definition scan_frac (s : list ascii) : list ascii * list ascii :=
  match s with
  | p :: d :: r =>
      if chr_is 46 p && isdigit_ascii d then take_digits (d :: r) [] else ([], s)
  | _ => ([], s)
  end.

(** The optional exponent: e or E, an optional sign, at least one digit. *)
Definition scan_exp (s : list ascii) : option Z * list ascii :=
  match s with
  | e :: r =>
      if chr_is 101 e || chr_is 69 e then
        match r with
        | sg :: d :: r' =>
            if (chr_is 43 sg || chr_is 45 sg) && isdigit_ascii d then
              let (ds, rest) := take_digits (d :: r') [] in
              (Some (if chr_is 45 sg then - Z_of_digits ds else Z_of_digits ds),
               rest)
            else if isdigit_ascii sg then
              let (ds, rest) := take_digits r [] in (Some (Z_of_digits ds), rest)
            else (None, s)
        | [d] =>
            if isdigit_ascii d then (Some (Z_of_digits [d]), []) else (None, s)
        | [] => (None, s)
        end
      else (None, s)
  | [] => (None, s)
  end.

(** A number at the front of [s], the sign already taken. *)
Definition scan_unsigned (neg : bool) (s : list ascii) : parsed value :=
  match s with
  | d :: r =>
      if isdigit_ascii d then
        let (int_ds, rest) :=
          if chr_is 48 d then ([d], r) else take_digits s [] in
        let (frac_ds, rest1) := scan_frac rest in
        let (ex, rest2) := scan_exp rest1 in
        let sign := fun z : Z => if neg then - z else z in
        match frac_ds, ex with
        | [], None => Ok (VInt (sign (Z_of_digits int_ds))) rest2
        | _, _ =>
            Ok (VFloat (sign (Z_of_digits (int_ds ++ frac_ds)))
                  ((match ex with Some e => e | None => 0 end)
                   - Z.of_nat (List.length frac_ds)))
               rest2
        end
      else Bad
  | [] => Bad
  end.

Fixpoint strip_prefix (p : list ascii) (s : list ascii) : option (list ascii) :=
  match p, s with
  | [], _ => Some s
  | a :: p', b :: s' => if Ascii.eqb a b then strip_prefix p' s' else None
  | _ :: _, [] => None
  end.

Definition keyword (w : string) (s : list ascii) : option (list ascii) :=
  strip_prefix (chars w) s.

(** [d[key] = v]: a key already present keeps its place. *)
Fixpoint dict_set (d : list (string * value)) (key : string) (v : value)
  : list (string * value) :=
  match d with
  | [] => [(key, v)]
  | (k, x) :: d' =>
      if String.eqb k key then (k, v) :: d' else (k, x) :: dict_set d' key v
  end.

Fixpoint scan_once (fuel : nat) (s : list ascii) : parsed value :=
  match fuel with
  | O => Bad
  | S f =>
      match s with
      | [] => Bad
      | c :: r =>
          if chr_is 34 c then
            match scan_string r [] with
            | Ok str rest => Ok (VStr str) rest
            | Bad => Bad
            | Beyond => Beyond
            end
          else if chr_is 123 c then
            match skip_ws r with
            | c' :: r' => if chr_is 125 c' then Ok (VDict []) r'
                          else scan_object f (c' :: r') []
            | [] => Bad
            end
          else if chr_is 91 c then
            match skip_ws r with
            | c' :: r' => if chr_is 93 c' then Ok (VList []) r'
                          else scan_array f (c' :: r') []
            | [] => Bad
            end
          else
            match keyword "null" s, keyword "true" s, keyword "false" s with
            | Some rest, _, _ => Ok VNone rest
            | _, Some rest, _ => Ok (VBool true) rest
            | _, _, Some rest => Ok (VBool false) rest
            | None, None, None =>
                match keyword "NaN" s, keyword "Infinity" s,
                      keyword "-Infinity" s with
                | Some rest, _, _ => Ok (VFloatSpecial "nan") rest
                | _, Some rest, _ => Ok (VFloatSpecial "inf") rest
                | _, _, Some rest => Ok (VFloatSpecial "-inf") rest
                | None, None, None =>
                    if chr_is 45 c then scan_unsigned true r
                    else scan_unsigned false s
                end
            end
      end
  end
with scan_array (fuel : nat) (s : list ascii) (acc : list value)
  : parsed value :=
  match fuel with
  | O => Bad
  | S f =>
      match scan_once f s with
      | Ok v rest =>
          match skip_ws rest with
          | c :: r =>
              if chr_is 93 c then Ok (VList (rev (v :: acc))) r
              else if chr_is 44 c then scan_array f (skip_ws r) (v :: acc)
              else Bad
          | [] => Bad
          end
      | Bad => Bad
      | Beyond => Beyond
      end
  end
with scan_object (fuel : nat) (s : list ascii) (acc : list (string * value))
  : parsed value :=
  match fuel with
  | O => Bad
  | S f =>
      match s with
      | q :: r =>
          if chr_is 34 q then
            match scan_string r [] with
            | Ok key rest =>
                match skip_ws rest with
                | c :: r2 =>
                    if chr_is 58 c then
                      match scan_once f (skip_ws r2) with
                      | Ok v rest2 =>
                          match skip_ws rest2 with
                          | c2 :: r3 =>
                              if chr_is 125 c2
                              then Ok (VDict (dict_set acc key v)) r3
                              else if chr_is 44 c2
                              then scan_object f (skip_ws r3)
                                     (dict_set acc key v)
                              else Bad
                          | [] => Bad
                          end
                      | Bad => Bad
                      | Beyond => Beyond
                      end
                    else Bad
                | [] => Bad
                end
            | Bad => Bad
            | Beyond => Beyond
            end
          else Bad
      | [] => Bad
      end
  end.

Definition decode_error (msg : string) : exn := mkExn JSONDecodeError msg.

Definition loads (s : string) : result value :=
  let l := chars s in
  match scan_once (2 * List.length l + 2) (skip_ws l) with
  | Ok v rest =>
      match skip_ws rest with
      | [] => Ret v
      | _ :: _ => Raise (decode_error "Extra data")
      end
  | Bad => Raise (decode_error "Expecting value")
  | Beyond => Raise (mkExn RuntimeError "escape above U+00FF")
  end.

End Json.

(** ** Dates: the operations of [datetime] and [calendar] the sources use

    A [datetime] is a day number (days since 1970-01-01 in the proleptic
    Gregorian calendar), the second of the day and the microsecond, so that
    [timedelta] arithmetic and comparison are arithmetic on integers; the
    civil date is computed when a date is built or printed. *)

Module Datetime.
Import Text.

Record datetime : Type := mkDT { dt_days : Z; dt_secs : Z; dt_micro : Z }.

Definition days_from_civil (y m d : Z) : Z :=
  let y' := if m <=? 2 then y - 1 else y in
  let era := y' / 400 in
  let yoe := y' - era * 400 in
  let doy := (153 * (if m >? 2 then m - 3 else m + 9) + 2) / 5 + d - 1 in
  let doe := yoe * 365 + yoe / 4 - yoe / 100 + doy in
  era * 146097 + doe - 719468.

Definition civil_from_days (days : Z) : Z * Z * Z :=
  let z := days + 719468 in
  let era := z / 146097 in
  let doe := z - era * 146097 in
  let yoe := (doe - doe / 1460 + doe / 36524 - doe / 146096) / 365 in
  let doy := doe - (365 * yoe + yoe / 4 - yoe / 100) in
  let mp := (5 * doy + 2) / 153 in
  let d := doy - (153 * mp + 2) / 5 + 1 in
  let m := if mp <? 10 then mp + 3 else mp - 9 in
  let y := yoe + era * 400 in
  (if m <=? 2 then y + 1 else y, m, d).

Definition isleap (y : Z) : bool :=
  ((y mod 4 =? 0) && negb (y mod 100 =? 0)) || (y mod 400 =? 0).

(** The day count of [calendar.monthrange(year, month)]. *)
Definition days_in_month (y m : Z) : Z :=
  if m =? 2 then (if isleap y then 29 else 28)
  else if (m =? 4) || (m =? 6) || (m =? 9) || (m =? 11) then 30
  else 31.

(** [datetime(y, m, d, hh, mm, ss)]; an invalid date raises [ValueError]. *)
Definition make (y m d hh mm ss : Z) : result datetime :=
  if (1 <=? y) && (y <=? 9999) && (1 <=? m) && (m <=? 12)
     && (1 <=? d) && (d <=? days_in_month y m)
     && (0 <=? hh) && (hh <? 24) && (0 <=? mm) && (mm <? 60)
     && (0 <=? ss) && (ss <? 60)
  then Ret (mkDT (days_from_civil y m d) (hh * 3600 + mm * 60 + ss) 0)
  else Raise (mkExn ValueError "date value out of range").

(** [dt + timedelta(days=n)] (negative [n] for a subtraction). *)
Definition add_days (dt : datetime) (n : Z) : datetime :=
  mkDT (dt_days dt + n) (dt_secs dt) (dt_micro dt).

Definition year (dt : datetime) : Z := fst (fst (civil_from_days (dt_days dt))).
Definition month (dt : datetime) : Z := snd (fst (civil_from_days (dt_days dt))).
Definition day (dt : datetime) : Z := snd (civil_from_days (dt_days dt)).

(** [dt.replace(day=1)] *)
Definition first_of_month (dt : datetime) : datetime :=
  mkDT (dt_days dt - (day dt - 1)) (dt_secs dt) (dt_micro dt).

(** [a <= b] and [a > b] *)
Definition leb (a b : datetime) : bool :=
  (dt_days a <? dt_days b)
  || ((dt_days a =? dt_days b)
      && ((dt_secs a <? dt_secs b)
          || ((dt_secs a =? dt_secs b) && (dt_micro a <=? dt_micro b)))).

Definition gtb (a b : datetime) : bool := negb (leb a b).

(** A non-negative number printed on at least [w] digits. *)
Definition pad (w : nat) (n : Z) : string :=
  let t := str_of_nonneg n in
  text (repeat "0"%char (w - String.length t)) ++ t.

Definition month_name (m : Z) : string :=
  nth (Z.to_nat m)
    [""; "January"; "February"; "March"; "April"; "May"; "June"; "July";
     "August"; "September"; "October"; "November"; "December"] "".

(** [dt.isoformat()] *)
Definition isoformat (dt : datetime) : string :=
  let s := dt_secs dt in
  pad 4 (year dt) ++ "-" ++ pad 2 (month dt) ++ "-" ++ pad 2 (day dt)
  ++ "T" ++ pad 2 (s / 3600) ++ ":" ++ pad 2 ((s / 60) mod 60)
  ++ ":" ++ pad 2 (s mod 60)
  ++ (if dt_micro dt =? 0 then "" else "." ++ pad 6 (dt_micro dt)).

(** [dt.strftime('%Y-%m-%d')], [dt.strftime('%B %d, %Y')] and
    [dt.strftime('%B %d')], for a year of four digits. *)
Definition strftime_Y_m_d (dt : datetime) : string :=
  pad 4 (year dt) ++ "-" ++ pad 2 (month dt) ++ "-" ++ pad 2 (day dt).

Definition strftime_B_d_Y (dt : datetime) : string :=
  month_name (month dt) ++ " " ++ pad 2 (day dt) ++ ", " ++ pad 4 (year dt).

Definition strftime_B_d (dt : datetime) : string :=
  month_name (month dt) ++ " " ++ pad 2 (day dt).

(** A reader for the texts [isoformat] prints and for plain dates: used as
    [datetime.fromisoformat] by the concrete environment. *)
Definition digits_value (s : string) : option Z :=
  let l := chars s in
  if forallb isdigit_ascii l && negb (String.eqb s "")
  then Some (fold_left (fun a c => a * 10 + Z.of_nat (code c - 48)) l 0)
  else None.

Definition bad_iso (s : string) : exn :=
  mkExn ValueError ("Invalid isoformat string: '" ++ s ++ "'").

Definition parse_date (s : string) : result datetime :=
  if (String.length s =? 10)%nat
     && String.eqb (String.substring 4 1 s) "-"
     && String.eqb (String.substring 7 1 s) "-"
  then match digits_value (String.substring 0 4 s),
             digits_value (String.substring 5 2 s),
             digits_value (String.substring 8 2 s) with
       | Some y, Some m, Some d =>
           match make y m d 0 0 0 with
           | Ret dt => Ret dt
           | Raise _ => Raise (bad_iso s)
           end
       | _, _, _ => Raise (bad_iso s)
       end
  else Raise (bad_iso s).

Definition parse_time (s : string) : option (Z * Z) :=
  if (8 <=? String.length s)%nat
     && String.eqb (String.substring 2 1 s) ":"
     && String.eqb (String.substring 5 1 s) ":"
  then match digits_value (String.substring 0 2 s),
             digits_value (String.substring 3 2 s),
             digits_value (String.substring 6 2 s) with
       | Some hh, Some mm, Some ss =>
           if (hh <? 24) && (mm <? 60) && (ss <? 60) then
             let secs := hh * 3600 + mm * 60 + ss in
             if (String.length s =? 8)%nat then Some (secs, 0)
             else if (String.length s =? 15)%nat
                     && String.eqb (String.substring 8 1 s) "."
             then match digits_value (String.substring 9 6 s) with
                  | Some us => Some (secs, us)
                  | None => None
                  end
             else None
           else None
       | _, _, _ => None
       end
  else None.

Definition fromisoformat_basic (s : string) : result datetime :=
  if (String.length s <=? 10)%nat then parse_date s
  else match parse_date (String.substring 0 10 s),
             parse_time (slice_from 11 s) with
       | Ret d, Some (secs, us) => Ret (mkDT (dt_days d) secs us)
       | _, _ => Raise (bad_iso s)
       end.

End Datetime.

(** ** The store: [database_manager.py] over the SQLite tables

    Each table is the list of its rows in rowid order. An AUTOINCREMENT key
    is one more than the largest key the table ever held ([seq_*]). A
    statement is atomic; the store itself does not fail (an unreachable
    database file is not modelled), so the [except] branches of the manager
    are reached only by a value that cannot be bound to a parameter. *)

Module DB.
Import Text.

Inductive meta_value : Type :=
| MInt (n : Z)
| MBool (b : bool)
| MStr (s : string)
| MNone
| MRatio (num den : Z).     (* the float [num / den] *)

Definition metadata : Type := list (string * meta_value).

Record file_row : Type := mkFile {
  f_id : Z; f_path : string; f_type : string; f_hash : string;
  f_added : string; f_last : string;
  f_meta : option metadata      (* the dict whose [json.dumps] is stored *)
}.

Record content_row : Type := mkContent {
  c_id : Z; c_file_id : Z; c_type : string;
  c_text : option string; c_processed : option string;
  c_date : string               (* embedding_id is always NULL *)
}.

Record tag_row : Type := mkTag { t_id : Z; t_name : string }.

Record task_row : Type := mkTask {
  k_id : Z; k_content_id : Z; k_text : option string;
  k_completed : Z; k_due : option string; k_created : string
}.

Record digest_row : Type := mkDigest {
  d_id : Z; d_type : string; d_start : option string; d_end : option string;
  d_content : string; d_created : string
}.

Record store : Type := mkStore {
  files : list file_row;
  content : list content_row;
  tags : list tag_row;
  content_tags : list (Z * Z);
  tasks : list task_row;
  digests : list digest_row;
  seq_files : Z; seq_content : Z; seq_tags : Z; seq_tasks : Z; seq_digests : Z
}.

Definition empty : store := mkStore [] [] [] [] [] [] 0 0 0 0 0.

(** How [sqlite3] binds a Python object to a parameter of a TEXT column:
    [None] is NULL, text is kept, an integer (a [bool] is one) that fits 64
    bits is stored as its decimal text, a float as the text [float_text]
    gives (NULL for a NaN); a list or a dict cannot be bound. *)
Definition bind_text (float_text : value -> option string) (v : value)
  : result (option string) :=
  match v with
  | VNone => Ret None
  | VStr s => Ret (Some s)
  | VBool b => Ret (Some (if b then "1" else "0"))
  | VInt n =>
      if (- 2 ^ 63 <=? n) && (n <? 2 ^ 63) then Ret (Some (str_of_Z n))
      else Raise (mkExn Exception
                    "Python int too large to convert to SQLite INTEGER")
  | VFloat _ _ | VFloatSpecial _ => Ret (float_text v)
  | VList _ | VDict _ =>
      Raise (mkExn Exception "Error binding parameter: type not supported")
  end.

(** [add_file]: INSERT OR IGNORE under the UNIQUE constraint of
    [file_path]. The result is [cursor.lastrowid]; after an ignored insert
    on the fresh connection it is not a row id and is false in a test
    ([None] here). *)
Definition add_file (now : string) (file_path file_type file_hash : string)
  (meta : option metadata) (s : store) : option Z * store :=
  if existsb (fun r => String.eqb (f_path r) file_path) (files s)
  then (None, s)
  else
    let id := seq_files s + 1 in
    let meta_json := match meta with
                     | Some [] => None
                     | m => m
                     end in
    (Some id,
     mkStore (files s ++ [mkFile id file_path file_type file_hash now now
                            meta_json])
       (content s) (tags s) (content_tags s) (tasks s) (digests s)
       id (seq_content s) (seq_tags s) (seq_tasks s) (seq_digests s)).

(** [add_content] *)
Definition add_content (now : string) (file_id : Z) (content_type : string)
  (content_text : option string) (processed_text : option string) (s : store)
  : option Z * store :=
  let id := seq_content s + 1 in
  (Some id,
   mkStore (files s)
     (content s ++ [mkContent id file_id content_type content_text
                      processed_text now])
     (tags s) (content_tags s) (tasks s) (digests s)
     (seq_files s) id (seq_tags s) (seq_tasks s) (seq_digests s)).

Definition find_tag (name : string) (s : store) : option tag_row :=
  find (fun t => String.eqb (t_name t) name) (tags s).

(** INSERT OR IGNORE INTO tags (name): ignored when the name is there. *)
Definition insert_tag (name : string) (s : store) : store :=
  match find_tag name s with
  | Some _ => s
  | None =>
      let id := seq_tags s + 1 in
      mkStore (files s) (content s) (tags s ++ [mkTag id name])
        (content_tags s) (tasks s) (digests s)
        (seq_files s) (seq_content s) id (seq_tasks s) (seq_digests s)
  end.

Definition pair_eqb (a b : Z * Z) : bool :=
  (fst a =? fst b) && (snd a =? snd b).

(** INSERT OR IGNORE INTO content_tags under its primary key. *)
Definition insert_content_tag (content_id tag_id : Z) (s : store) : store :=
  if existsb (pair_eqb (content_id, tag_id)) (content_tags s) then s
  else mkStore (files s) (content s) (tags s)
         (content_tags s ++ [(content_id, tag_id)]) (tasks s) (digests s)
         (seq_files s) (seq_content s) (seq_tags s) (seq_tasks s)
         (seq_digests s).

(** One round of the loop of [add_tags]. A NULL name is inserted by SQLite
    without a conflict but the SELECT that follows finds no row, and
    [fetchone()[0]] raises; the rollback discards the row anyway. *)
Definition add_one_tag (float_text : value -> option string)
  (content_id : Z) (tag : value) (s : store) : result store :=
  match bind_text float_text tag with
  | Raise e => Raise e
  | Ret None =>
      Raise (mkExn TypeError "'NoneType' object is not subscriptable")
  | Ret (Some name) =>
      let s1 := insert_tag name s in
      match find_tag name s1 with
      | Some t => Ret (insert_content_tag content_id (t_id t) s1)
      | None =>
          Raise (mkExn TypeError "'NoneType' object is not subscriptable")
      end
  end.

Fixpoint add_tag_loop (float_text : value -> option string)
  (content_id : Z) (items : list value) (s : store) : result store :=
  match items with
  | [] => Ret s
  | tag :: rest =>
      match add_one_tag float_text content_id tag s with
      | Ret s' => add_tag_loop float_text content_id rest s'
      | Raise e => Raise e
      end
  end.

(** [add_tags]: the loop commits as a whole, or is rolled back by the
    [except] branch (the error is logged, nothing is raised). *)
Definition add_tags (float_text : value -> option string)
  (content_id : Z) (tag_list : value) (s : store) : store :=
  match iterate tag_list with
  | Raise _ => s
  | Ret items =>
      match add_tag_loop float_text content_id items s with
      | Ret s' => s'
      | Raise _ => s
      end
  end.

(** [add_task]; [completed] takes its default 0. *)
Definition add_task (float_text : value -> option string) (now : string)
  (content_id : Z) (task_text : value) (due_date : option string) (s : store)
  : option Z * store :=
  match bind_text float_text task_text with
  | Raise _ => (None, s)
  | Ret txt =>
      let id := seq_tasks s + 1 in
      (Some id,
       mkStore (files s) (content s) (tags s) (content_tags s)
         (tasks s ++ [mkTask id content_id txt 0 due_date now]) (digests s)
         (seq_files s) (seq_content s) (seq_tags s) id (seq_digests s))
  end.

(** [update_task_status(task_id, completed)] *)
Definition update_task_status (task_id : Z) (completed : bool) (s : store)
  : store :=
  mkStore (files s) (content s) (tags s) (content_tags s)
    (map (fun t => if k_id t =? task_id
                   then mkTask (k_id t) (k_content_id t) (k_text t)
                          (if completed then 1 else 0) (k_due t) (k_created t)
                   else t)
       (tasks s))
    (digests s)
    (seq_files s) (seq_content s) (seq_tags s) (seq_tasks s) (seq_digests s).

(** [save_digest] *)
Definition save_digest (now : string) (digest_type content_body : string)
  (start_date end_date : option string) (s : store) : option Z * store :=
  let id := seq_digests s + 1 in
  (Some id,
   mkStore (files s) (content s) (tags s) (content_tags s) (tasks s)
     (digests s ++ [mkDigest id digest_type start_date end_date content_body
                      now])
     (seq_files s) (seq_content s) (seq_tags s) (seq_tasks s) id).

(** *** Queries *)

(** A stable insertion sort: rows that compare equal keep the order of the
    scan, which is the rowid order. (SQLite leaves the order of ties open;
    no statement below depends on it.) *)
Fixpoint insert_by {A : Type} (le : A -> A -> bool) (x : A) (l : list A)
  : list A :=
  match l with
  | [] => [x]
  | y :: r => if le x y then x :: y :: r else y :: insert_by le x r
  end.

Definition sort_by {A : Type} (le : A -> A -> bool) (l : list A) : list A :=
  fold_right (insert_by le) [] l.

(** A row of [SELECT c.*, f.file_type, f.file_path], or of [SELECT c.*]
    alone (then the two last columns are absent). *)
Record content_view : Type := mkCView {
  cv_row : content_row;
  cv_file_type : option string;
  cv_file_path : option string
}.

Definition file_by_id (id : Z) (s : store) : option file_row :=
  find (fun f => f_id f =? id) (files s).

Definition join_file (s : store) (c : content_row) : list content_view :=
  match file_by_id (c_file_id c) s with
  | Some f => [mkCView c (Some (f_type f)) (Some (f_path f))]
  | None => []
  end.

(** [get_content_for_period]: BETWEEN on the text of the timestamps. *)
Definition get_content_for_period (start_date end_date : string) (s : store)
  : list content_view :=
  sort_by (fun a b => String.leb (c_date (cv_row a)) (c_date (cv_row b)))
    (flat_map (join_file s)
       (filter (fun c => String.leb start_date (c_date c)
                         && String.leb (c_date c) end_date)
          (content s))).

(** [get_all_content(limit)]: newest first. *)
Definition get_all_content (limit : option nat) (s : store)
  : list content_view :=
  let rows :=
    sort_by (fun a b => String.leb (c_date (cv_row b)) (c_date (cv_row a)))
      (map (fun c => mkCView c None None) (content s)) in
  match limit with
  | Some (S n) => firstn (S n) rows
  | _ => rows
  end.

(** [get_file_by_id] *)
Definition get_file_by_id (id : Z) (s : store) : option file_row :=
  file_by_id id s.

(** [get_tags_for_content] *)
Definition get_tags_for_content (content_id : Z) (s : store) : list string :=
  flat_map (fun ct =>
              if fst ct =? content_id
              then map t_name (filter (fun t => t_id t =? snd ct) (tags s))
              else [])
    (content_tags s).

(** A row of the task queries; the joined columns are absent from the
    direct query of [generate_task_list]. *)
Record task_view : Type := mkTView {
  tv_task : task_row;
  tv_file_path : option string;
  tv_content_type : option string
}.

Definition join_task (s : store) (t : task_row) : list task_view :=
  match find (fun c => c_id c =? k_content_id t) (content s) with
  | Some c =>
      match file_by_id (c_file_id c) s with
      | Some f => [mkTView t (Some (f_path f)) (Some (c_type c))]
      | None => []
      end
  | None => []
  end.

(** SQLite's order on a nullable text column: NULL first, then the texts
    in byte order. *)
Definition compare_nullable (a b : option string) : comparison :=
  match a, b with
  | None, None => Eq
  | None, Some _ => Lt
  | Some _, None => Gt
  | Some x, Some y => String.compare x y
  end.

(** ORDER BY t.completed ASC, t.due_date ASC, t.created_date DESC: the
    clause left once [query.replace] has removed the words NULLS LAST. *)
Definition task_order (a b : task_row) : comparison :=
  match Z.compare (k_completed a) (k_completed b) with
  | Eq => match compare_nullable (k_due a) (k_due b) with
          | Eq => String.compare (k_created b) (k_created a)
          | c => c
          end
  | c => c
  end.

Definition task_le (a b : task_view) : bool :=
  match task_order (tv_task a) (tv_task b) with
  | Gt => false
  | _ => true
  end.

(** [get_tasks(completed, start_date, end_date)] *)
Definition get_tasks (completed : option bool)
  (start_date end_date : option string) (s : store) : list task_view :=
  let keep (t : task_row) :=
    (match completed with
     | Some b => k_completed t =? (if b then 1 else 0)
     | None => true
     end)
    && (match start_date with
        | Some d => if str_truthy d then String.leb d (k_created t) else true
        | None => true
        end)
    && (match end_date with
        | Some d => if str_truthy d then String.leb (k_created t) d else true
        | None => true
        end) in
  sort_by task_le (flat_map (join_task s) (filter keep (tasks s))).

(** The direct query of [generate_task_list]:
    SELECT ... FROM tasks WHERE completed = 0. *)
Definition incomplete_tasks (s : store) : list task_view :=
  map (fun t => mkTView t None None)
    (filter (fun t => k_completed t =? 0) (tasks s)).

(** [get_latest_digest]: ORDER BY created_date DESC LIMIT 1. *)
Definition get_latest_digest (digest_type : string) (s : store)
  : option digest_row :=
  hd_error
    (sort_by (fun a b => String.leb (d_created b) (d_created a))
       (filter (fun d => String.eqb (d_type d) digest_type) (digests s))).

(** *** The methods added for the web interface *)

(** An integer [sqlite3] can bind: it fits 64 bits. Binding any other one
    raises, and the method takes its [except] branch. *)
Definition bindable (n : Z) : bool := (- 2 ^ 63 <=? n) && (n <? 2 ^ 63).

(** LIMIT and OFFSET: a negative limit is no limit, a negative offset is
    none. *)
Definition limit_rows {A : Type} (limit : Z) (l : list A) : list A :=
  if limit <? 0 then l else firstn (Z.to_nat limit) l.

Definition offset_rows {A : Type} (offset : Z) (l : list A) : list A :=
  skipn (Z.to_nat offset) l.

(** The rows of [SELECT c.*, f.file_type, f.file_path FROM content c JOIN
    files f ... ORDER BY c.date_processed DESC]. *)
Definition newest_first (s : store) : list content_view :=
  sort_by (fun a b => String.leb (c_date (cv_row b)) (c_date (cv_row a)))
    (flat_map (join_file s) (content s)).

(** [get_recent_content(limit)] *)
Definition get_recent_content (limit : Z) (s : store) : list content_view :=
  if bindable limit then limit_rows limit (newest_first s) else [].

(** [get_paginated_content(page, per_page)] *)
Definition get_paginated_content (page per_page : Z) (s : store)
  : list content_view :=
  let offset := (page - 1) * per_page in
  if bindable per_page && bindable offset
  then limit_rows per_page (offset_rows offset (newest_first s))
  else [].

(** [get_content_count] *)
Definition get_content_count (s : store) : Z :=
  Z.of_nat (List.length (content s)).

(** [get_content_by_id] *)
Definition get_content_by_id (content_id : Z) (s : store)
  : option content_view :=
  if bindable content_id
  then hd_error (flat_map (join_file s)
                   (filter (fun c => c_id c =? content_id) (content s)))
  else None.

(** [get_digest_by_id] *)
Definition get_digest_by_id (digest_id : Z) (s : store) : option digest_row :=
  if bindable digest_id
  then find (fun d => d_id d =? digest_id) (digests s)
  else None.

(** [get_all_digests(digest_type)]: newest first. *)
Definition get_all_digests (digest_type : option string) (s : store)
  : list digest_row :=
  sort_by (fun a b => String.leb (d_created b) (d_created a))
    (match digest_type with
     | Some t =>
         if str_truthy t
         then filter (fun d => String.eqb (d_type d) t) (digests s)
         else digests s
     | None => digests s
     end).

(** [get_task_by_id] *)
Definition get_task_by_id (task_id : Z) (s : store) : option task_row :=
  if bindable task_id
  then find (fun t => k_id t =? task_id) (tasks s)
  else None.

(** [get_tasks_for_content]: newest first. *)
Definition get_tasks_for_content (content_id : Z) (s : store)
  : list task_row :=
  if bindable content_id
  then sort_by (fun a b => String.leb (k_created b) (k_created a))
         (filter (fun t => k_content_id t =? content_id) (tasks s))
  else [].

(** [update_content_processed_text(content_id, processed_text)]: the
    result is the [True] or [False] it returns. *)
Definition update_content_processed_text (content_id : Z)
  (processed_text : option string) (s : store) : bool * store :=
  if bindable content_id then
    (true,
     mkStore (files s)
       (map (fun c => if c_id c =? content_id
                      then mkContent (c_id c) (c_file_id c) (c_type c)
                             (c_text c) processed_text (c_date c)
                      else c)
          (content s))
       (tags s) (content_tags s) (tasks s) (digests s)
       (seq_files s) (seq_content s) (seq_tags s) (seq_tasks s)
       (seq_digests s))
  else (false, s).

(** [get_unprocessed_content(limit)]: rows whose processed text is NULL, in
    rowid order; [limit] is written into the query when it is true. *)
Definition get_unprocessed_content (limit : option Z) (s : store)
  : list content_row :=
  let rows := filter (fun c => match c_processed c with
                               | None => true
                               | Some _ => false
                               end) (content s) in
  match limit with
  | Some n => if n =? 0 then rows
              else if bindable n then limit_rows n rows else []
  | None => rows
  end.

(** [delete_content(content_id)]: the tag links and the tasks of the
    content go first, then the content row. Files and tags stay. *)
Definition delete_content (content_id : Z) (s : store) : bool * store :=
  if bindable content_id then
    (true,
     mkStore (files s)
       (filter (fun c => negb (c_id c =? content_id)) (content s))
       (tags s)
       (filter (fun ct => negb (fst ct =? content_id)) (content_tags s))
       (filter (fun t => negb (k_content_id t =? content_id)) (tasks s))
       (digests s)
       (seq_files s) (seq_content s) (seq_tags s) (seq_tasks s)
       (seq_digests s))
  else (false, s).

(** The keys of a GROUP BY, each once, in the order of their first row. *)
Fixpoint distinct (l : list string) : list string :=
  match l with
  | [] => []
  | x :: r => x :: filter (fun y => negb (String.eqb y x)) (distinct r)
  end.

(** [get_content_statistics]: the number of content rows, the number of
    rows of each content type (one group per type; SQL leaves the order of
    the groups open, they are listed by type here), the number of tags. *)
Definition get_content_statistics (s : store)
  : Z * list (string * Z) * Z :=
  let types := map c_type (content s) in
  (Z.of_nat (List.length (content s)),
   map (fun t => (t, Z.of_nat (List.length
                                 (filter (String.eqb t) types))))
     (sort_by String.leb (distinct types)),
   Z.of_nat (List.length (tags s))).

(** [get_top_tags(limit)]: each tag that labels some content, with the
    number of its links, the most used first. *)
Definition get_top_tags (limit : Z) (s : store) : list (string * Z) :=
  if bindable limit then
    limit_rows limit
      (sort_by (fun a b => snd b <=? snd a)
         (flat_map
            (fun t =>
               match filter (fun ct => snd ct =? t_id t) (content_tags s) with
               | [] => []
               | links => [(t_name t, Z.of_nat (List.length links))]
               end)
            (tags s)))
  else [].

(** [get_content_by_tag(tag_name, limit)]: newest first. *)
Definition get_content_by_tag (tag_name : string) (limit : Z) (s : store)
  : list content_view :=
  if bindable limit then
    limit_rows limit
      (sort_by (fun a b => String.leb (c_date (cv_row b)) (c_date (cv_row a)))
         (flat_map
            (fun c =>
               flat_map
                 (fun v =>
                    flat_map
                      (fun ct =>
                         if fst ct =? c_id c
                         then map (fun _ => v)
                                (filter (fun t => (t_id t =? snd ct)
                                                  && String.eqb (t_name t)
                                                       tag_name)
                                   (tags s))
                         else [])
                      (content_tags s))
                 (join_file s c))
            (content s)))
  else [].

End DB.

(** ** The environment and the state monad *)

Module Effects.
Import Text Datetime.

(** What one attempt of [requests.post] in [_call_api] leads to. *)
Inductive post_outcome : Type :=
| Answered (reply : string)  (* a 2xx reply; the text of its first block *)
| NoContent                  (* a 2xx reply without a content list *)
| Failed (e : exn)           (* a [RequestException]: the call is retried *)
| Crashed (e : exn).         (* any other exception: it propagates *)

Record request : Type := mkRequest {
  rq_system : string;
  rq_user : string;
  rq_max_tokens : Z;
  rq_image : option string     (* the page image of a multimodal call *)
}.

Record Env : Type := mkEnv {
  (* clock and text conversions of the interpreter *)
  now : datetime;
  fromisoformat : string -> result datetime;
  float_text : value -> option string;     (* a float as SQLite stores it *)
  repr : value -> string;                  (* [str] of a float, list, dict *)
  (* files *)
  read_text : string -> result string;     (* [open(p, 'r').read()] *)
  file_md5 : string -> result string;      (* md5 of [open(p, 'rb').read()] *)
  write_error : string -> option exn;      (* [open(p, 'w')] failing *)
  remove_error : string -> option exn;     (* [os.remove(p)] failing *)
  mkdtemp : result string;
  (* decoders and recognisers *)
  json_loads : string -> result value;
  image_to_string : string -> result string;   (* OCR of [Image.open(p)] *)
  pdf_pages : string -> result (list (result (option string)));
  import_pdf2image : option exn;
  convert_from_path : string -> result nat;    (* how many pages it drew *)
  import_fitz : option exn;
  fitz_open : string -> result (list (option exn));
  (* markup *)
  soup_text : string -> string;
  soup_title : string -> option (option string);
  soup_canonical : string -> option (option string);
  xml_string : string -> result (option string);
  requests_get : string -> result (string * option string);
  (* the LLM endpoint: request and attempt number *)
  http_post : request -> nat -> post_outcome
}.

(** The external calls a run performs, oldest first. *)
Inductive event : Type :=
| EvConvertFromPath (pdf : string)     (* pdf2image renders the document *)
| EvFitzOpen (pdf : string)            (* PyMuPDF opens the document *)
| EvSavePage (image : string)          (* a page image is written *)
| EvOcr (image : string)               (* pytesseract reads an image *)
| EvVision (image : string)            (* an image goes to the vision model *)
| EvApi (rq : request)                 (* a text request goes to the model *)
| EvRemove (image : string)            (* [os.remove] is called *)
| EvWrite (path : string).             (* a document is written *)

Record World : Type := mkWorld {
  db : DB.store;
  disk : list string;                 (* page images present on disk *)
  documents : list (string * string); (* files written: path and body *)
  trace : list event
}.

(** A computation over a state [S] that returns or raises. *)
Definition ST (S A : Type) : Type := S -> result A * S.

Definition M : Type -> Type := ST World.

Definition ret {S A : Type} (a : A) : ST S A := fun w => (Ret a, w).

Definition raise {S A : Type} (e : exn) : ST S A := fun w => (Raise e, w).

Definition bind {S A B : Type} (m : ST S A) (k : A -> ST S B) : ST S B :=
  fun w => match m w with
           | (Ret a, w') => k a w'
           | (Raise e, w') => (Raise e, w')
           end.

(** [try: m  except cls as e: h e]. What the body changed before it raised
    stays changed. *)
Definition try_except {S A : Type} (m : ST S A) (cls : exn_class)
  (h : exn -> ST S A) : ST S A :=
  fun w => match m w with
           | (Ret a, w') => (Ret a, w')
           | (Raise e, w') =>
               if isinstance e cls then h e w' else (Raise e, w')
           end.

Definition lift {S A : Type} (r : result A) : ST S A := fun w => (r, w).

Definition gets {S A : Type} (f : S -> A) : ST S A := fun w => (Ret (f w), w).

Definition modify {S : Type} (f : S -> S) : ST S unit :=
  fun w => (Ret tt, f w).

Definition when {S : Type} (b : bool) (m : ST S unit) : ST S unit :=
  if b then m else ret tt.

Definition with_trace (w : World) (t : list event) : World :=
  mkWorld (db w) (disk w) (documents w) t.

Definition with_disk (w : World) (d : list string) : World :=
  mkWorld (db w) d (documents w) (trace w).

Definition with_db (w : World) (s : DB.store) : World :=
  mkWorld s (disk w) (documents w) (trace w).

Definition emit (ev : event) : M unit :=
  modify (fun w => with_trace w (trace w ++ [ev])).

Definition on_db {A : Type} (f : DB.store -> A * DB.store) : M A :=
  fun w => let (a, s') := f (db w) in (Ret a, with_db w s').

Definition set_db (f : DB.store -> DB.store) : M unit :=
  modify (fun w => with_db w (f (db w))).

(** [os.path.exists] of a page image. *)
Definition on_disk (path : string) : M bool :=
  gets (fun w => existsb (String.eqb path) (disk w)).

(** A page image is written. *)
Definition create_image (path : string) : M unit :=
  modify (fun w =>
            with_disk (with_trace w (trace w ++ [EvSavePage path]))
              (if existsb (String.eqb path) (disk w) then disk w
               else disk w ++ [path])).

(** [os.remove(path)] *)
Definition remove (E : Env) (path : string) : M unit :=
  bind (emit (EvRemove path)) (fun _ =>
  match remove_error E path with
  | Some e => raise e
  | None =>
      modify (fun w =>
                with_disk w
                  (filter (fun p => negb (String.eqb p path)) (disk w)))
  end).

(** [with open(path, 'w') as f: f.write(body)] *)
Definition write_document (E : Env) (path body : string) : M unit :=
  bind (emit (EvWrite path)) (fun _ =>
  match write_error E path with
  | Some e => raise e
  | None =>
      modify (fun w => mkWorld (db w) (disk w)
                         (documents w ++ [(path, body)]) (trace w))
  end).

(** A [for] loop whose body runs for its effect. *)
Fixpoint for_each {S A : Type} (l : list A) (body : A -> ST S unit)
  : ST S unit :=
  match l with
  | [] => ret tt
  | x :: r => bind (body x) (fun _ => for_each r body)
  end.

(** [enumerate(l, start)] *)
Fixpoint enumerate {A : Type} (start : nat) (l : list A) : list (nat * A) :=
  match l with
  | [] => []
  | x :: r => (start, x) :: enumerate (S start) r
  end.

End Effects.

Declare Scope monad_scope.
Notation "x <- m ;; k" := (Effects.bind m (fun x => k))
  (at level 61, m at next level, right associativity) : monad_scope.
Notation "m ;;; k" := (Effects.bind m (fun _ => k))
  (at level 61, right associativity) : monad_scope.

(** ** The LLM service: [llm_service.py] *)

Module LLMService.
Import Text Re Datetime Effects.
Local Open Scope monad_scope.

(** An instance: its API key, empty when none was configured. *)
Record service : Type := mkService { api_key : string }.

Definition max_retries : nat := 3.

(** The retry loop of [_call_api]: [retries] failed attempts so far. A
    reply ends the loop; a [RequestException] is retried until the third
    failure; any other exception leaves the function. *)
Fixpoint call_loop (post : nat -> post_outcome) (retries fuel : nat)
  : result (option string) :=
  match fuel with
  | O => Ret None
  | S f =>
      match post retries with
      | Answered reply => Ret (Some reply)
      | NoContent => Ret None
      | Failed _ =>
          if (S retries <? max_retries)%nat
          then call_loop post (S retries) f
          else Ret None
      | Crashed e => Raise e
      end
  end.

(** [_call_api(messages, max_tokens)] for one system and one user
    message. *)
Definition _call_api (E : Env) (svc : service) (system user : string)
  (max_tokens : Z) : M (option string) :=
  if negb (str_truthy (api_key svc)) then ret None
  else
    let rq := mkRequest system user max_tokens None in
    emit (EvApi rq) ;;;
    lift (call_loop (http_post E rq) 0 max_retries).

Definition vision_system_prompt : string :=
  "You are an expert document analyzer with perfect OCR capabilities. Your task is to extract ALL text from the image with 100% accuracy, preserving the exact formatting and layout. For documents, focus exclusively on the text content rather than describing what you see. Your goal is to recreate the document text exactly as if it were digitally extracted, not to describe the image.".

(** [_call_api_with_image]: the image is read first; a read error gives
    [None]. *)
Definition _call_api_with_image (E : Env) (svc : service)
  (image_path prompt : string) : M (option string) :=
  if negb (str_truthy (api_key svc)) then ret None
  else
    readable <- on_disk image_path ;;
    if negb readable then ret None
    else
      let rq := mkRequest vision_system_prompt prompt 4000 (Some image_path) in
      emit (EvVision image_path) ;;;
      lift (call_loop (http_post E rq) 0 max_retries).

Definition default_image_prompt : string :=
  "Please analyze this image. Extract any visible text, describe the content, and identify any action items or tasks that might be present.".

(** [analyze_image(image_path, prompt)] *)
Definition analyze_image (E : Env) (svc : service) (image_path prompt : string)
  : M (option string) :=
  present <- on_disk image_path ;;
  if negb (str_truthy image_path) || negb present then ret None
  else
    let prompt := if str_truthy prompt then prompt else default_image_prompt in
    try_except (_call_api_with_image E svc image_path prompt) Exception
      (fun _ => ret None).

Definition clean_system_prompt : string :=
  "You are an expert document processor. Your task is to extract and format text from documents that may have been processed by OCR or other text extraction methods. Clean up any errors, preserve the original formatting where possible, and ensure the output is clear and readable. Format tables, lists, and other structures properly. This is NOT a summary - provide the full extracted text in a clean format.".

(** [clean_extraction(text)] *)
Definition clean_extraction (E : Env) (svc : service) (txt : string)
  : M (option string) :=
  if negb (str_truthy txt) then ret None
  else _call_api E svc clean_system_prompt txt 8000.

Definition summarize_system_prompt : string :=
  "You are an expert summarizer. Your task is to create a concise but informative summary of the provided content. Focus on the key points, main arguments, and important details. The summary should be about 2-3 paragraphs.".

(** [summarize_content(text, title)]; no caller passes a source. *)
Definition summarize_content (E : Env) (svc : service) (txt : option string)
  (title : option string) : M (option string) :=
  match txt with
  | None => ret None
  | Some txt =>
      if negb (str_truthy txt) then ret None
      else
        let context :=
          match title with
          | Some t => if str_truthy t
                      then "the document titled '" ++ t ++ "'"
                      else "a document"
          | None => "a document"
          end in
        _call_api E svc summarize_system_prompt
          ("Please summarize the following content from " ++ context ++ ":"
           ++ NL ++ NL ++ slice_to 10000 txt)
          4000
  end.

(** The pattern [\[\s*".*"\s*\]] searched with [re.DOTALL]. *)
Definition json_array_pattern : regex :=
  Seq (Lit "[") (Seq (Star true ws) (Seq (Lit DQ) (Seq (Star true any_char)
    (Seq (Lit DQ) (Seq (Star true ws) (Lit "]")))))).

(** The part common to [extract_tasks] and [extract_tags]: what is made of
    the reply of the model. *)
Definition parse_array_reply (E : Env) (response : option string)
  : result value :=
  match response with
  | None => Ret (VList [])
  | Some response =>
      if negb (str_truthy response) then Ret (VList [])
      else
        let attempt :=
          match search json_array_pattern response with
          | Some m => json_loads E (group0 m)
          | None => json_loads E response
          end in
        match attempt with
        | Ret v => Ret v
        | Raise e =>
            if isinstance e JSONDecodeError || isinstance e ValueError
            then Ret (VList [])
            else Raise e
        end
  end.

Definition tasks_system_prompt : string :=
  "You are an expert assistant that helps identify action items and tasks from documents. Your job is to extract any explicit or implied tasks, to-dos, or action items from the provided text. Return the tasks as a JSON array of strings.".

Definition tasks_user_prompt (txt : string) : string :=
  "Please extract any tasks, to-dos, or action items from the following text. Return ONLY a JSON array of strings, with each string being a separate task:"
  ++ NL ++ NL ++ slice_to 10000 txt.

(** [extract_tasks(text)] *)
Definition extract_tasks (E : Env) (svc : service) (txt : option string)
  : M value :=
  match txt with
  | None => ret (VList [])
  | Some txt =>
      if negb (str_truthy txt) then ret (VList [])
      else
        response <- _call_api E svc tasks_system_prompt
                      (tasks_user_prompt txt) 4000 ;;
        lift (parse_array_reply E response)
  end.

Definition tags_system_prompt : string :=
  "You are an expert at categorizing and tagging content. Your task is to extract or generate relevant tags for the provided text. These tags should capture the main topics, themes, and categories of the content. Return the tags as a JSON array of strings.".

Definition tags_user_prompt (txt : string) : string :=
  "Please identify relevant tags for the following content. Extract existing hashtags and generate additional appropriate tags. Return ONLY a JSON array of strings (without the # symbol):"
  ++ NL ++ NL ++ slice_to 10000 txt.

(** [extract_tags(text)] *)
Definition extract_tags (E : Env) (svc : service) (txt : option string)
  : M value :=
  match txt with
  | None => ret (VList [])
  | Some txt =>
      if negb (str_truthy txt) then ret (VList [])
      else
        response <- _call_api E svc tags_system_prompt
                      (tags_user_prompt txt) 4000 ;;
        lift (parse_array_reply E response)
  end.

(** One entry of [contents_with_metadata], the dict the digest generator
    builds per content row. *)
Record content_dict : Type := mkContentDict {
  cd_content_id : Z;
  cd_file_id : Z;
  cd_content_type : string;
  cd_content_text : option string;
  cd_processed_text : option string;
  cd_date_processed : string;
  cd_file_type : string;
  cd_file_path : string;
  cd_tags : list string
}.

(** The line of the weekly prompt for document [i]; a NULL text cannot be
    sliced. *)
Definition content_summary (i : nat) (c : content_dict) : result string :=
  match cd_content_text c with
  | None => Raise (mkExn TypeError "'NoneType' object is not subscriptable")
  | Some t =>
      Ret ("Document " ++ str_of_nat i ++ ": " ++ basename (cd_file_path c)
           ++ " (" ++ cd_file_type c ++ "/" ++ cd_content_type c ++ ")" ++ NL
           ++ "Excerpt: " ++ slice_to 200 t ++ "..." ++ NL)
  end.

Fixpoint content_summaries (l : list (nat * content_dict))
  : result (list string) :=
  match l with
  | [] => Ret []
  | (i, c) :: r =>
      match content_summary i c with
      | Raise e => Raise e
      | Ret line => match content_summaries r with
                    | Raise e => Raise e
                    | Ret lines => Ret (line :: lines)
                    end
      end
  end.

(** [generate_weekly_digest(contents, start_date, end_date)] *)
Definition generate_weekly_digest (E : Env) (svc : service)
  (contents : list content_dict) (start_date end_date : string)
  : M (option string) :=
  match contents with
  | [] => ret None
  | _ :: _ =>
      start_dt <- lift (fromisoformat E start_date) ;;
      end_dt <- lift (fromisoformat E end_date) ;;
      let start_str := strftime_B_d_Y start_dt in
      let end_str := strftime_B_d_Y end_dt in
      lines <- lift (content_summaries (enumerate 1 contents)) ;;
      let all_summaries := join NL lines in
      _call_api E svc
        ("You are an expert content analyst and summarizer. Your task is to create a comprehensive weekly digest of various documents and notes from "
         ++ start_str ++ " to " ++ end_str
         ++ ". The digest should include:" ++ NL
         ++ "1. A high-level summary of the week's content" ++ NL
         ++ "2. Key themes and topics" ++ NL
         ++ "3. Important tasks or action items identified" ++ NL
         ++ "4. Notable insights or learnings" ++ NL
         ++ "5. Connections between different pieces of content")
        ("Please create a weekly digest for the following content collected from "
         ++ start_str ++ " to " ++ end_str
         ++ ". Format the digest with clear headings and sections:"
         ++ NL ++ NL ++ all_summaries)
        8000
  end.

(** What [analyze_trends] may be handed: a row of the digests table as
    [sqlite3] returns it (a tuple), or a mapping with text entries. *)
Inductive digest_arg : Type :=
| DigestRow (r : DB.digest_row)
| DigestDict (start_date end_date : option string) (body : string).

(** The text of one digest in the trend prompt; [digest.get] does not exist
    on a tuple. *)
Definition digest_text (E : Env) (i : nat) (d : digest_arg) : result string :=
  match d with
  | DigestRow _ =>
      Raise (mkExn AttributeError "'tuple' object has no attribute 'get'")
  | DigestDict start_date end_date body =>
      let dated :=
        match start_date, end_date with
        | Some a, Some b =>
            if str_truthy a && str_truthy b then
              match fromisoformat E a, fromisoformat E b with
              | Ret da, Ret db =>
                  Ret (" (" ++ strftime_B_d da ++ " - " ++ strftime_B_d_Y db
                       ++ ")")
              | Raise e, _ => Raise e
              | _, Raise e => Raise e
              end
            else Ret ""
        | _, _ => Ret ""
        end in
      match dated with
      | Raise e => Raise e
      | Ret date_range =>
          Ret ("Digest " ++ str_of_nat i ++ date_range ++ ":" ++ NL
               ++ slice_to 1000 body ++ "..." ++ NL)
      end
  end.

Fixpoint digest_texts (E : Env) (l : list (nat * digest_arg))
  : result (list string) :=
  match l with
  | [] => Ret []
  | (i, d) :: r =>
      match digest_text E i d with
      | Raise e => Raise e
      | Ret t => match digest_texts E r with
                 | Raise e => Raise e
                 | Ret ts => Ret (t :: ts)
                 end
      end
  end.

(** [l[-n:]] *)
Definition last_n {A : Type} (n : nat) (l : list A) : list A :=
  skipn (List.length l - n) l.

(** [analyze_trends(digests)] with the default of four weeks. *)
Definition analyze_trends (E : Env) (svc : service) (digest_list : list digest_arg)
  : M (option string) :=
  if (List.length digest_list <? 2)%nat then ret None
  else
    texts <- lift (digest_texts E (enumerate 1 (last_n 4 digest_list))) ;;
    _call_api E svc
      "You are an expert trend analyst. Your task is to analyze multiple weekly digests and identify trends, patterns, and developments over time. Focus on recurring themes, evolving topics, and changes in priorities or interests."
      ("Please analyze the following " ++ str_of_nat (List.length texts)
       ++ " weekly digests and provide a trend report that identifies patterns, developments, and shifts in focus over time:"
       ++ NL ++ NL ++ join NL texts)
      4000.

End LLMService.

(** ** The extractors: [file_processors.py] *)

Module FileProcessors.
Import Text Re Effects.
Local Open Scope monad_scope.

(** The dict a processor returns. [tags] and [tasks] are Python objects:
    the LLM path hands back whatever the reply decoded to. *)
Record extraction : Type := mkExtraction {
  raw_text : string;
  processed_text : option string;
  tags : value;
  tasks : value;
  metadata : option DB.metadata    (* [None]: the key is absent *)
}.

Definition str_list (l : list string) : value := VList (map VStr l).

(** *** BaseProcessor *)

(** The pattern [#(\w+)]. *)
Definition hashtag_pattern : regex := Seq (Lit "#") (Group 1 (Plus true word)).

(** [_extract_tags(text)] *)
Definition _extract_tags (txt : string) : list string :=
  if negb (str_truthy txt) then [] else findall hashtag_pattern txt.

Definition markers : list string := ["- [ ]"; "* [ ]"; "[] "; "TODO:"; "TASK:"].

(** The inner loop over the markers: the first marker the line starts with
    decides. *)
Fixpoint task_of_line (line : string) (ms : list string) : list string :=
  match ms with
  | [] => []
  | m :: rest =>
      if startswith line m
      then [strip (slice_from (Z.of_nat (String.length m)) line)]
      else task_of_line line rest
  end.

(** [_extract_tasks(text)] *)
Definition _extract_tasks (txt : string) : list string :=
  if negb (str_truthy txt) then []
  else flat_map (fun line => task_of_line (strip line) markers)
         (split_on NL txt).

(** [BaseProcessor.process] *)
Definition base_process (file_path : string) : M (option extraction) :=
  raise (mkExn NotImplementedError "Subclasses must implement process()").

(** OCR of the image at [path]. *)
Definition ocr (E : Env) (path : string) : M string :=
  emit (EvOcr path) ;;; lift (image_to_string E path).

(** *** ImageProcessor.process *)
Definition image_process (E : Env) (file_path : string) : M (option extraction) :=
  try_except
    (extracted_text <- ocr E file_path ;;
     ret (Some (mkExtraction extracted_text None
                  (str_list (_extract_tags extracted_text))
                  (str_list (_extract_tasks extracted_text)) None)))
    Exception (fun _ => ret None).

(** *** DocumentProcessor.process *)
Definition document_process (E : Env) (file_path : string)
  : M (option extraction) :=
  try_except
    (extracted_text <- lift (read_text E file_path) ;;
     ret (Some (mkExtraction extracted_text None
                  (str_list (_extract_tags extracted_text))
                  (str_list (_extract_tasks extracted_text)) None)))
    Exception (fun _ => ret None).

(** The whitespace clean-up shared by the web clip and the URL paths:
    strip every line, cut it at double spaces, strip the pieces, keep the
    non-empty ones, one per line. *)
Definition clean_whitespace (txt : string) : string :=
  let lines := map strip (splitlines txt) in
  let chunks := flat_map (fun line => map strip (split_on "  " line)) lines in
  join NL (filter str_truthy chunks).

Definition meta_text (o : option string) : DB.meta_value :=
  match o with Some t => DB.MStr t | None => DB.MNone end.

(** *** WebClipProcessor.process *)
Definition webclip_process (E : Env) (file_path : string)
  : M (option extraction) :=
  try_except
    (html_content <- lift (read_text E file_path) ;;
     let extracted_text := clean_whitespace (soup_text E html_content) in
     let meta_title :=
       match soup_title E html_content with
       | Some t => [("title", meta_text t)]
       | None => []
       end in
     let meta_url :=
       match soup_canonical E html_content with
       | Some href => [("source_url", meta_text href)]
       | None => []
       end in
     ret (Some (mkExtraction extracted_text None
                  (str_list (_extract_tags extracted_text))
                  (str_list (_extract_tasks extracted_text))
                  (Some (meta_title ++ meta_url)%list))))
    Exception (fun _ => ret None).

(** The pattern [URL=(.+)]. *)
Definition url_pattern : regex := Seq (Lit "URL=") (Group 1 (Plus true dot)).

(** The URL a shortcut file holds, by its format. *)
Definition shortcut_url (E : Env) (file_path file_content : string)
  : result (option string) :=
  if endswith file_path ".url" then
    Ret (option_map (group 1) (search url_pattern file_content))
  else if endswith file_path ".webloc" then
    if contains file_content "<?xml" then xml_string E file_content
    else Ret (Some (strip file_content))
  else Ret (Some (strip file_content)).

(** *** URLProcessor.process *)
Definition url_process (E : Env) (file_path : string) : M (option extraction) :=
  try_except
    (file_content <- lift (read_text E file_path) ;;
     url <- lift (shortcut_url E file_path file_content) ;;
     match url with
     | None => ret None
     | Some url =>
         if negb (str_truthy url) then ret None
         else
           response <- lift (requests_get E url) ;;
           let extracted_text := clean_whitespace (soup_text E (fst response)) in
           let meta :=
             [("url", DB.MStr url);
              ("title", match soup_title E (fst response) with
                        | Some t => meta_text t
                        | None => DB.MNone
                        end);
              ("fetch_date", meta_text (snd response))] in
           original_content <- lift (read_text E file_path) ;;
           ret (Some (mkExtraction extracted_text None
                        (str_list (_extract_tags original_content))
                        (str_list (_extract_tasks original_content))
                        (Some meta)))
     end)
    Exception (fun _ => ret None).

(** [str(v)] as an f-string prints it; floats and containers are printed
    by the interpreter ([repr]). *)
Definition str_value (E : Env) (v : value) : string :=
  match v with
  | VStr t => t
  | VInt n => str_of_Z n
  | VNone => "None"
  | VBool true => "True"
  | VBool false => "False"
  | _ => repr E v
  end.

(** The loop over the messages: only dicts contribute, as
    [role: content] followed by a blank line. *)
Fixpoint chat_lines (E : Env) (msgs : list value) (acc : string) : string :=
  match msgs with
  | [] => acc
  | msg :: rest =>
      match msg with
      | VDict d =>
          chat_lines E rest
            (acc ++ str_value E (dict_get d "role" (VStr "")) ++ ": "
             ++ str_value E (dict_get d "content" (VStr "")) ++ NL ++ NL)
      | _ => chat_lines E rest acc
      end
  end.

(** The text taken from decoded chat data. *)
Definition chat_text (E : Env) (chat_data : value) : result string :=
  match chat_data with
  | VList msgs => Ret (chat_lines E msgs "")
  | VDict d =>
      let messages := dict_get d "messages" (VList []) in
      if truthy messages then
        match iterate messages with
        | Ret msgs => Ret (chat_lines E msgs "")
        | Raise e => Raise e
        end
      else Ret ""
  | _ => Ret ""
  end.

(** *** AIChatProcessor.process *)
Definition aichat_process (E : Env) (file_path : string)
  : M (option extraction) :=
  try_except
    (chat_content <- lift (read_text E file_path) ;;
     extracted_text <-
       try_except
         (chat_data <- lift (json_loads E chat_content) ;;
          lift (chat_text E chat_data))
         JSONDecodeError (fun _ => ret chat_content) ;;
     ret (Some (mkExtraction extracted_text None
                  (str_list (_extract_tags extracted_text))
                  (str_list (_extract_tasks extracted_text)) None)))
    Exception (fun _ => ret None).

End FileProcessors.

(** ** The PDF recovery pipeline: [PDFProcessor.process] *)

Module PDFProcessor.
Import Text Re Effects FileProcessors.
Local Open Scope monad_scope.

(** The local variables of [process] that are assigned inside a [try]
    block and read after it, together with the world. An exception leaves
    them as they were when it was raised. *)
Record frame : Type := mkFrame {
  l_extracted_text : string;
  l_images_extracted : bool;
  l_temp_images : list string;
  l_ocr_text : string;
  l_page_images : list string;
  l_combined_text : string;
  l_images : option nat;           (* bound once [convert_from_path] returned *)
  l_raw_text : option string;      (* bound or not: ['raw_text' in locals()] *)
  l_processed_text : option string;
  l_tasks : value;
  l_tags : value;
  world : World
}.

Definition F : Type -> Type := ST frame.

Definition initial (w : World) : frame :=
  mkFrame "" false [] "" [] "" None None None (VList []) (VList []) w.

Definition set_extracted_text (v : string) (f : frame) : frame :=
  mkFrame v (l_images_extracted f) (l_temp_images f) (l_ocr_text f)
    (l_page_images f) (l_combined_text f) (l_images f) (l_raw_text f)
    (l_processed_text f) (l_tasks f) (l_tags f) (world f).

Definition set_images_extracted (v : bool) (f : frame) : frame :=
  mkFrame (l_extracted_text f) v (l_temp_images f) (l_ocr_text f)
    (l_page_images f) (l_combined_text f) (l_images f) (l_raw_text f)
    (l_processed_text f) (l_tasks f) (l_tags f) (world f).

Definition set_temp_images (v : list string) (f : frame) : frame :=
  mkFrame (l_extracted_text f) (l_images_extracted f) v (l_ocr_text f)
    (l_page_images f) (l_combined_text f) (l_images f) (l_raw_text f)
    (l_processed_text f) (l_tasks f) (l_tags f) (world f).

Definition set_ocr_text (v : string) (f : frame) : frame :=
  mkFrame (l_extracted_text f) (l_images_extracted f) (l_temp_images f) v
    (l_page_images f) (l_combined_text f) (l_images f) (l_raw_text f)
    (l_processed_text f) (l_tasks f) (l_tags f) (world f).

Definition set_page_images (v : list string) (f : frame) : frame :=
  mkFrame (l_extracted_text f) (l_images_extracted f) (l_temp_images f)
    (l_ocr_text f) v (l_combined_text f) (l_images f) (l_raw_text f)
    (l_processed_text f) (l_tasks f) (l_tags f) (world f).

Definition set_combined_text (v : string) (f : frame) : frame :=
  mkFrame (l_extracted_text f) (l_images_extracted f) (l_temp_images f)
    (l_ocr_text f) (l_page_images f) v (l_images f) (l_raw_text f)
    (l_processed_text f) (l_tasks f) (l_tags f) (world f).

Definition set_images (v : option nat) (f : frame) : frame :=
  mkFrame (l_extracted_text f) (l_images_extracted f) (l_temp_images f)
    (l_ocr_text f) (l_page_images f) (l_combined_text f) v (l_raw_text f)
    (l_processed_text f) (l_tasks f) (l_tags f) (world f).

Definition set_raw_text (v : option string) (f : frame) : frame :=
  mkFrame (l_extracted_text f) (l_images_extracted f) (l_temp_images f)
    (l_ocr_text f) (l_page_images f) (l_combined_text f) (l_images f) v
    (l_processed_text f) (l_tasks f) (l_tags f) (world f).

Definition set_processed_text (v : option string) (f : frame) : frame :=
  mkFrame (l_extracted_text f) (l_images_extracted f) (l_temp_images f)
    (l_ocr_text f) (l_page_images f) (l_combined_text f) (l_images f)
    (l_raw_text f) v (l_tasks f) (l_tags f) (world f).

Definition set_tasks (v : value) (f : frame) : frame :=
  mkFrame (l_extracted_text f) (l_images_extracted f) (l_temp_images f)
    (l_ocr_text f) (l_page_images f) (l_combined_text f) (l_images f)
    (l_raw_text f) (l_processed_text f) v (l_tags f) (world f).

Definition set_tags (v : value) (f : frame) : frame :=
  mkFrame (l_extracted_text f) (l_images_extracted f) (l_temp_images f)
    (l_ocr_text f) (l_page_images f) (l_combined_text f) (l_images f)
    (l_raw_text f) (l_processed_text f) (l_tasks f) v (world f).

Definition set_world (v : World) (f : frame) : frame :=
  mkFrame (l_extracted_text f) (l_images_extracted f) (l_temp_images f)
    (l_ocr_text f) (l_page_images f) (l_combined_text f) (l_images f)
    (l_raw_text f) (l_processed_text f) (l_tasks f) (l_tags f) v.

(** A computation on the world, run inside the frame. *)
Definition in_world {A : Type} (m : M A) : F A :=
  fun f => let (r, w') := m (world f) in (r, set_world w' f).

(** Step 1: the text layer, page by page. Returns the page count. *)
Definition direct_extraction (E : Env) (file_path : string) : F nat :=
  pages <- lift (pdf_pages E file_path) ;;
  for_each pages
    (fun page =>
       page_text <- lift page ;;
       match page_text with
       | Some t =>
           when (str_truthy t)
             (modify (fun f =>
                        set_extracted_text (l_extracted_text f ++ t ++ NL ++ NL)
                          f))
       | None => ret tt
       end) ;;;
  ret (List.length pages).

(** [len(extracted_text.split())] *)
Definition word_count (txt : string) : nat := List.length (split_words txt).

(** [words_per_page < 20], where [words_per_page] is the float quotient of
    the word count by [max(1, pages)]: the quotient of two integers is
    below 20 exactly when the numerator is below 20 times the
    denominator. *)
Definition might_be_handwritten (words pages : nat) : bool :=
  (words <? 20 * Nat.max 1 pages)%nat.

Definition page_file (temp_dir : string) (i : nat) : string :=
  path_join temp_dir ("page_" ++ str_of_nat (i + 1) ++ ".png").

(** The body shared by the two loops that write page images. *)
Definition keep_page_image (image_path : string) : F unit :=
  in_world (create_image image_path) ;;;
  modify (fun f => set_page_images (l_page_images f ++ [image_path]) f) ;;;
  modify (fun f => set_temp_images (l_temp_images f ++ [image_path]) f).

(** The PyMuPDF branch. A page whose rendering or saving raises leaves no
    file behind. *)
Definition render_with_fitz (E : Env) (file_path : string) : F unit :=
  try_except
    (match import_fitz E with
     | Some e => raise e
     | None => ret tt
     end ;;;
     in_world (emit (EvFitzOpen file_path)) ;;;
     doc <- lift (fitz_open E file_path) ;;
     temp_dir <- lift (mkdtemp E) ;;
     modify (set_page_images []) ;;;
     for_each (enumerate 0 doc)
       (fun ip =>
          match snd ip with
          | Some e => raise e
          | None => keep_page_image (page_file temp_dir (fst ip))
          end) ;;;
     modify (set_images_extracted true))
    ImportError (fun e => raise e).

(** [convert_from_path] and the handling of its failure. *)
Definition render_pages (E : Env) (file_path : string) : F unit :=
  try_except
    (in_world (emit (EvConvertFromPath file_path)) ;;;
     n <- lift (convert_from_path E file_path) ;;
     modify (set_images (Some n)) ;;;
     modify (set_images_extracted true))
    Exception
    (fun poppler_err =>
       if contains (lower (exn_msg poppler_err)) "poppler"
       then render_with_fitz E file_path
       else raise poppler_err).

(** The block guarded by
    [if not images_extracted and 'images' in locals()]. *)
Definition save_pdf2image_pages (E : Env) : F unit :=
  extracted <- gets l_images_extracted ;;
  imgs <- gets l_images ;;
  match imgs with
  | Some n =>
      when (negb extracted)
        (temp_dir <- lift (mkdtemp E) ;;
         modify (set_page_images []) ;;;
         for_each (seq 0 n)
           (fun i =>
              let image_path := page_file temp_dir i in
              match write_error E image_path with
              | Some e => raise e
              | None => keep_page_image image_path
              end) ;;;
         modify (set_images_extracted true))
  | None => ret tt
  end.

Definition vision_prompt (i : nat) (file_path : string) : string :=
  "This is page " ++ str_of_nat (i + 1) ++ " of a PDF document named '"
  ++ basename file_path
  ++ "'. Please extract ALL text visible in this image with perfect accuracy. Preserve the exact formatting, layout, and structure. If there are any tables, forms, or special formatting, maintain it as much as possible. Also identify any tasks, dates, or important information present.".

(** The OCR step for page [i]. *)
Definition ocr_page (E : Env) (i : nat) (img_path : string) : F unit :=
  try_except
    (ocr_result <- in_world (ocr E img_path) ;;
     when (str_truthy ocr_result && (50 <? String.length ocr_result)%nat)
       (modify (fun f =>
                  set_combined_text
                    (l_combined_text f ++ "Page " ++ str_of_nat (i + 1) ++ ":"
                     ++ NL ++ ocr_result ++ NL ++ NL) f) ;;;
        modify (fun f => set_ocr_text (l_ocr_text f ++ ocr_result ++ NL ++ NL) f)))
    Exception (fun _ => ret tt).

(** The vision step for page [i]. *)
Definition vision_page (E : Env) (svc : LLMService.service) (file_path : string)
  (i : nat) (img_path : string) : F unit :=
  try_except
    (image_analysis <-
       in_world (LLMService.analyze_image E svc img_path
                   (vision_prompt i file_path)) ;;
     match image_analysis with
     | Some a =>
         when (str_truthy a)
           (modify (fun f =>
                      set_combined_text
                        (l_combined_text f ++ "Page " ++ str_of_nat (i + 1)
                         ++ " (analyzed by Claude):" ++ NL ++ a ++ NL ++ NL) f))
     | None => ret tt
     end)
    Exception (fun _ => ret tt).

(** Steps 3 to 5: render the pages, then OCR and vision on each image. *)
Definition image_fallback (E : Env) (svc : LLMService.service)
  (file_path : string) : F unit :=
  try_except
    (try_except
       (match import_pdf2image E with
        | Some e => raise e
        | None => ret tt
        end ;;;
        modify (set_page_images []) ;;;
        render_pages E file_path ;;;
        save_pdf2image_pages E ;;;
        modify (set_combined_text "") ;;;
        imgs <- gets l_page_images ;;
        for_each (enumerate 0 imgs)
          (fun ip =>
             ocr_page E (fst ip) (snd ip) ;;;
             vision_page E svc file_path (fst ip) (snd ip)) ;;;
        combined <- gets l_combined_text ;;
        when (str_truthy combined) (modify (set_extracted_text combined)))
       ImportError (fun _ => ret tt))
    Exception (fun _ => ret tt).

(** [processed_text[:100]] in the log line: [None] has no slice. *)
Definition logged_slice (p : option string) : F unit :=
  match p with
  | Some _ => ret tt
  | None => raise (mkExn TypeError "'NoneType' object is not subscriptable")
  end.

(** [a or b or c] on two texts and an optional one. *)
Definition first_truthy (a b : string) (c : option string) : option string :=
  if str_truthy a then Some a else if str_truthy b then Some b else c.

(** The text handed to the model: the page-structured text if OCR text
    exists as well, both texts under labels, or whichever exists. *)
Definition full_text_of (extracted ocr_txt : string) : string :=
  if str_truthy ocr_txt && str_truthy extracted && contains extracted "Page"
  then extracted
  else if str_truthy ocr_txt && str_truthy extracted
  then "Text extracted directly from PDF:" ++ NL ++ extracted ++ NL ++ NL
       ++ "Text extracted via OCR:" ++ NL ++ ocr_txt
  else if str_truthy extracted then extracted else ocr_txt.

(** The branch taken with an LLM service. *)
Definition llm_processing (E : Env) (svc : LLMService.service)
  (file_path : string) : F unit :=
  let name := basename file_path in
  try_except
    (extracted <- gets l_extracted_text ;;
     ocr_txt <- gets l_ocr_text ;;
     (if negb (str_truthy extracted) && negb (str_truthy ocr_txt) then
        let prompt :=
          "This PDF file '" ++ name
          ++ "' appears to be image-based or contain handwritten content that couldn't be extracted by standard PDF text extraction. The file appears to be from "
          ++ hd "" (split_on "." name)
          ++ ". Please describe what this file is likely to contain based on its filename." in
        p <- in_world (LLMService.summarize_content E svc (Some prompt)
                         (Some name)) ;;
        modify (set_processed_text p) ;;;
        logged_slice p
      else
        let full_text := full_text_of extracted ocr_txt in
        let extraction_prompt :=
          "Here is the content extracted from the PDF file '" ++ name
          ++ "'. Please format this content clearly and readably, preserving the key information:"
          ++ NL ++ NL ++ full_text in
        raw_extraction <-
          in_world (LLMService.clean_extraction E svc extraction_prompt) ;;
        match raw_extraction with
        | Some cleaned =>
            if str_truthy cleaned then
              modify (set_raw_text (Some cleaned)) ;;;
              p <- in_world (LLMService.summarize_content E svc (Some cleaned)
                               (Some name)) ;;
              modify (set_processed_text p) ;;;
              logged_slice p
            else
              p <- in_world (LLMService.summarize_content E svc
                               (Some full_text) (Some name)) ;;
              modify (set_processed_text p) ;;;
              logged_slice p
        | None =>
            p <- in_world (LLMService.summarize_content E svc (Some full_text)
                             (Some name)) ;;
            modify (set_processed_text p) ;;;
            logged_slice p
        end) ;;;
     processed <- gets l_processed_text ;;
     let task_source := first_truthy extracted ocr_txt processed in
     found_tasks <- in_world (LLMService.extract_tasks E svc task_source) ;;
     modify (set_tasks found_tasks) ;;;
     found_tags <- in_world (LLMService.extract_tags E svc task_source) ;;
     modify (set_tags found_tags))
    Exception
    (fun llm_error =>
       extracted <- gets l_extracted_text ;;
       modify (set_processed_text
                 (Some ("LLM processing failed: " ++ exn_msg llm_error
                        ++ ". PDF contains "
                        ++ (if str_truthy extracted then "text content"
                            else "no extractable text and may be image-based")))) ;;;
       modify (set_tasks (VList [])) ;;;
       modify (set_tags (str_list ["pdf"; "scan"]))).

(** The branch taken without an LLM service. *)
Definition basic_extraction : F unit :=
  extracted <- gets l_extracted_text ;;
  modify (set_tasks (str_list (_extract_tasks extracted))) ;;;
  let found := _extract_tags extracted in
  modify (set_tags
            (match found with
             | [] => if str_truthy extracted then str_list []
                     else str_list ["pdf"; "scan"]
             | _ => str_list found
             end)).

(** The clean-up loop over [temp_images]. *)
Definition cleanup (E : Env) : F unit :=
  imgs <- gets l_temp_images ;;
  for_each imgs
    (fun img_path =>
       try_except
         (present <- in_world (on_disk img_path) ;;
          when present (in_world (remove E img_path)))
         Exception (fun _ => ret tt)).

(** The raw text returned when the LLM branch did not bind it. *)
Definition fallback_raw_text (extracted ocr_txt : string) : string :=
  let r := extracted in
  let r := if negb (str_truthy r) && str_truthy ocr_txt
           then "Text extracted via OCR:" ++ NL ++ ocr_txt else r in
  if negb (str_truthy r)
  then "No text could be extracted - may be image-based PDF" else r.

(** The body of the outer [try]. *)
Definition process_body (E : Env) (llm : option LLMService.service)
  (file_path : string) : F extraction :=
  pages <- direct_extraction E file_path ;;
  extracted <- gets l_extracted_text ;;
  let words := word_count extracted in
  let handwritten := might_be_handwritten words pages in
  match llm with
  | Some svc =>
      when (negb (str_truthy extracted) || handwritten)
        (image_fallback E svc file_path)
  | None => ret tt
  end ;;;
  match llm with
  | Some svc => llm_processing E svc file_path
  | None => basic_extraction
  end ;;;
  cleanup E ;;;
  f <- gets (fun f => f) ;;
  let raw :=
    match l_raw_text f with
    | Some r => r
    | None => fallback_raw_text (l_extracted_text f) (l_ocr_text f)
    end in
  ret (mkExtraction raw (l_processed_text f) (l_tags f) (l_tasks f)
         (Some [("pages", DB.MInt (Z.of_nat pages));
                ("might_be_handwritten", DB.MBool handwritten);
                ("words_per_page",
                 DB.MRatio (Z.of_nat words) (Z.of_nat (Nat.max 1 pages)));
                ("ocr_attempted", DB.MBool (l_images_extracted f));
                ("ocr_success", DB.MBool (str_truthy (l_ocr_text f)));
                ("filename", DB.MStr (basename file_path))])).

(** The result of the outer [except] branch. *)
Definition error_result (file_path : string) (e : exn) : extraction :=
  mkExtraction ("Error processing PDF: " ++ exn_msg e)
    (Some ("This PDF could not be processed due to an error: " ++ exn_msg e))
    (str_list ["error"; "pdf"]) (VList [])
    (Some [("error", DB.MStr (exn_msg e));
           ("filename", DB.MStr (basename file_path))]).

(** [PDFProcessor.process], with the final values of its locals. *)
Definition run (E : Env) (llm : option LLMService.service)
  (file_path : string) (w : World) : result extraction * frame :=
  try_except (process_body E llm file_path) Exception
    (fun e => ret (error_result file_path e)) (initial w).

Definition process (E : Env) (llm : option LLMService.service)
  (file_path : string) : M (option extraction) :=
  fun w => match run E llm file_path w with
           | (Ret x, f) => (Ret (Some x), world f)
           | (Raise e, f) => (Raise e, world f)
           end.

End PDFProcessor.

(** ** The dispatcher: [ProcessorFactory] and [NotesProcessor] *)

Module NotesProcessor.
Import Text Datetime Effects FileProcessors.
Local Open Scope monad_scope.

(** [ProcessorFactory.get_processor(file_type).process]: the table keyed
    by the type name, a [BaseProcessor] for any other name. *)
Definition get_processor (E : Env) (llm : option LLMService.service)
  (file_type : string) : string -> M (option extraction) :=
  if String.eqb file_type "image" then image_process E
  else if String.eqb file_type "pdf" then PDFProcessor.process E llm
  else if String.eqb file_type "document" then document_process E
  else if String.eqb file_type "web_clip" then webclip_process E
  else if String.eqb file_type "url" then url_process E
  else if String.eqb file_type "ai_chat" then aichat_process E
  else base_process.

(** The instance: whether it has a database manager, and its service. *)
Record processor : Type := mkProcessor {
  db_manager : bool;
  llm_service : option LLMService.service
}.

(** The loop [for task_text in result['tasks']]. *)
Definition store_tasks (E : Env) (content_id : Z) (task_list : value) : M unit :=
  items <- lift (iterate task_list) ;;
  for_each items
    (fun task_text =>
       on_db (DB.add_task (float_text E) (isoformat (now E)) content_id
                task_text None) ;;;
       ret tt).

(** What [process_file] does with a result when there is a database. *)
Definition store_result (E : Env) (file_path file_type : string)
  (res : extraction) : M unit :=
  file_hash <- lift (file_md5 E file_path) ;;
  file_id <- on_db (DB.add_file (isoformat (now E)) file_path file_type
                      file_hash (metadata res)) ;;
  match file_id with
  | None => ret tt
  | Some file_id =>
      let raw :=
        if negb (str_truthy (raw_text res)) && String.eqb file_type "pdf"
        then "No text could be extracted - this appears to be an image-based PDF"
        else raw_text res in
      content_id <- on_db (DB.add_content (isoformat (now E)) file_id "text"
                             (Some raw) (processed_text res)) ;;
      match content_id with
      | None => ret tt
      | Some content_id =>
          when (truthy (tags res))
            (set_db (DB.add_tags (float_text E) content_id (tags res))) ;;;
          when (truthy (tasks res)) (store_tasks E content_id (tasks res))
      end
  end.

(** [NotesProcessor.process_file(file_path, file_type)] *)
Definition process_file (E : Env) (self : processor)
  (file_path file_type : string) : M bool :=
  try_except
    (res <- get_processor E (llm_service self) file_type file_path ;;
     match res with
     | Some res =>
         if db_manager self
         then store_result E file_path file_type res ;;; ret true
         else ret false
     | None => ret false
     end)
    Exception (fun _ => ret false).

End NotesProcessor.

(** ** The digest compiler: [digest_generator.py] *)

Module DigestGenerator.
Import Text Re Datetime Effects.
Local Open Scope monad_scope.

Record generator : Type := mkGenerator {
  llm_service : option LLMService.service;
  output_dir : string
}.

(** The dict a digest method returns. *)
Record digest_result : Type := mkDigestResult {
  digest_id : option Z;
  file_path : string;
  content : string
}.

(** The dict a report method returns. *)
Record report : Type := mkReport {
  report_path : string;
  report_content : string
}.

(** [self.llm_service.method(...)]: there is no attribute on [None]. *)
Definition the_service (self : generator) (method : string)
  : M LLMService.service :=
  match llm_service self with
  | Some svc => ret svc
  | None => raise (mkExn AttributeError
                     ("'NoneType' object has no attribute '" ++ method ++ "'"))
  end.

(** The tag counts in order of first occurrence, then sorted by count,
    largest first, ties in that order. *)
Fixpoint count_tag (tag : string) (counts : list (string * nat))
  : list (string * nat) :=
  match counts with
  | [] => [(tag, 1%nat)]
  | (t, n) :: r =>
      if String.eqb t tag then (t, S n) :: r else (t, n) :: count_tag tag r
  end.

Definition sorted_tags (all_tags : list string) : list (string * nat) :=
  DB.sort_by (fun a b => (snd b <=? snd a)%nat)
    (fold_left (fun counts tag => count_tag tag counts) all_tags []).

Definition tag_lines (l : list (string * nat)) : string :=
  String.concat ""
    (map (fun tc => "- #" ++ fst tc ++ " (" ++ str_of_nat (snd tc) ++ ")" ++ NL)
       l).

(** The argument [end_date]: absent, a text, or a [datetime]. *)
Inductive end_arg : Type :=
| EndNone
| EndText (t : string)
| EndDatetime (d : datetime).

(** The dict built for a content row in the weekly digest. *)
Definition weekly_dict (s : DB.store) (item : DB.content_view)
  : LLMService.content_dict :=
  let c := DB.cv_row item in
  let file_info := DB.get_file_by_id (DB.c_file_id c) s in
  LLMService.mkContentDict (DB.c_id c) (DB.c_file_id c) (DB.c_type c)
    (DB.c_text c) (DB.c_processed c) (DB.c_date c)
    (match file_info with Some f => DB.f_type f | None => "unknown" end)
    (match file_info with Some f => DB.f_path f | None => "unknown" end)
    (DB.get_tags_for_content (DB.c_id c) s).

(** [generate_weekly_digest(end_date)] *)
Definition generate_weekly_digest (E : Env) (self : generator)
  (end_date : end_arg) : M (option digest_result) :=
  end_dt <- (match end_date with
             | EndNone => ret (now E)
             | EndText t => if str_truthy t then lift (fromisoformat E t)
                            else ret (now E)
             | EndDatetime d => ret d
             end) ;;
  let start_dt := add_days end_dt (-7) in
  let start_date_str := isoformat start_dt in
  let end_date_str := isoformat end_dt in
  s <- gets db ;;
  let in_period := DB.get_content_for_period start_date_str end_date_str s in
  let content_items :=
    match in_period with
    | [] => DB.get_all_content (Some 50%nat) s
    | _ => in_period
    end in
  match content_items with
  | [] => ret None
  | _ =>
      let contents_with_metadata := map (weekly_dict s) content_items in
      svc <- the_service self "generate_weekly_digest" ;;
      digest_content <-
        LLMService.generate_weekly_digest E svc contents_with_metadata
          start_date_str end_date_str ;;
      match digest_content with
      | None => ret None
      | Some body =>
          if negb (str_truthy body) then ret None
          else
            id <- on_db (DB.save_digest (isoformat (now E)) "weekly" body
                           (Some start_date_str) (Some end_date_str)) ;;
            let file_name :=
              "weekly_digest_" ++ strftime_Y_m_d start_dt ++ "_to_"
              ++ strftime_Y_m_d end_dt ++ ".md" in
            let path := path_join (output_dir self) file_name in
            let ranked :=
              sorted_tags (flat_map LLMService.cd_tags contents_with_metadata)
            in
            let formatted_digest :=
              "# Weekly Digest" ++ NL ++ NL
              ++ "**Period:** " ++ strftime_B_d_Y start_dt ++ " to "
              ++ strftime_B_d_Y end_dt ++ NL ++ NL
              ++ body
              ++ (match ranked with
                  | [] => ""
                  | _ => NL ++ NL ++ "## Top Tags" ++ NL ++ NL
                         ++ tag_lines (firstn 10 ranked)
                  end) in
            write_document E path formatted_digest ;;;
            ret (Some (mkDigestResult id path formatted_digest))
      end
  end.

(** The loop that gathers the weekly digests of the month. Each round
    asks the store for the latest weekly digest. [fuel] bounds the rounds;
    a round moves [current_start] at least one day forward, so the span of
    the month in days, plus one, is never used up
    ([collect_weekly_enough]). *)
Fixpoint collect_weekly (fuel : nat) (s : DB.store)
  (current_start end_date : datetime) (weekly_digests : list DB.digest_row)
  : list DB.digest_row :=
  if gtb current_start end_date then weekly_digests
  else
    match fuel with
    | O => weekly_digests
    | S f =>
        let current_end := add_days current_start 6 in
        let current_end :=
          if gtb current_end end_date then end_date else current_end in
        let weekly_digests :=
          match DB.get_latest_digest "weekly" s with
          | Some digest => (weekly_digests ++ [digest])%list
          | None => weekly_digests
          end in
        collect_weekly f s (add_days current_end 1) end_date weekly_digests
    end.

Definition weeks_fuel (start_date end_date : datetime) : nat :=
  S (Z.to_nat (dt_days end_date - dt_days start_date)).

(** The dict built for a content row in the monthly digest. *)
Definition monthly_dict (s : DB.store) (item : DB.content_view)
  : LLMService.content_dict :=
  let c := DB.cv_row item in
  LLMService.mkContentDict (DB.c_id c) (DB.c_file_id c) (DB.c_type c)
    (DB.c_text c) (DB.c_processed c) (DB.c_date c)
    (match DB.cv_file_type item with Some t => t | None => "" end)
    (match DB.cv_file_path item with Some t => t | None => "" end)
    (DB.get_tags_for_content (DB.c_id c) s).

(** The content types with their counts, in order of first occurrence. *)
Definition type_counts (contents : list LLMService.content_dict)
  : list (string * nat) :=
  fold_left (fun counts c => count_tag (LLMService.cd_content_type c) counts)
    contents [].

(** [generate_monthly_summary(contents, month_name, year)] *)
Definition generate_monthly_summary (E : Env) (self : generator)
  (contents : list LLMService.content_dict) (month_name : string) (year : Z)
  : M string :=
  match contents with
  | [] => ret "No content available for this month."
  | _ =>
      let summary_parts :=
        ("In " ++ month_name ++ " " ++ str_of_Z year
         ++ ", the following content was processed:")
        :: map (fun tc => "- " ++ str_of_nat (snd tc) ++ " " ++ fst tc
                          ++ " items")
             (type_counts contents) in
      let basic := join NL summary_parts in
      match llm_service self with
      | Some svc =>
          llm_summary <- LLMService.summarize_content E svc (Some basic) None ;;
          match llm_summary with
          | Some t => if str_truthy t then ret t else ret basic
          | None => ret basic
          end
      | None => ret basic
      end
  end.

(** [a + b] where [a] may be [None]. *)
Definition concat_optional (a : option string) (b : string) : result string :=
  match a with
  | Some t => Ret (t ++ b)
  | None =>
      Raise (mkExn TypeError
               "unsupported operand type(s) for +: 'NoneType' and 'str'")
  end.

(** [datetime.fromisoformat] of a nullable column. *)
Definition fromisoformat_cell (E : Env) (c : option string) : result datetime :=
  match c with
  | Some t => fromisoformat E t
  | None =>
      Raise (mkExn TypeError "fromisoformat: argument must be str")
  end.

(** The pattern [## Summary\s+(.+?)(?=\n## |$)] with [re.DOTALL]. *)
Definition summary_pattern : regex :=
  Seq (Lit "## Summary") (Seq (Plus true ws) (Seq (Group 1 (Plus false any_char))
    (Look (Alt (Lit (NL ++ "## ")) Eos)))).

(** One entry of the Weekly Highlights. The row is read by position:
    [weekly[3]] is the end_date column, [weekly[4]] the content column and
    [weekly[5]] the created_date column of the digests table. *)
Definition weekly_highlight (E : Env) (i : nat) (weekly : DB.digest_row)
  : result string :=
  match fromisoformat_cell E (DB.d_end weekly) with
  | Raise e => Raise e
  | Ret weekly_start =>
      match fromisoformat E (DB.d_content weekly) with
      | Raise e => Raise e
      | Ret weekly_end =>
          let weekly_content := DB.d_created weekly in
          Ret ("### Week " ++ str_of_nat i ++ ": " ++ strftime_B_d weekly_start
               ++ " - " ++ strftime_B_d weekly_end ++ NL ++ NL
               ++ (match search summary_pattern weekly_content with
                   | Some m => strip (group 1 m)
                   | None => hd "" (split_on (NL ++ NL) weekly_content)
                   end)
               ++ NL ++ NL)
      end
  end.

Fixpoint weekly_highlights (E : Env) (l : list (nat * DB.digest_row))
  : result string :=
  match l with
  | [] => Ret ""
  | (i, weekly) :: r =>
      match weekly_highlight E i weekly with
      | Raise e => Raise e
      | Ret t => match weekly_highlights E r with
                 | Raise e => Raise e
                 | Ret ts => Ret (t ++ ts)
                 end
      end
  end.

Definition insufficient_data : string :=
  "Insufficient data to analyze trends for this month.".

Definition falsy_int (n : option Z) : bool :=
  match n with None => true | Some k => k =? 0 end.

(** [generate_monthly_digest(year, month)] *)
Definition generate_monthly_digest (E : Env) (self : generator)
  (year month : option Z) : M digest_result :=
  let last_month := add_days (first_of_month (now E)) (-1) in
  let use_last_month := falsy_int year || falsy_int month in
  let year :=
    if use_last_month then Datetime.year last_month
    else match year with Some y => y | None => 0 end in
  let month :=
    if use_last_month then Datetime.month last_month
    else match month with Some m => m | None => 0 end in
  start_date <- lift (make year month 1 0 0 0) ;;
  let last_day := days_in_month year month in
  end_date <- lift (make year month last_day 23 59 59) ;;
  let start_date_str := isoformat start_date in
  let end_date_str := isoformat end_date in
  s <- gets db ;;
  let weekly_digests :=
    collect_weekly (weeks_fuel start_date end_date) s start_date end_date [] in
  trend_analysis <-
    (if (1 <? List.length weekly_digests)%nat then
       svc <- the_service self "analyze_trends" ;;
       LLMService.analyze_trends E svc
         (map LLMService.DigestRow weekly_digests)
     else ret (Some insufficient_data)) ;;
  s <- gets db ;;
  let content_items :=
    DB.get_content_for_period start_date_str end_date_str s in
  let contents_with_metadata := map (monthly_dict s) content_items in
  let month_name := Datetime.month_name month in
  monthly_summary <-
    generate_monthly_summary E self contents_with_metadata month_name year ;;
  let month_year_str := month_name ++ " " ++ str_of_Z year in
  let head :=
    "# Monthly Digest: " ++ month_year_str ++ NL ++ NL
    ++ "## Monthly Summary" ++ NL ++ NL ++ monthly_summary ++ NL ++ NL
    ++ "## Trends & Patterns" ++ NL ++ NL in
  trends <- lift (concat_optional trend_analysis (NL ++ NL)) ;;
  highlights <-
    (match weekly_digests with
     | [] => ret ""
     | _ =>
         body <- lift (weekly_highlights E (enumerate 1 weekly_digests)) ;;
         ret ("## Weekly Highlights" ++ NL ++ NL ++ body)
     end) ;;
  let ranked :=
    sorted_tags (flat_map LLMService.cd_tags contents_with_metadata) in
  let digest_content :=
    head ++ trends ++ highlights
    ++ (match ranked with
        | [] => ""
        | _ => "## Top Tags" ++ NL ++ NL ++ tag_lines (firstn 15 ranked)
        end) in
  id <- on_db (DB.save_digest (isoformat (now E)) "monthly" digest_content
                 (Some start_date_str) (Some end_date_str)) ;;
  let file_name :=
    "monthly_digest_" ++ str_of_Z year ++ "_" ++ pad 2 month ++ "_"
    ++ month_name ++ ".md" in
  let path := path_join (output_dir self) file_name in
  write_document E path digest_content ;;;
  ret (mkDigestResult id path digest_content).

(** The text of a nullable column in an f-string. *)
Definition str_cell (c : option string) : string :=
  match c with Some t => t | None => "None" end.

(** The lines of the active tasks, numbered from [i]. *)
Fixpoint active_lines (E : Env) (i : nat) (l : list DB.task_view)
  : result string :=
  match l with
  | [] => Ret ""
  | t :: r =>
      let task_text := str_cell (DB.k_text (DB.tv_task t)) in
      let line :=
        match DB.k_due (DB.tv_task t) with
        | Some due =>
            if str_truthy due then
              match fromisoformat E due with
              | Ret d => Ret (str_of_nat i ++ ". " ++ task_text ++ " (Due: "
                              ++ strftime_B_d_Y d ++ ")" ++ NL)
              | Raise e => Raise e
              end
            else Ret (str_of_nat i ++ ". " ++ task_text ++ NL)
        | None => Ret (str_of_nat i ++ ". " ++ task_text ++ NL)
        end in
      match line with
      | Raise e => Raise e
      | Ret t1 => match active_lines E (S i) r with
                  | Raise e => Raise e
                  | Ret rest => Ret (t1 ++ rest)
                  end
      end
  end.

Definition completed_lines (l : list DB.task_view) : string :=
  String.concat ""
    (map (fun it => str_of_nat (fst it) ++ ". ~~"
                    ++ str_cell (DB.k_text (DB.tv_task (snd it))) ++ "~~" ++ NL)
       (enumerate 1 l)).

Definition is_completed (t : DB.task_view) : bool :=
  negb (DB.k_completed (DB.tv_task t) =? 0).

Definition task_list_header (E : Env) : string :=
  "# Task List" ++ NL ++ NL
  ++ "Generated on: " ++ strftime_B_d_Y (now E) ++ NL ++ NL.

Definition task_list_path (E : Env) (self : generator) : string :=
  path_join (output_dir self)
    ("task_list_" ++ strftime_Y_m_d (now E) ++ ".md").

(** The document written for a non-empty list of task rows. *)
Definition format_task_list (E : Env) (self : generator)
  (include_completed : bool) (rows : list DB.task_view) : M (option report) :=
  let active_tasks := filter (fun t => negb (is_completed t)) rows in
  let completed_tasks := filter is_completed rows in
  active <-
    (match active_tasks with
     | [] => ret ("No active tasks." ++ NL)
     | _ => lift (active_lines E 1 active_tasks)
     end) ;;
  let task_content :=
    task_list_header E ++ "## Active Tasks" ++ NL ++ NL ++ active
    ++ (match completed_tasks with
        | [] => ""
        | _ => if include_completed
               then NL ++ "## Completed Tasks" ++ NL ++ NL
                    ++ completed_lines completed_tasks
               else ""
        end) in
  write_document E (task_list_path E self) task_content ;;;
  ret (Some (mkReport (task_list_path E self) task_content)).

(** [generate_task_list(include_completed)]. When [get_tasks] returns
    nothing the tasks table is queried directly: either the method returns
    from inside the [try] (the empty document, or [None] after an
    exception), or it goes on with the rows of the direct query. *)
Definition generate_task_list (E : Env) (self : generator)
  (include_completed : bool) : M (option report) :=
  s <- gets db ;;
  let found :=
    DB.get_tasks (if include_completed then None else Some false) None None s
  in
  match found with
  | _ :: _ => format_task_list E self include_completed found
  | [] =>
      outcome <-
        try_except
          (match DB.incomplete_tasks s with
           | [] =>
               let task_content :=
                 task_list_header E ++ "## No Tasks Found" ++ NL ++ NL
                 ++ "There are currently no tasks in the system." ++ NL in
               write_document E (task_list_path E self) task_content ;;;
               ret (inl (Some (mkReport (task_list_path E self) task_content)))
           | direct => ret (inr direct)
           end)
          Exception (fun _ => ret (inl None)) ;;
      match outcome with
      | inl returned => ret returned
      | inr direct => format_task_list E self include_completed direct
      end
  end.

End DigestGenerator.

(** ** A concrete environment for the examples

    [Sample.env] fixes every library call: the files that exist, what the
    PDF reader finds in each PDF document (its pages, or an exception for a
    damaged one), what the two renderers and the OCR engine return, and how
    the LLM endpoint answers. The decoder is [Json.loads], the date reader is
    [Datetime.fromisoformat_basic], writing and removing files succeed, and
    the digest of a file is a tag around its content (equal exactly for
    equal contents). No example prints or stores a float, and none contains
    markup, so [repr], [float_text] and the markup readers are trivial. *)

Module Sample.
Import Text Datetime Effects.

Fixpoint lookup {A : Type} (key : string) (l : list (string * A)) : option A :=
  match l with
  | [] => None
  | (k, v) :: r => if String.eqb k key then Some v else lookup key r
  end.

Definition missing (path : string) : exn :=
  mkExn OSError ("[Errno 2] No such file or directory: '" ++ path ++ "'").

Definition clock : datetime := mkDT (days_from_civil 2025 1 15) 36000 0.

Definition env
  (text_files : list (string * string))
  (pdf_files : list (string * result (list (result (option string)))))
  (pdf2image : string -> result nat)
  (fitz : string -> result (list (option exn)))
  (tesseract : string -> result string)
  (post : request -> nat -> post_outcome) : Env :=
  mkEnv clock fromisoformat_basic (fun _ => None) (fun _ => "")
    (fun p => match lookup p text_files with
              | Some t => Ret t
              | None => Raise (missing p)
              end)
    (fun p => match lookup p text_files with
              | Some t => Ret ("md5(" ++ t ++ ")")
              | None => match lookup p pdf_files with
                        | Some _ => Ret ("md5(" ++ p ++ ")")
                        | None => Raise (missing p)
                        end
              end)
    (fun _ => None) (fun _ => None) (Ret "/tmp/pages")
    Json.loads tesseract
    (fun p => match lookup p pdf_files with
              | Some pages => pages
              | None => Raise (missing p)
              end)
    None pdf2image None fitz
    (fun html => html) (fun _ => None) (fun _ => None) (fun _ => Ret None)
    (fun url => Raise (mkExn RequestException ("cannot reach " ++ url)))
    post.

Definition no_renderer (p : string) : result nat :=
  Raise (mkExn Exception "Unable to get page count. Is poppler installed and in PATH?").

Definition no_fitz (p : string) : result (list (option exn)) :=
  Raise (mkExn RuntimeError ("cannot open " ++ p)).

Definition no_ocr (p : string) : result string :=
  Raise (mkExn OSError "tesseract is not installed").

Definition offline (rq : request) (attempt : nat) : post_outcome :=
  Failed (mkExn RequestException "connection refused").

(** An endpoint that gives the same reply to every request. *)
Definition always (reply : string) (rq : request) (attempt : nat)
  : post_outcome := Answered reply.

Definition text_env (text_files : list (string * string))
  (post : request -> nat -> post_outcome) : Env :=
  env text_files [] no_renderer no_fitz no_ocr post.

Definition world0 : World := mkWorld DB.empty [] [] [].

Definition service : LLMService.service := LLMService.mkService "sk-test".

End Sample.

(** * Statements of the claims and the inputs of the examples *)

(** ** Properties of computations *)

Module Hoare.
Import Effects.

(** [m] keeps the property [I] of the state, whether it returns or
    raises. *)
Definition preserves {S A : Type} (I : S -> Prop) (m : ST S A) : Prop :=
  forall s, I s -> I (snd (m s)).

(** [m] returns a value from every state: no exception leaves it. *)
Definition never_raises {S A : Type} (m : ST S A) : Prop :=
  forall s, exists a, fst (m s) = Ret a.


End Hoare.

Module Statements.
Import Text Re Datetime Effects FileProcessors.

(** ** C10: a chat file that decodes to an unexpected shape *)

(** A list all of whose items are objects. *)
Definition message_list (v : value) : bool :=
  match v with
  | VList l => forallb isinstance_dict l
  | _ => false
  end.

(** An object whose [messages] entry is a non-empty list. *)
Definition has_messages_list (v : value) : bool :=
  match v with
  | VDict d => match dict_get d "messages" (VList []) with
               | VList (_ :: _) => true
               | _ => false
               end
  | _ => false
  end.

(** The claim as it is written. *)
Definition C10_as_stated : Prop :=
  forall (E : Env) (file_path chat_content : string) (chat_data : value)
         (w : World),
    read_text E file_path = Ret chat_content ->
    json_loads E chat_content = Ret chat_data ->
    message_list chat_data = false ->
    has_messages_list chat_data = false ->
    exists x, fst (aichat_process E file_path w) = Ret (Some x)
              /\ raw_text x = "".

Definition no_message_object (l : list value) : bool :=
  forallb (fun m => negb (isinstance_dict m)) l.

(** The decoded values for which the loops add nothing: a scalar; a list
    without objects; an object whose [messages] entry is absent or false,
    or is a list, a text or an object in which no item is an object. *)
Definition empty_chat (v : value) : bool :=
  match v with
  | VList l => no_message_object l
  | VDict d =>
      let messages := dict_get d "messages" (VList []) in
      negb (truthy messages)
      || match messages with
         | VList l => no_message_object l
         | VStr _ | VDict _ => true
         | _ => false
         end
  | _ => true
  end.

(** The result for a chat without text. *)
Definition empty_extraction : extraction :=
  mkExtraction "" None (VList []) (VList []) None.

(** The file of the counterexample: an object whose [messages] is 5. *)
Definition chat_file : string := "{" ++ DQ ++ "messages" ++ DQ ++ ": 5}".

Definition chat_env : Env :=
  Sample.text_env [("chat_log.json", chat_file)] Sample.offline.

(** ** C9: replies that hold no array of strings *)

(** The text [extract_tasks] and [extract_tags] hand to [json.loads]: the
    match of the array pattern, or the whole reply without a match. *)
Definition decoder_input (response : string) : string :=
  match search LLMService.json_array_pattern response with
  | Some m => group0 m
  | None => response
  end.

(** The claim as it is written: whenever no array of strings comes out of
    the reply, the result is the empty list. *)
Definition C9_as_stated : Prop :=
  forall (E : Env) (svc : LLMService.service) (txt response : string)
         (w w' : World),
    str_truthy txt = true ->
    (forall l, json_loads E (decoder_input response) <> Ret (str_list l)) ->
    (LLMService._call_api E svc LLMService.tasks_system_prompt
       (LLMService.tasks_user_prompt txt) 4000 w = (Ret (Some response), w') ->
     LLMService.extract_tasks E svc (Some txt) w = (Ret (VList []), w'))
    /\ (LLMService._call_api E svc LLMService.tags_system_prompt
          (LLMService.tags_user_prompt txt) 4000 w = (Ret (Some response), w') ->
        LLMService.extract_tags E svc (Some txt) w = (Ret (VList []), w')).

(** The endpoint of the counterexample replies with the JSON text 42. *)
Definition number_env : Env := Sample.text_env [] (Sample.always "42").


(** ** C7: one SourceFile per content, one Tag per name *)

Definition rows_with_hash (h : string) (s : DB.store) : nat :=
  List.length (filter (fun f => String.eqb (DB.f_hash f) h) (DB.files s)).



(** The UNIQUE constraints of the schema. *)
Definition unique_paths (s : DB.store) : Prop :=
  NoDup (map DB.f_path (DB.files s)).

Definition unique_tag_names (s : DB.store) : Prop :=
  NoDup (map DB.t_name (DB.tags s)).

(** The first half of the claim as it is written: the same hash added
    twice, whatever the paths, leaves one row with that hash. *)
Definition C7_as_stated : Prop :=
  forall (s : DB.store) (now1 now2 p1 p2 t h : string)
         (m : option DB.metadata),
    rows_with_hash h s = 0%nat ->
    rows_with_hash h
      (snd (DB.add_file now2 p2 t h m (snd (DB.add_file now1 p1 t h m s))))
    = 1%nat.



(** ** C6: the order of the task list *)

(** One note with its content record. *)
Definition one_note : DB.store :=
  snd (DB.add_content "2025-01-10T09:00:00" 1 "text" (Some "notes") None
         (snd (DB.add_file "2025-01-10T09:00:00" "notes/todo.txt" "document"
                 "md5(notes)" None DB.empty))).

Definition no_floats (v : value) : option string := None.

(** The task set of the claim, in its order: an open task without a due
    date, an open task due on 2025-01-01, a completed task without a due
    date. *)
Definition claim_tasks : DB.store :=
  DB.update_task_status 3 true
    (snd (DB.add_task no_floats "2025-01-10T09:00:03" 1 (VStr "completed")
            None
    (snd (DB.add_task no_floats "2025-01-10T09:00:02" 1 (VStr "due-dated")
            (Some "2025-01-01")
    (snd (DB.add_task no_floats "2025-01-10T09:00:01" 1 (VStr "no due date")
            None one_note)))))).

(** The same tasks, the due-dated one created first. *)
Definition claim_tasks_swapped : DB.store :=
  DB.update_task_status 3 true
    (snd (DB.add_task no_floats "2025-01-10T09:00:03" 1 (VStr "completed")
            None
    (snd (DB.add_task no_floats "2025-01-10T09:00:02" 1 (VStr "no due date")
            None
    (snd (DB.add_task no_floats "2025-01-10T09:00:01" 1 (VStr "due-dated")
            (Some "2025-01-01") one_note)))))).

Definition task_texts (rows : list DB.task_view) : list (option string) :=
  map (fun r => DB.k_text (DB.tv_task r)) rows.

Definition plain_env : Env := Sample.text_env [] Sample.offline.

Definition generator : DigestGenerator.generator :=
  DigestGenerator.mkGenerator (Some Sample.service) "digests".

Definition with_store (s : DB.store) : World := mkWorld s [] [] [].

(** ** C5: the trend analysis of the monthly digest *)

(** A store whose only digest is one weekly digest of January 2025. *)
Definition one_weekly : DB.store :=
  snd (DB.save_digest "2025-01-08T09:00:00" "weekly"
         ("## Summary" ++ NL ++ NL ++ "A quiet week.")
         (Some "2025-01-01T09:00:00") (Some "2025-01-08T09:00:00") DB.empty).

(** An endpoint that would answer any request. *)
Definition answering_env : Env :=
  Sample.text_env [] (Sample.always "Trend report.").

(** The rows the monthly loop gathers for a month of the year. *)
Definition gathered (s : DB.store) (year month : Z) : list DB.digest_row :=
  match make year month 1 0 0 0,
        make year month (days_in_month year month) 23 59 59 with
  | Ret start_date, Ret end_date =>
      DigestGenerator.collect_weekly
        (DigestGenerator.weeks_fuel start_date end_date) s start_date end_date
        []
  | _, _ => []
  end.

(** ** C4: the weekly digest when the LLM gives no text *)

(** The endpoint never delivers a reply: each attempt fails, answers
    without content, or crashes. *)
Definition never_answers (E : Env) : Prop :=
  forall (rq : request) (attempt : nat) (reply : string),
    http_post E rq attempt <> Answered reply.

(** The claim as it is written: with content in the window and an LLM
    that gives no text, a digest is still returned and saved. *)
Definition C4_as_stated : Prop :=
  forall (E : Env) (self : DigestGenerator.generator)
         (svc : LLMService.service) (w : World),
    DigestGenerator.llm_service self = Some svc ->
    never_answers E ->
    DB.get_content_for_period (isoformat (add_days (now E) (-7)))
      (isoformat (now E)) (db w) <> [] ->
    exists r,
      fst (DigestGenerator.generate_weekly_digest E self
             DigestGenerator.EndNone w) = Ret (Some r)
      /\ DB.digests
           (db (snd (DigestGenerator.generate_weekly_digest E self
                       DigestGenerator.EndNone w))) <> [].

(** A store with one note processed the day before the clock of the
    sample environment. *)
Definition yesterday_note : DB.store :=
  snd (DB.add_content "2025-01-14T10:00:00" 1 "text"
         (Some "Met Sarah about the report.") None
         (snd (DB.add_file "2025-01-14T10:00:00" "notes/meeting.txt"
                 "document" "md5(meeting)" None DB.empty))).

(** ** C3: an extractor that raises *)

(** The first external step of the extractor for [file_type] raises: the
    OCR call for an image, the PDF reader for a PDF, the read of the file
    for the text kinds. Any other type name is handled by
    [BaseProcessor], whose [process] always raises. *)
Definition extractor_raises (E : Env) (file_type file_path : string) : Prop :=
  if String.eqb file_type "image"
  then exists e, image_to_string E file_path = Raise e
  else if String.eqb file_type "pdf"
  then exists e, pdf_pages E file_path = Raise e
  else if String.eqb file_type "document" || String.eqb file_type "web_clip"
          || String.eqb file_type "url" || String.eqb file_type "ai_chat"
  then exists e, read_text E file_path = Raise e
  else True.

(** The claim as it is written: the failure becomes a content record
    with an empty raw text, and nothing is raised. *)
Definition C3_as_stated : Prop :=
  forall (E : Env) (self : NotesProcessor.processor)
         (file_path file_type : string) (w : World),
    NotesProcessor.db_manager self = true ->
    extractor_raises E file_type file_path ->
    (exists b, fst (NotesProcessor.process_file E self file_path file_type w)
               = Ret b)
    /\ exists c,
         In c (DB.content
                 (db (snd (NotesProcessor.process_file E self file_path
                             file_type w))))
         /\ ~ In c (DB.content (db w))
         /\ DB.c_text c = Some "".

Definition notes_processor : NotesProcessor.processor :=
  NotesProcessor.mkProcessor true (Some Sample.service).



End Statements.
(** * The callers: the folder watcher, the backlog enhancer, the web pages *)

(** ** Histories of the store *)

Module StoreOps.
Import Text DB.

(** The calls of [DatabaseManager] that write. *)
Inductive op : Type :=
| AddFile (now file_path file_type file_hash : string)
    (meta : option metadata)
| AddContent (now : string) (file_id : Z) (content_type : string)
    (content_text processed_text : option string)
| AddTags (content_id : Z) (tag_list : value)
| AddTask (now : string) (content_id : Z) (task_text : value)
    (due_date : option string)
| SaveDigest (now digest_type body : string) (start_date end_date : option string)
| UpdateTaskStatus (task_id : Z) (completed : bool)
| UpdateProcessedText (content_id : Z) (processed_text : option string)
| DeleteContent (content_id : Z).

Definition apply (float_text : value -> option string) (o : op) (s : store)
  : store :=
  match o with
  | AddFile now p t h m => snd (add_file now p t h m s)
  | AddContent now f t txt p => snd (add_content now f t txt p s)
  | AddTags c v => add_tags float_text c v s
  | AddTask now c txt due => snd (add_task float_text now c txt due s)
  | SaveDigest now t body a b => snd (save_digest now t body a b s)
  | UpdateTaskStatus i b => update_task_status i b s
  | UpdateProcessedText c p => snd (update_content_processed_text c p s)
  | DeleteContent c => snd (delete_content c s)
  end.

(** The store after a sequence of calls, oldest first. *)
Definition run (float_text : value -> option string) (ops : list op)
  (s : store) : store :=
  fold_left (fun s o => apply float_text o s) ops s.

(** The keys of a table are distinct, positive and not above the counter of
    its AUTOINCREMENT column, which starts at 0. *)
Definition keyed {A : Type} (id : A -> Z) (rows : list A) (counter : Z)
  : Prop :=
  0 <= counter /\ NoDup (map id rows)
  /\ Forall (fun r => 0 < id r <= counter) rows.

(** What the schema promises of a store: the primary keys, the UNIQUE
    columns, the key of [content_tags], and a completed flag that is 0
    or 1. *)
Record well_formed (s : store) : Prop := mkWellFormed {
  wf_files : keyed f_id (files s) (seq_files s);
  wf_content : keyed c_id (content s) (seq_content s);
  wf_tags : keyed t_id (tags s) (seq_tags s);
  wf_tasks : keyed k_id (tasks s) (seq_tasks s);
  wf_digests : keyed d_id (digests s) (seq_digests s);
  wf_paths : NoDup (map f_path (files s));
  wf_names : NoDup (map t_name (tags s));
  wf_links : NoDup (content_tags s);
  wf_flags : Forall (fun t => k_completed t = 0 \/ k_completed t = 1)
               (tasks s)
}.

(** The store [s'] holds the tags and the links of [s], and maybe more
    after them. *)
Definition grows (s s' : store) : Prop :=
  (exists l, tags s' = (tags s ++ l)%list)
  /\ (exists l, content_tags s' = (content_tags s ++ l)%list).

(** The tag can be bound, is in the store and is linked to the content
    [content_id]. *)
Definition settled (float_text : value -> option string) (content_id : Z)
  (s : store) (tag : value) : Prop :=
  exists name t,
    bind_text float_text tag = Ret (Some name)
    /\ find_tag name s = Some t
    /\ existsb (pair_eqb (content_id, t_id t)) (content_tags s) = true.

End StoreOps.

(** ** Counting rows by a key *)

Module Counting.

(** How often [x] occurs in [l]. *)
Definition occurrences (x : string) (l : list string) : nat :=
  List.length (filter (String.eqb x) l).

(** The sum of [f] over [l]. *)
Definition total (f : string -> nat) (l : list string) : nat :=
  fold_right (fun t acc => (f t + acc)%nat) 0%nat l.



End Counting.

(** ** The stages of [PDFProcessor.process] *)

Module PDFStages.
Import Text Effects FileProcessors PDFProcessor.
Local Open Scope monad_scope.

(** Steps 2 to 5: the decision to fall back on the page images, and the
    fallback. *)
Definition fallback (E : Env) (llm : option LLMService.service)
  (file_path : string) (pages : nat) : F unit :=
  extracted <- gets l_extracted_text ;;
  match llm with
  | Some svc =>
      when (negb (str_truthy extracted)
            || might_be_handwritten (word_count extracted) pages)
        (image_fallback E svc file_path)
  | None => ret tt
  end.

(** Step 6: tasks, tags and summary, with or without the LLM. *)
Definition analysis (E : Env) (llm : option LLMService.service)
  (file_path : string) : F unit :=
  match llm with
  | Some svc => llm_processing E svc file_path
  | None => basic_extraction
  end.

(** The dict returned at the end, from the page count, the text of the
    text layer and the final values of the locals. *)
Definition result_of (file_path : string) (pages : nat) (extracted : string)
  (f : frame) : extraction :=
  let words := word_count extracted in
  mkExtraction
    (match l_raw_text f with
     | Some r => r
     | None => fallback_raw_text (l_extracted_text f) (l_ocr_text f)
     end)
    (l_processed_text f) (l_tags f) (l_tasks f)
    (Some [("pages", DB.MInt (Z.of_nat pages));
           ("might_be_handwritten",
            DB.MBool (might_be_handwritten words pages));
           ("words_per_page",
            DB.MRatio (Z.of_nat words) (Z.of_nat (Nat.max 1 pages)));
           ("ocr_attempted", DB.MBool (l_images_extracted f));
           ("ocr_success", DB.MBool (str_truthy (l_ocr_text f)));
           ("filename", DB.MStr (basename file_path))]).

(** The events of the page-image path: a page image is written, read by
    OCR, or sent to the vision model. *)
Definition page_event (ev : event) : bool :=
  match ev with
  | EvSavePage _ | EvOcr _ | EvVision _ => true
  | _ => false
  end.

(** A request to the model: text or vision. *)
Definition model_event (ev : event) : bool :=
  match ev with
  | EvApi _ | EvVision _ => true
  | _ => false
  end.

Definition is_save (ev : event) : bool :=
  match ev with EvSavePage _ => true | _ => false end.

Definition is_api (ev : event) : bool :=
  match ev with EvApi _ => true | _ => false end.

(** The text layer as the loop over the pages builds it: each non-empty
    page text followed by a blank line. *)
Fixpoint text_layer (pages : list (result (option string))) : string :=
  match pages with
  | [] => ""
  | Ret (Some t) :: rest =>
      if str_truthy t then t ++ NL ++ NL ++ text_layer rest
      else text_layer rest
  | _ :: rest => text_layer rest
  end.

(** No page raises when its text is extracted. *)
Definition readable (pages : list (result (option string))) : Prop :=
  Forall (fun p => exists t, p = Ret t) pages.

(** The prompt of the clean extraction for the text [full_text]. *)
Definition extraction_prompt (file_path full_text : string) : string :=
  "Here is the content extracted from the PDF file '" ++ basename file_path
  ++ "'. Please format this content clearly and readably, preserving the key information:"
  ++ NL ++ NL ++ full_text.

(** A property of the world that is kept when a text request is
    recorded. *)
Definition api_closed (I : World -> Prop) : Prop :=
  forall w rq, I w -> I (with_trace w (trace w ++ [EvApi rq])).

(** All that happened between the worlds [w0] and [w] is that text
    requests went to the model: the page images on disk, the store and the
    written documents are the same. *)
Definition only_requests (w0 w : World) : Prop :=
  disk w = disk w0 /\ db w = db w0 /\ documents w = documents w0
  /\ exists evs, trace w = (trace w0 ++ evs)%list
                  /\ forallb is_api evs = true.

(** Between the worlds [w0] and [w] no page image was written, read by
    OCR or sent to the vision model, and the page images on disk are the
    same. *)
Definition no_page_work (w0 w : World) : Prop :=
  disk w = disk w0
  /\ exists evs, trace w = (trace w0 ++ evs)%list
                  /\ forallb (fun ev => negb (page_event ev)) evs = true.

(** The locals and the world of a run in which no page image was
    handled. *)
Definition unread (w0 : World) (f : frame) : Prop :=
  no_page_work w0 (world f)
  /\ l_page_images f = [] /\ l_temp_images f = [] /\ l_ocr_text f = "".

(** The locals and the world once pdf2image has rendered [file_path]:
    the attempt is on record, no OCR text and no temporary image
    exists. *)
Definition attempted (file_path : string) (f : frame) : Prop :=
  In (EvConvertFromPath file_path) (trace (world f))
  /\ l_images_extracted f = true /\ l_ocr_text f = ""
  /\ l_temp_images f = [].

(** A property of the world that is kept when any event but the writing
    of a page image is recorded, and when page images leave the disk. *)
Definition save_closed (I : World -> Prop) : Prop :=
  (forall w ev, is_save ev = false -> I w ->
                I (with_trace w (trace w ++ [ev])))
  /\ (forall w d, I w -> I (with_disk w d)).

(** Every page image written since the world [w0] is among the temporary
    images of the frame. *)
Definition recorded (w0 : World) (f : frame) : Prop :=
  exists evs, trace (world f) = (trace w0 ++ evs)%list
              /\ forall p, In (EvSavePage p) evs -> In p (l_temp_images f).

End PDFStages.

(** ** The folder watcher: [NotesEventHandler] of [folder_monitor.py] *)

Module NotesEventHandler.
Import Text Effects.
Local Open Scope monad_scope.




(** The handler: its set [processed_files] (a hash, or [None] for a file
    that could not be hashed) beside the world. *)
Record handler : Type := mkHandler {
  processed_files : list (option string);
  outside : World
}.

Definition H : Type -> Type := ST handler.








End NotesEventHandler.

(** ** The backlog enhancer: [EnhancedProcessor] of
    [llm_enhanced_processor.py] *)

Module EnhancedProcessor.
Import Text Datetime Effects.
Local Open Scope monad_scope.




End EnhancedProcessor.

(** ** The web pages: [web_interface.py] *)

Module WebInterface.
Import Text DB.

(** [text[:length]] when [length] may be negative. *)
Definition slice_upto (length : Z) (s : string) : string :=
  if length <? 0 then slice_to (Z.of_nat (String.length s) + length) s
  else slice_to length s.

(** The template filter [truncate_text(text, length)]. *)
Definition truncate_text (txt : string) (length : Z) : string :=
  if negb (str_truthy txt) then ""
  else if Z.of_nat (String.length txt) <=? length then txt
  else slice_upto length txt ++ "...".

(** What [toggle_task(task_id)] does to the store. *)
Definition toggle_task (task_id : Z) (s : store) : store :=
  match get_task_by_id task_id s with
  | None => s
  | Some task =>
      let current_status := negb (k_completed task =? 0) in
      update_task_status task_id (negb current_status) s
  end.

(** [total_pages] of the content page: the quotient rounded up. *)
Definition total_pages (total_items per_page : Z) : Z :=
  (total_items + per_page - 1) / per_page.

End WebInterface.
(** * Proofs *)

Import Text Re Datetime Effects FileProcessors Statements.

(** ** Exceptions *)

Lemma isinstance_Exception (e : exn) : isinstance e Exception = true.
Proof. destruct e as [c m]; destruct c; reflexivity. Qed.

Lemma JSONDecodeError_is_ValueError (e : exn) :
  isinstance e JSONDecodeError = true -> isinstance e ValueError = true.
Proof. destruct e as [c m]; destruct c; cbv; congruence. Qed.

(** ** Rules for [preserves] and [never_raises] *)

Import Hoare.

Section Rules.

Context {S : Type}.
Variable I : S -> Prop.

Lemma preserves_ret {A : Type} (a : A) : preserves I (@ret S A a).
Proof. intros s H; exact H. Qed.

Lemma preserves_raise {A : Type} (e : exn) : preserves I (@raise S A e).
Proof. intros s H; exact H. Qed.

Lemma preserves_lift {A : Type} (r : result A) : preserves I (@lift S A r).
Proof. intros s H; exact H. Qed.

Lemma preserves_gets {A : Type} (f : S -> A) : preserves I (gets f).
Proof. intros s H; exact H. Qed.

Lemma preserves_modify (f : S -> S) :
  (forall s, I s -> I (f s)) -> preserves I (modify f).
Proof. intros F s H; simpl; auto. Qed.

Lemma preserves_bind {A B : Type} (m : ST S A) (k : A -> ST S B) :
  preserves I m -> (forall a, preserves I (k a)) -> preserves I (bind m k).
Proof.
  intros Pm Pk s H. unfold bind. specialize (Pm s H).
  destruct (m s) as [[a|e] s']; simpl in *; [now apply Pk|assumption].
Qed.

Lemma preserves_try {A : Type} (m : ST S A) (c : exn_class)
  (h : exn -> ST S A) :
  preserves I m -> (forall e, preserves I (h e)) ->
  preserves I (try_except m c h).
Proof.
  intros Pm Ph s H. unfold try_except. specialize (Pm s H).
  destruct (m s) as [[a|e] s']; simpl in *; [assumption|].
  destruct (isinstance e c); [now apply Ph|assumption].
Qed.

Lemma preserves_when (b : bool) (m : ST S unit) :
  preserves I m -> preserves I (when b m).
Proof. destruct b; [auto|intros _; apply preserves_ret]. Qed.

Lemma preserves_for_each {A : Type} (l : list A) (body : A -> ST S unit) :
  (forall x, preserves I (body x)) -> preserves I (for_each l body).
Proof.
  intros P. induction l as [|x l IH]; simpl.
  - apply preserves_ret.
  - apply preserves_bind; auto.
Qed.

Lemma never_raises_ret {A : Type} (a : A) : never_raises (@ret S A a).
Proof. intros s; eexists; reflexivity. Qed.

Lemma never_raises_gets {A : Type} (f : S -> A) : never_raises (gets f).
Proof. intros s; eexists; reflexivity. Qed.

Lemma never_raises_modify (f : S -> S) : never_raises (modify f).
Proof. intros s; eexists; reflexivity. Qed.

Lemma never_raises_bind {A B : Type} (m : ST S A) (k : A -> ST S B) :
  never_raises m -> (forall a, never_raises (k a)) -> never_raises (bind m k).
Proof.
  intros Nm Nk s. unfold bind. destruct (Nm s) as [a Ha].
  destruct (m s) as [r s']; simpl in Ha; subst. apply Nk.
Qed.

(** A [try] whose handler for [Exception] returns cannot raise. *)
Lemma never_raises_try {A : Type} (m : ST S A) (h : exn -> ST S A) :
  (forall e, never_raises (h e)) -> never_raises (try_except m Exception h).
Proof.
  intros Nh s. unfold try_except.
  destruct (m s) as [[a|e] s']; simpl; [eexists; reflexivity|].
  rewrite isinstance_Exception. apply Nh.
Qed.

Lemma never_raises_when (b : bool) (m : ST S unit) :
  never_raises m -> never_raises (when b m).
Proof. destruct b; [auto|intros _; apply never_raises_ret]. Qed.

Lemma never_raises_for_each {A : Type} (l : list A) (body : A -> ST S unit) :
  (forall x, never_raises (body x)) -> never_raises (for_each l body).
Proof.
  intros N. induction l as [|x l IH]; simpl.
  - apply never_raises_ret.
  - apply never_raises_bind; auto.
Qed.

End Rules.

Create HintDb keeps.
Create HintDb total.

#[local] Hint Resolve preserves_ret preserves_raise preserves_lift
  preserves_gets preserves_when preserves_for_each : keeps.
#[local] Hint Resolve never_raises_ret never_raises_gets never_raises_modify
  never_raises_when never_raises_for_each : total.


(** ** C10 *)

Lemma chat_lines_no_object (E : Env) (l : list value) (acc : string) :
  no_message_object l = true -> chat_lines E l acc = acc.
Proof.
  revert acc; induction l as [|m l IH]; intros acc H; simpl in *.
  - reflexivity.
  - apply andb_true_iff in H as [Hm Hl].
    destruct m; simpl in Hm; try discriminate; auto.
Qed.

Lemma no_object_among_chars (l : list ascii) :
  no_message_object (map (fun c => VStr (String c EmptyString)) l) = true.
Proof. induction l; simpl; auto. Qed.

Lemma no_object_among_keys (d : list (string * value)) :
  no_message_object (map (fun kv => VStr (fst kv)) d) = true.
Proof. induction d; simpl; auto. Qed.

Lemma chat_text_empty (E : Env) (v : value) :
  empty_chat v = true -> chat_text E v = Ret "".
Proof.
  destruct v as [| | | | | |l|d]; simpl; intros H; try reflexivity.
  - now rewrite chat_lines_no_object.
  - destruct (truthy (dict_get d "messages" (VList []))) eqn:T; simpl in H;
      [|reflexivity].
    destruct (dict_get d "messages" (VList [])) as [| | | | |t|l|d'];
      simpl in *; try discriminate.
    + now rewrite chat_lines_no_object by apply no_object_among_chars.
    + now rewrite chat_lines_no_object.
    + now rewrite chat_lines_no_object by apply no_object_among_keys.
Qed.

Lemma iterate_raises_TypeError (v : value) (e : exn) :
  iterate v = Raise e -> exn_cls e = TypeError.
Proof. destruct v; simpl; intros H; inversion H; reflexivity. Qed.

Lemma chat_text_raises_TypeError (E : Env) (v : value) (e : exn) :
  chat_text E v = Raise e -> exn_cls e = TypeError.
Proof.
  destruct v; simpl; try discriminate.
  destruct (truthy _); [|discriminate].
  destruct (iterate _) eqn:I; [discriminate|].
  intros H; inversion H; subst. eapply iterate_raises_TypeError; eauto.
Qed.

Lemma TypeError_not_decode_error (e : exn) :
  exn_cls e = TypeError -> isinstance e JSONDecodeError = false.
Proof. destruct e as [c m]; simpl; intros ->; reflexivity. Qed.

(** What [aichat_process] returns once the file was read, by the outcome of
    the decoder and of the loops. *)
Lemma aichat_process_read (E : Env) (file_path chat_content : string)
  (w : World) :
  read_text E file_path = Ret chat_content ->
  aichat_process E file_path w =
  match json_loads E chat_content with
  | Ret chat_data =>
      match chat_text E chat_data with
      | Ret t => (Ret (Some (mkExtraction t None (str_list (_extract_tags t))
                               (str_list (_extract_tasks t)) None)), w)
      | Raise _ => (Ret None, w)
      end
  | Raise e =>
      if isinstance e JSONDecodeError
      then (Ret (Some (mkExtraction chat_content None
                         (str_list (_extract_tags chat_content))
                         (str_list (_extract_tasks chat_content)) None)), w)
      else (Ret None, w)
  end.
Proof.
  intros R. unfold aichat_process, try_except, bind, lift, ret. rewrite R.
  destruct (json_loads E chat_content) as [v|e].
  - destruct (chat_text E v) as [t|e] eqn:T; [reflexivity|].
    rewrite (TypeError_not_decode_error e)
      by (eapply chat_text_raises_TypeError; eauto).
    now rewrite isinstance_Exception.
  - destruct (isinstance e JSONDecodeError); [reflexivity|].
    now rewrite isinstance_Exception.
Qed.

(** C10, as amended. After a successful read: a decoded value in which the
    loops find no message object gives the empty raw text; a truthy
    [messages] entry that cannot be iterated (a number, [true]) makes
    [process] return [None]; and the raw text is the file content exactly
    when the decoder raised a decode error. *)
Theorem C10_aichat_unexpected_shape :
  forall (E : Env) (file_path chat_content : string) (w : World),
    read_text E file_path = Ret chat_content ->
    (forall v, json_loads E chat_content = Ret v -> empty_chat v = true ->
       aichat_process E file_path w = (Ret (Some empty_extraction), w))
    /\ (forall d e, json_loads E chat_content = Ret (VDict d) ->
          truthy (dict_get d "messages" (VList [])) = true ->
          iterate (dict_get d "messages" (VList [])) = Raise e ->
          aichat_process E file_path w = (Ret None, w))
    /\ (forall e, json_loads E chat_content = Raise e ->
          isinstance e JSONDecodeError = true ->
          exists x, aichat_process E file_path w = (Ret (Some x), w)
                    /\ raw_text x = chat_content).
Proof.
  intros E file_path chat_content w R. repeat split.
  - intros v L H. rewrite (aichat_process_read _ _ _ _ R), L.
    now rewrite chat_text_empty.
  - intros d e L T I. rewrite (aichat_process_read _ _ _ _ R), L.
    simpl. now rewrite T, I.
  - intros e L I. rewrite (aichat_process_read _ _ _ _ R), L, I.
    eexists; split; reflexivity.
Qed.

(** Witness of C10: a chat file holding the JSON text of a number. *)
Lemma C10_witness :
  read_text (Sample.text_env [("chat.json", "42")] Sample.offline) "chat.json"
  = Ret "42"
  /\ aichat_process (Sample.text_env [("chat.json", "42")] Sample.offline)
       "chat.json" Sample.world0
     = (Ret (Some empty_extraction), Sample.world0).
Proof.
  split; [reflexivity|].
  apply (proj1 (C10_aichat_unexpected_shape
                  (Sample.text_env [("chat.json", "42")] Sample.offline)
                  "chat.json" "42" Sample.world0 eq_refl) (VInt 42));
    reflexivity.
Defined.

(** Counterexample to C10 as stated: the file [{"messages": 5}] decodes to
    an object that is neither a list of messages nor an object with a
    non-empty [messages] list, and [process] returns [None], not a result
    with an empty raw text. *)
Lemma C10_counterexample :
  read_text chat_env "chat_log.json" = Ret chat_file
  /\ json_loads chat_env chat_file = Ret (VDict [("messages", VInt 5)])
  /\ message_list (VDict [("messages", VInt 5)]) = false
  /\ has_messages_list (VDict [("messages", VInt 5)]) = false
  /\ aichat_process chat_env "chat_log.json" Sample.world0
     = (Ret None, Sample.world0).
Proof. repeat split; vm_compute; reflexivity. Qed.

Lemma C10_as_stated_is_false : ~ C10_as_stated.
Proof.
  intros H.
  destruct (H chat_env "chat_log.json" chat_file
              (VDict [("messages", VInt 5)]) Sample.world0
              eq_refl eq_refl eq_refl eq_refl) as [x [Hx _]].
  vm_compute in Hx. discriminate.
Qed.

(** ** C9 *)






Lemma C9_as_stated_is_false : ~ C9_as_stated.
Proof.
  intros H.
  destruct (H number_env Sample.service "call Bob" "42" Sample.world0
              (snd (LLMService._call_api number_env Sample.service
                      LLMService.tasks_system_prompt
                      (LLMService.tasks_user_prompt "call Bob") 4000
                      Sample.world0))
              eq_refl) as [Ht _].
  - intros l. vm_compute. destruct l; discriminate.
  - specialize (Ht eq_refl). vm_compute in Ht. discriminate.
Qed.

(** ** C7 *)

Section StoreInvariants.

Lemma existsb_eqb_In (x : string) (l : list string) :
  existsb (String.eqb x) l = true <-> In x l.
Proof.
  rewrite existsb_exists. split.
  - intros [y [Hy E]]. apply String.eqb_eq in E. now subst.
  - intros H. exists x. split; [assumption|apply String.eqb_refl].
Qed.

Lemma path_known (s : DB.store) (p : string) :
  existsb (fun r => String.eqb (DB.f_path r) p) (DB.files s) = true
  <-> In p (map DB.f_path (DB.files s)).
Proof.
  rewrite existsb_exists, in_map_iff. split.
  - intros [r [Hr E]]. apply String.eqb_eq in E. eauto.
  - intros [r [E Hr]]. exists r. split; [assumption|].
    rewrite E. apply String.eqb_refl.
Qed.

Lemma count_unique (x : string) (l : list string) :
  NoDup l -> In x l -> List.length (filter (String.eqb x) l) = 1%nat.
Proof.
  induction 1 as [|y l Hy Hl IH]; simpl; [contradiction|].
  intros [->|Hx].
  - rewrite String.eqb_refl. simpl. f_equal.
    assert (F : filter (String.eqb x) l = []).
    { clear -Hy. induction l as [|z l IH]; simpl; [reflexivity|].
      destruct (String.eqb_spec x z) as [->|N].
      - exfalso. apply Hy. now left.
      - apply IH. intros H. apply Hy. now right. }
    now rewrite F.
  - destruct (String.eqb_spec x y) as [->|N]; [contradiction|]. auto.
Qed.


(** [add_file] keeps the paths distinct and leaves the path it was given
    in the table. *)
Lemma add_file_paths (now p t h : string) (m : option DB.metadata)
  (s : DB.store) :
  unique_paths s ->
  unique_paths (snd (DB.add_file now p t h m s))
  /\ In p (map DB.f_path (DB.files (snd (DB.add_file now p t h m s)))).
Proof.
  unfold unique_paths, DB.add_file. intros U.
  destruct (existsb _ (DB.files s)) eqn:X; simpl.
  - split; [assumption|]. now apply path_known.
  - rewrite map_app; simpl. split.
    + apply NoDup_app; [assumption|repeat constructor; auto| ].
      intros a Ha [<-|[]]. apply path_known in Ha. congruence.
    + apply in_or_app. right. now left.
Qed.


Lemma find_tag_name (name : string) (s : DB.store) (t : DB.tag_row) :
  DB.find_tag name s = Some t -> DB.t_name t = name /\ In t (DB.tags s).
Proof.
  unfold DB.find_tag. intros H. apply find_some in H as [I E].
  apply String.eqb_eq in E. auto.
Qed.

Lemma find_tag_none (name : string) (s : DB.store) :
  DB.find_tag name s = None -> ~ In name (map DB.t_name (DB.tags s)).
Proof.
  unfold DB.find_tag. intros H I. apply in_map_iff in I as [t [E I]].
  pose proof (find_none _ _ H t I) as F. simpl in F.
  rewrite E, String.eqb_refl in F. discriminate.
Qed.

Lemma insert_tag_unique (name : string) (s : DB.store) :
  unique_tag_names s -> unique_tag_names (DB.insert_tag name s).
Proof.
  unfold unique_tag_names, DB.insert_tag. intros U.
  destruct (DB.find_tag name s) eqn:F; [assumption|]. simpl.
  rewrite map_app; simpl.
  apply NoDup_app; [assumption|repeat constructor; auto|].
  intros a Ha [<-|[]]. now apply find_tag_none in F.
Qed.

Lemma insert_content_tag_tags (c i : Z) (s : DB.store) :
  DB.tags (DB.insert_content_tag c i s) = DB.tags s.
Proof. unfold DB.insert_content_tag. now destruct (existsb _ _). Qed.

Lemma insert_content_tag_In (c i : Z) (s : DB.store) :
  In (c, i) (DB.content_tags (DB.insert_content_tag c i s)).
Proof.
  unfold DB.insert_content_tag. destruct (existsb _ _) eqn:X; simpl.
  - apply existsb_exists in X as [[a b] [I E]]. unfold DB.pair_eqb in E.
    simpl in E. apply andb_true_iff in E as [E1 E2].
    apply Z.eqb_eq in E1, E2. now subst.
  - apply in_or_app. right. now left.
Qed.





End StoreInvariants.




Lemma C7_as_stated_is_false : ~ C7_as_stated.
Proof.
  intros H.
  specialize (H DB.empty "2025-01-15T10:00:00" "2025-01-15T10:00:01"
                "notes/a.txt" "notes/copy.txt" "document" "md5(hello)" None
                eq_refl).
  vm_compute in H. discriminate.
Qed.

(** ** C6 *)

(** Under the ORDER BY clause the manager sends, of two tasks with the same
    completion flag the one without a due date comes first. *)
Lemma null_due_date_sorts_first (a b : DB.task_view) (d : string) :
  DB.k_completed (DB.tv_task a) = DB.k_completed (DB.tv_task b) ->
  DB.k_due (DB.tv_task a) = None ->
  DB.k_due (DB.tv_task b) = Some d ->
  DB.task_le a b = true /\ DB.task_le b a = false.
Proof.
  intros C A B. unfold DB.task_le, DB.task_order.
  rewrite C, Z.compare_refl, A, B. simpl. split; reflexivity.
Qed.

(** C6, on the task set of the claim: [get_tasks] returns the open task
    without a due date first, then the due-dated one, then the completed
    one, in whichever order the two open tasks were created; and the task
    list is numbered in that order. *)
Theorem C6_task_without_due_date_listed_first :
  task_texts (DB.get_tasks None None None claim_tasks)
  = [Some "no due date"; Some "due-dated"; Some "completed"]
  /\ task_texts (DB.get_tasks None None None claim_tasks_swapped)
     = [Some "no due date"; Some "due-dated"; Some "completed"]
  /\ fst (DigestGenerator.generate_task_list plain_env generator true
            (with_store claim_tasks))
     = Ret (Some (DigestGenerator.mkReport "digests/task_list_2025-01-15.md"
                    ("# Task List" ++ NL ++ NL
                     ++ "Generated on: January 15, 2025" ++ NL ++ NL
                     ++ "## Active Tasks" ++ NL ++ NL
                     ++ "1. no due date" ++ NL
                     ++ "2. due-dated (Due: January 01, 2025)" ++ NL ++ NL
                     ++ "## Completed Tasks" ++ NL ++ NL
                     ++ "1. ~~completed~~" ++ NL))).
Proof. repeat split; vm_compute; reflexivity. Qed.

(** ** C5 *)

Section MonthlyLoop.

Lemma gtb_earlier_day (a b : datetime) :
  dt_days a < dt_days b -> gtb a b = false.
Proof.
  intros H. unfold gtb, leb.
  destruct (Z.ltb_spec (dt_days a) (dt_days b)); [reflexivity|lia].
Qed.

Lemma gtb_later_day (a b : datetime) :
  dt_days b < dt_days a -> gtb a b = true.
Proof.
  intros H. unfold gtb, leb.
  destruct (Z.ltb_spec (dt_days a) (dt_days b)); [lia|].
  destruct (Z.eqb_spec (dt_days a) (dt_days b)); [lia|reflexivity].
Qed.

Lemma gtb_same_day (a b : datetime) :
  dt_days a = dt_days b -> dt_secs a < dt_secs b -> gtb a b = false.
Proof.
  intros D S. unfold gtb, leb. rewrite D, Z.ltb_irrefl, Z.eqb_refl.
  destruct (Z.ltb_spec (dt_secs a) (dt_secs b)); [reflexivity|lia].
Qed.

Lemma leb_days (a b : datetime) : leb a b = true -> dt_days a <= dt_days b.
Proof.
  unfold leb. intros H. apply orb_true_iff in H as [H|H].
  - apply Z.ltb_lt in H. lia.
  - apply andb_true_iff in H as [H _]. apply Z.eqb_eq in H. lia.
Qed.

(** The fuel is enough: more of it does not change what is gathered. *)
Lemma collect_weekly_enough (s : DB.store) (end_date : datetime) :
  forall (fuel extra : nat) (current_start : datetime)
         (acc : list DB.digest_row),
    (Z.to_nat (dt_days end_date - dt_days current_start + 1) <= fuel)%nat ->
    DigestGenerator.collect_weekly (fuel + extra) s current_start end_date acc
    = DigestGenerator.collect_weekly fuel s current_start end_date acc.
Proof.
  induction fuel as [|fuel IH]; intros extra cur acc F.
  - destruct (gtb cur end_date) eqn:G.
    + simpl. destruct extra; simpl; now rewrite G.
    + unfold gtb in G. apply negb_false_iff in G. apply leb_days in G. lia.
  - simpl. destruct (gtb cur end_date) eqn:G; [reflexivity|].
    unfold gtb in G. apply negb_false_iff in G. apply leb_days in G.
    apply IH.
    destruct (gtb (add_days cur 6) end_date); simpl; lia.
Qed.

Lemma days_from_civil_day (y m d : Z) :
  days_from_civil y m d = days_from_civil y m 1 + (d - 1).
Proof. unfold days_from_civil. lia. Qed.

Lemma days_in_month_range (y m : Z) :
  days_in_month y m = 28 \/ days_in_month y m = 29
  \/ days_in_month y m = 30 \/ days_in_month y m = 31.
Proof.
  unfold days_in_month.
  destruct (m =? 2); [destruct (isleap y); auto|].
  destruct ((m =? 4) || (m =? 6) || (m =? 9) || (m =? 11)); auto.
Qed.

Lemma collect_weekly_round (fuel : nat) (s : DB.store) (d : DB.digest_row)
  (cur end_date : datetime) (acc : list DB.digest_row) :
  DB.get_latest_digest "weekly" s = Some d ->
  gtb cur end_date = false ->
  DigestGenerator.collect_weekly (S fuel) s cur end_date acc
  = DigestGenerator.collect_weekly fuel s
      (add_days (if gtb (add_days cur 6) end_date then end_date
                 else add_days cur 6) 1)
      end_date (acc ++ [d])%list.
Proof. intros L G. simpl. now rewrite G, L. Qed.

Lemma collect_weekly_exit (fuel : nat) (s : DB.store)
  (cur end_date : datetime) (acc : list DB.digest_row) :
  gtb cur end_date = true ->
  DigestGenerator.collect_weekly fuel s cur end_date acc = acc.
Proof. intros G. destruct fuel; simpl; now rewrite G. Qed.

Ltac one_week L :=
  rewrite (collect_weekly_round _ _ _ _ _ _ L)
    by (first [ apply gtb_earlier_day; cbn [add_days dt_days dt_secs]; lia
              | apply gtb_same_day; cbn [add_days dt_days dt_secs]; lia ]);
  first [ rewrite (gtb_earlier_day (add_days _ 6)) by (cbn [add_days dt_days dt_secs]; lia)
        | rewrite (gtb_same_day (add_days _ 6)) by (cbn [add_days dt_days dt_secs]; lia)
        | rewrite (gtb_later_day (add_days _ 6)) by (cbn [add_days dt_days dt_secs]; lia) ].

(** With a weekly digest in the store, the loop gathers that digest once
    per round: four times for a month of 28 days, five times otherwise. *)
Lemma collect_weekly_copies (s : DB.store) (d : DB.digest_row) (D n : Z) :
  DB.get_latest_digest "weekly" s = Some d ->
  28 <= n <= 31 ->
  DigestGenerator.collect_weekly
    (DigestGenerator.weeks_fuel (mkDT D 0 0) (mkDT (D + (n - 1)) 86399 0))
    s (mkDT D 0 0) (mkDT (D + (n - 1)) 86399 0) []
  = repeat d (if n =? 28 then 4 else 5).
Proof.
  intros L N. unfold DigestGenerator.weeks_fuel. simpl dt_days.
  replace (D + (n - 1) - D) with (n - 1) by lia.
  assert (C : n = 28 \/ n = 29 \/ n = 30 \/ n = 31) by lia.
  destruct C as [ -> | [ -> | [ -> | -> ] ] ].
  - change (S (Z.to_nat (28 - 1))) with 28%nat.
    do 4 one_week L.
    rewrite collect_weekly_exit
      by (apply gtb_later_day; cbn [add_days dt_days dt_secs]; lia).
    reflexivity.
  - change (S (Z.to_nat (29 - 1))) with 29%nat.
    do 5 one_week L.
    rewrite collect_weekly_exit
      by (apply gtb_later_day; cbn [add_days dt_days dt_secs]; lia).
    reflexivity.
  - change (S (Z.to_nat (30 - 1))) with 30%nat.
    do 5 one_week L.
    rewrite collect_weekly_exit
      by (apply gtb_later_day; cbn [add_days dt_days dt_secs]; lia).
    reflexivity.
  - change (S (Z.to_nat (31 - 1))) with 31%nat.
    do 5 one_week L.
    rewrite collect_weekly_exit
      by (apply gtb_later_day; cbn [add_days dt_days dt_secs]; lia).
    reflexivity.
Qed.

End MonthlyLoop.

Section MonthlyDigest.

Lemma days_in_month_bounds (y m : Z) : 28 <= days_in_month y m <= 31.
Proof. pose proof (days_in_month_range y m). lia. Qed.

Lemma make_first_day (y m : Z) :
  1 <= y <= 9999 -> 1 <= m <= 12 ->
  make y m 1 0 0 0 = Ret (mkDT (days_from_civil y m 1) 0 0).
Proof.
  intros Y M. unfold make. pose proof (days_in_month_bounds y m).
  replace (1 <=? y) with true by (symmetry; apply Z.leb_le; lia).
  replace (y <=? 9999) with true by (symmetry; apply Z.leb_le; lia).
  replace (1 <=? m) with true by (symmetry; apply Z.leb_le; lia).
  replace (m <=? 12) with true by (symmetry; apply Z.leb_le; lia).
  replace (1 <=? days_in_month y m) with true
    by (symmetry; apply Z.leb_le; lia).
  reflexivity.
Qed.

Lemma make_last_second (y m : Z) :
  1 <= y <= 9999 -> 1 <= m <= 12 ->
  make y m (days_in_month y m) 23 59 59
  = Ret (mkDT (days_from_civil y m 1 + (days_in_month y m - 1)) 86399 0).
Proof.
  intros Y M. unfold make. pose proof (days_in_month_bounds y m).
  replace (1 <=? y) with true by (symmetry; apply Z.leb_le; lia).
  replace (y <=? 9999) with true by (symmetry; apply Z.leb_le; lia).
  replace (1 <=? m) with true by (symmetry; apply Z.leb_le; lia).
  replace (m <=? 12) with true by (symmetry; apply Z.leb_le; lia).
  replace (1 <=? days_in_month y m) with true
    by (symmetry; apply Z.leb_le; lia).
  rewrite Z.leb_refl. cbn [andb]. rewrite <- days_from_civil_day.
  reflexivity.
Qed.

(** Every row handed to [analyze_trends] by the monthly digest is a tuple:
    the first one already stops it. *)
Lemma analyze_trends_on_rows (E : Env) (svc : LLMService.service)
  (d : DB.digest_row) (k : nat) (w : World) :
  (2 <= k)%nat ->
  LLMService.analyze_trends E svc (map LLMService.DigestRow (repeat d k)) w
  = (Raise (mkExn AttributeError "'tuple' object has no attribute 'get'"), w).
Proof.
  intros K. unfold LLMService.analyze_trends.
  rewrite length_map, repeat_length.
  destruct (Nat.ltb_spec k 2); [lia|].
  unfold bind, lift.
  assert (T : exists r rest,
             LLMService.last_n 4 (map LLMService.DigestRow (repeat d k))
             = LLMService.DigestRow r :: rest).
  { unfold LLMService.last_n. rewrite length_map, repeat_length.
    rewrite skipn_map.
    assert (S : skipn (k - 4) (repeat d k) = repeat d (k - (k - 4))).
    { clear. generalize (k - 4)%nat as j. induction k as [|k IH]; intros j.
      - now destruct j.
      - destruct j; [reflexivity|]. simpl. apply IH. }
    rewrite S. destruct (k - (k - 4))%nat eqn:Q; [lia|].
    simpl. eauto. }
  destruct T as [r [rest ->]]. reflexivity.
Qed.

(** Whenever the store holds a weekly digest, of any week, a monthly digest
    generated with an LLM service stops in [analyze_trends]: nothing is
    saved and no notice is produced. *)
Lemma monthly_digest_with_a_weekly_digest (E : Env)
  (self : DigestGenerator.generator) (svc : LLMService.service) (y m : Z)
  (d : DB.digest_row) (w : World) :
  1 <= y <= 9999 -> 1 <= m <= 12 ->
  DigestGenerator.llm_service self = Some svc ->
  DB.get_latest_digest "weekly" (db w) = Some d ->
  DigestGenerator.generate_monthly_digest E self (Some y) (Some m) w
  = (Raise (mkExn AttributeError "'tuple' object has no attribute 'get'"), w).
Proof.
  intros Y M S L. unfold DigestGenerator.generate_monthly_digest.
  unfold DigestGenerator.falsy_int.
  destruct (Z.eqb_spec y 0); [lia|]. destruct (Z.eqb_spec m 0); [lia|].
  cbn [orb]. unfold bind at 1. unfold lift at 1.
  rewrite make_first_day by assumption.
  unfold bind at 1. unfold lift at 1.
  rewrite make_last_second by assumption.
  unfold bind at 1. unfold gets at 1.
  rewrite (collect_weekly_copies (db w) d _ _ L (days_in_month_bounds y m)).
  rewrite repeat_length.
  assert (K : (2 <= (if (days_in_month y m =? 28)%Z then 4 else 5))%nat)
    by (destruct (days_in_month y m =? 28); lia).
  destruct (Nat.ltb_spec 1 (if (days_in_month y m =? 28)%Z then 4 else 5)%nat);
    [|lia].
  unfold bind at 1. unfold bind at 1.
  unfold DigestGenerator.the_service. rewrite S. unfold ret at 1.
  now rewrite analyze_trends_on_rows.
Qed.

End MonthlyDigest.

(** C5, on a store whose only digest is one weekly digest: the monthly
    loop reads that digest five times in January (four in February), the
    test [len(weekly_digests) > 1] passes, [analyze_trends] is called and
    raises on the tuple rows; no monthly digest is produced or saved, so
    there is no Trends section with the notice. With no weekly digest the
    notice is there. *)
Theorem C5_single_weekly_digest_reaches_trend_analysis :
  List.length (DB.digests one_weekly) = 1%nat
  /\ List.length (gathered one_weekly 2025 1) = 5%nat
  /\ List.length (gathered one_weekly 2025 2) = 4%nat
  /\ DigestGenerator.generate_monthly_digest answering_env generator
       (Some 2025) (Some 1) (with_store one_weekly)
     = (Raise (mkExn AttributeError "'tuple' object has no attribute 'get'"),
        with_store one_weekly)
  /\ (exists r, fst (DigestGenerator.generate_monthly_digest answering_env
                       generator (Some 2025) (Some 1) (with_store DB.empty))
                = Ret r
                /\ contains (DigestGenerator.content r)
                     DigestGenerator.insufficient_data = true).
Proof.
  split; [reflexivity|]. split; [vm_compute; reflexivity|].
  split; [vm_compute; reflexivity|]. split; [vm_compute; reflexivity|].
  eexists. split; vm_compute; reflexivity.
Qed.

(** ** C4 *)

Section WeeklyDigest.

Variable E : Env.








End WeeklyDigest.





Lemma C4_as_stated_is_false : ~ C4_as_stated.
Proof.
  intros H.
  destruct (H plain_env generator Sample.service (with_store yesterday_note)
              eq_refl) as [r [R _]].
  - intros rq n reply. discriminate.
  - vm_compute. discriminate.
  - vm_compute in R. discriminate.
Qed.

(** When the endpoint answers, the digest is saved and written. *)
Example weekly_digest_with_an_answer :
  exists r,
    fst (DigestGenerator.generate_weekly_digest answering_env generator
           DigestGenerator.EndNone (with_store yesterday_note)) = Ret (Some r)
    /\ DigestGenerator.digest_id r = Some 1
    /\ map DB.d_content
         (DB.digests
            (db (snd (DigestGenerator.generate_weekly_digest answering_env
                        generator DigestGenerator.EndNone
                        (with_store yesterday_note)))))
       = ["Trend report."].
Proof. vm_compute. eexists. repeat split. Qed.

(** ** C3 *)

Section Dispatcher.

Variable E : Env.






Lemma add_tags_content (ft : value -> option string) (c : Z) (v : value)
  (s : DB.store) :
  DB.content (DB.add_tags ft c v s) = DB.content s.
Proof.
  unfold DB.add_tags. destruct (iterate v) as [items|]; [|reflexivity].
  destruct (DB.add_tag_loop ft c items s) as [s'|] eqn:L; [|reflexivity].
  revert s s' L. induction items as [|t items IH]; simpl; intros s s' L.
  - now inversion L.
  - destruct (DB.add_one_tag ft c t s) as [s1|] eqn:A; [|discriminate].
    rewrite (IH _ _ L). unfold DB.add_one_tag in A.
    destruct (DB.bind_text ft t) as [[name|]|]; try discriminate.
    destruct (DB.find_tag name (DB.insert_tag name s)); [|discriminate].
    inversion A; subst. unfold DB.insert_content_tag, DB.insert_tag.
    destruct (existsb _ _), (DB.find_tag name s); reflexivity.
Qed.


End Dispatcher.




Lemma C3_as_stated_is_false : ~ C3_as_stated.
Proof.
  intros H.
  destruct (H plain_env notes_processor "notes/broken.txt" "document"
              Sample.world0 eq_refl) as [_ [c [I _]]].
  - eexists; reflexivity.
  - vm_compute in I. exact I.
Qed.

(** * Further properties of the store, the extractors and the callers *)

(** ** The store keeps its keys *)

Section Keys.
Import DB StoreOps.

Lemma keyed_nil {A : Type} (id : A -> Z) : keyed id [] 0.
Proof. split; [lia|split; constructor]. Qed.

Lemma keyed_below {A : Type} (id : A -> Z) (rows : list A) (c : Z) (r : A) :
  keyed id rows c -> In r rows -> 0 < id r <= c.
Proof. intros [_ [_ F]] I. rewrite Forall_forall in F. auto. Qed.

(** A row keyed by the next value of the counter can be appended. *)
Lemma keyed_append {A : Type} (id : A -> Z) (rows : list A) (c : Z) (r : A) :
  keyed id rows c -> id r = c + 1 -> keyed id (rows ++ [r]) (c + 1).
Proof.
  intros [C [N F]] E. split; [lia|split].
  - rewrite map_app. simpl. apply NoDup_app; [assumption|repeat constructor; auto|].
    intros a Ha [<-|[]]. apply in_map_iff in Ha as [x [Ex Ix]].
    rewrite Forall_forall in F. specialize (F x Ix). lia.
  - apply Forall_app. split.
    + eapply Forall_impl; [|exact F]. simpl. intros; lia.
    + repeat constructor; lia.
Qed.

(** The rows a DELETE leaves have distinct keys when all rows had. *)
Lemma NoDup_map_filter {A K : Type} (key : A -> K) (kept : A -> bool)
  (rows : list A) (N : NoDup (map key rows)) :
  NoDup (map key (filter kept rows)).
Proof.
  induction rows as [|a rows IH]; simpl in *; [constructor|].
  inversion N as [|? ? Ha Hl]; subst.
  destruct (kept a); simpl; [|auto].
  constructor; [|auto]. intros I. apply Ha.
  apply in_map_iff in I as [x [E Ix]]. apply filter_In in Ix as [Ix _].
  apply in_map_iff. eauto.
Qed.

Lemma keyed_filter {A : Type} (id : A -> Z) (p : A -> bool) (rows : list A)
  (c : Z) : keyed id rows c -> keyed id (filter p rows) c.
Proof.
  intros [C [N F]]. split; [assumption|split; [now apply NoDup_map_filter|]].
  rewrite Forall_forall in *. intros x Ix. apply filter_In in Ix as [Ix _]. auto.
Qed.

(** An update that keeps the key of every row. *)
Lemma keyed_map {A : Type} (id : A -> Z) (g : A -> A) (rows : list A) (c : Z) :
  (forall r, id (g r) = id r) -> keyed id rows c -> keyed id (map g rows) c.
Proof.
  intros G [C [N F]]. split; [assumption|split].
  - rewrite map_map. erewrite map_ext; [exact N|]. intros; apply G.
  - rewrite Forall_forall in *. intros x Ix.
    apply in_map_iff in Ix as [r [<- Ir]]. rewrite G. auto.
Qed.

(** The row a key names is the one [find] returns. *)
Lemma keyed_find {A : Type} (id : A -> Z) (rows : list A) (c : Z) (r : A) :
  keyed id rows c -> In r rows -> find (fun x => id x =? id r) rows = Some r.
Proof.
  intros [_ [N _]] I. induction rows as [|a rows IH]; [contradiction|].
  simpl in *. inversion N as [|? ? Ha Hl]; subst.
  destruct I as [->|I]; [now rewrite Z.eqb_refl|].
  destruct (Z.eqb_spec (id a) (id r)) as [E|_]; [|auto].
  exfalso. apply Ha. rewrite E. now apply in_map.
Qed.

Lemma empty_well_formed : well_formed empty.
Proof.
  constructor; simpl; try apply keyed_nil; constructor.
Qed.

Lemma add_file_well_formed (now p t h : string) (m : option metadata)
  (s : store) : well_formed s -> well_formed (snd (add_file now p t h m s)).
Proof.
  intros W. pose proof (add_file_paths now p t h m s (wf_paths s W)) as [U _].
  unfold add_file in *.
  destruct (existsb _ (files s)); simpl in *; [assumption|].
  destruct W. constructor; simpl; try assumption.
  now apply keyed_append.
Qed.

Lemma add_content_well_formed (now : string) (f : Z) (t : string)
  (txt p : option string) (s : store) :
  well_formed s -> well_formed (snd (add_content now f t txt p s)).
Proof.
  intros W. destruct W. constructor; simpl; try assumption.
  now apply keyed_append.
Qed.

Lemma save_digest_well_formed (now t body : string) (a b : option string)
  (s : store) :
  well_formed s -> well_formed (snd (save_digest now t body a b s)).
Proof.
  intros W. destruct W. constructor; simpl; try assumption.
  now apply keyed_append.
Qed.

Lemma add_task_well_formed (ft : value -> option string) (now : string)
  (c : Z) (txt : value) (due : option string) (s : store) :
  well_formed s -> well_formed (snd (add_task ft now c txt due s)).
Proof.
  intros W. unfold add_task. destruct (bind_text ft txt); [|assumption].
  destruct W. constructor; simpl; try assumption.
  - now apply keyed_append.
  - apply Forall_app. split; [assumption|]. repeat constructor.
Qed.

Lemma update_task_status_well_formed (i : Z) (b : bool) (s : store) :
  well_formed s -> well_formed (update_task_status i b s).
Proof.
  intros W. destruct W. constructor; simpl; try assumption.
  - apply keyed_map; [|assumption]. intros r. now destruct (k_id r =? i).
  - rewrite Forall_forall in *. intros x Ix.
    apply in_map_iff in Ix as [r [<- Ir]].
    destruct (k_id r =? i); simpl; [destruct b; auto|auto].
Qed.

Lemma update_processed_text_well_formed (c : Z) (p : option string)
  (s : store) :
  well_formed s -> well_formed (snd (update_content_processed_text c p s)).
Proof.
  intros W. unfold update_content_processed_text.
  destruct (bindable c); [|assumption].
  destruct W. constructor; simpl; try assumption.
  apply keyed_map; [|assumption]. intros r. now destruct (c_id r =? c).
Qed.

Lemma delete_content_well_formed (c : Z) (s : store) :
  well_formed s -> well_formed (snd (delete_content c s)).
Proof.
  intros W. unfold delete_content. destruct (bindable c); [|assumption].
  destruct W. constructor; simpl; try assumption.
  - now apply keyed_filter.
  - now apply keyed_filter.
  - now apply NoDup_filter.
  - rewrite Forall_forall in *. intros x Ix. apply filter_In in Ix as [Ix _].
    auto.
Qed.

Lemma insert_tag_well_formed (name : string) (s : store) :
  well_formed s -> well_formed (insert_tag name s).
Proof.
  intros W. pose proof (insert_tag_unique name s (wf_names s W)) as U.
  unfold insert_tag in *. destruct (find_tag name s); [assumption|].
  destruct W. constructor; simpl in *; try assumption.
  now apply keyed_append.
Qed.

Lemma pair_eqb_eq (a b : Z * Z) : pair_eqb a b = true <-> a = b.
Proof.
  destruct a as [a1 a2], b as [b1 b2]. unfold pair_eqb. simpl.
  rewrite andb_true_iff, !Z.eqb_eq. split; [intros [-> ->]; reflexivity|].
  intros E; inversion E; auto.
Qed.

Lemma insert_content_tag_well_formed (c i : Z) (s : store) :
  well_formed s -> well_formed (insert_content_tag c i s).
Proof.
  intros W. unfold insert_content_tag.
  destruct (existsb _ (content_tags s)) eqn:X; [assumption|].
  destruct W. constructor; simpl; try assumption.
  apply NoDup_app; [assumption|repeat constructor; auto|].
  intros a Ha [<-|[]].
  assert (T : existsb (pair_eqb (c, i)) (content_tags s) = true).
  { apply existsb_exists. exists (c, i). split; [assumption|].
    now apply pair_eqb_eq. }
  congruence.
Qed.

Lemma add_tag_loop_well_formed (ft : value -> option string) (c : Z)
  (items : list value) (s s' : store) :
  well_formed s -> add_tag_loop ft c items s = Ret s' -> well_formed s'.
Proof.
  revert s; induction items as [|tag items IH]; simpl; intros s W H.
  - now inversion H; subst.
  - destruct (add_one_tag ft c tag s) as [s1|e] eqn:A; [|discriminate].
    eapply IH; [|exact H]. unfold add_one_tag in A.
    destruct (bind_text ft tag) as [[name|]|e]; try discriminate.
    destruct (find_tag name (insert_tag name s)); [|discriminate].
    inversion A; subst.
    now apply insert_content_tag_well_formed, insert_tag_well_formed.
Qed.

Lemma add_tags_well_formed (ft : value -> option string) (c : Z) (v : value)
  (s : store) : well_formed s -> well_formed (add_tags ft c v s).
Proof.
  intros W. unfold add_tags.
  destruct (iterate v) as [items|e]; [|assumption].
  destruct (add_tag_loop ft c items s) as [s'|e] eqn:L; [|assumption].
  eapply add_tag_loop_well_formed; eauto.
Qed.

Lemma apply_well_formed (ft : value -> option string) (o : op) (s : store) :
  well_formed s -> well_formed (apply ft o s).
Proof.
  intros W. destruct o; simpl.
  - now apply add_file_well_formed.
  - now apply add_content_well_formed.
  - now apply add_tags_well_formed.
  - now apply add_task_well_formed.
  - now apply save_digest_well_formed.
  - now apply update_task_status_well_formed.
  - now apply update_processed_text_well_formed.
  - now apply delete_content_well_formed.
Qed.

(** A history that starts from a well-formed store ends in one. *)
Lemma run_well_formed (ft : value -> option string) (ops : list op)
  (s : store) : well_formed s -> well_formed (run ft ops s).
Proof.
  unfold run. revert s.
  induction ops as [|o ops IH]; simpl; intros s W; [assumption|].
  apply IH. now apply apply_well_formed.
Qed.

End Keys.

(** X1. Whatever sequence of writing calls is made on a new database,
    also with deletions in between, the store keeps the promises of its
    schema: the keys of every table are distinct, positive and never above
    the AUTOINCREMENT counter (so no key is given out twice), file paths
    and tag names are unique, no tag link is doubled, and a completed flag
    is 0 or 1. *)
Theorem store_stays_well_formed :
  forall (float_text : value -> option string) (ops : list StoreOps.op),
    StoreOps.well_formed (StoreOps.run float_text ops DB.empty).
Proof.
  intros ft ops. apply run_well_formed, empty_well_formed.
Qed.

(** ** Sorting, limits and offsets *)

Section Queries.
Import DB.

Lemma insert_by_length {A : Type} (le : A -> A -> bool) (x : A) (l : list A) :
  List.length (insert_by le x l) = S (List.length l).
Proof.
  induction l as [|y l IH]; simpl; [reflexivity|].
  destruct (le x y); simpl; [reflexivity|now rewrite IH].
Qed.

Lemma sort_by_length {A : Type} (le : A -> A -> bool) (l : list A) :
  List.length (sort_by le l) = List.length l.
Proof.
  induction l as [|x l IH]; simpl; [reflexivity|].
  unfold sort_by in *. simpl. now rewrite insert_by_length, IH.
Qed.

Lemma insert_by_In {A : Type} (le : A -> A -> bool) (x y : A) (l : list A) :
  In y (insert_by le x l) <-> y = x \/ In y l.
Proof.
  induction l as [|z l IH]; simpl; [intuition|].
  destruct (le x z); simpl; [intuition|]. rewrite IH. intuition.
Qed.

Lemma sort_by_In {A : Type} (le : A -> A -> bool) (y : A) (l : list A) :
  In y (sort_by le l) <-> In y l.
Proof.
  induction l as [|x l IH]; simpl; [reflexivity|].
  unfold sort_by in *. simpl. rewrite insert_by_In, IH. intuition.
Qed.

Lemma sort_by_nil {A : Type} (le : A -> A -> bool) (l : list A) :
  l = [] -> sort_by le l = [].
Proof. now intros ->. Qed.

(** A row that no other row precedes, scanned last, comes out first. *)
Lemma sort_by_last_first {A : Type} (le : A -> A -> bool) (l : list A) (x : A) :
  (forall y, In y l -> le y x = false) ->
  hd_error (sort_by le (l ++ [x])) = Some x.
Proof.
  intros H. unfold sort_by. rewrite fold_right_app. simpl.
  induction l as [|y l IH]; simpl; [reflexivity|].
  assert (T : exists r, fold_right (insert_by le) [x] l = x :: r).
  { assert (Hl : forall y, In y l -> le y x = false) by (intros; apply H; now right).
    specialize (IH Hl). destruct (fold_right (insert_by le) [x] l) as [|a r];
      [discriminate|]. simpl in IH. inversion IH; subst. eauto. }
  destruct T as [r ->]. simpl. rewrite H by now left. reflexivity.
Qed.

Lemma filter_filter_neg {A : Type} (id : A -> Z) (c : Z) (l : list A) :
  filter (fun x => id x =? c) (filter (fun x => negb (id x =? c)) l) = [].
Proof.
  induction l as [|a l IH]; simpl; [reflexivity|].
  destruct (id a =? c) eqn:E; simpl; [assumption|]. now rewrite E.
Qed.

Lemma filter_filter_other {A : Type} (id : A -> Z) (c c' : Z) (l : list A) :
  c' <> c ->
  filter (fun x => id x =? c') (filter (fun x => negb (id x =? c)) l)
  = filter (fun x => id x =? c') l.
Proof.
  intros N. induction l as [|a l IH]; simpl; [reflexivity|].
  destruct (Z.eqb_spec (id a) c) as [E|E]; simpl.
  - destruct (Z.eqb_spec (id a) c') as [E'|_]; [congruence|assumption].
  - destruct (id a =? c'); [now rewrite IH|assumption].
Qed.

Lemma tags_of_deleted (c c' : Z) (s : store) (b : bool) (s' : store) :
  delete_content c s = (b, s') -> b = true ->
  get_tags_for_content c' s'
  = if c' =? c then [] else get_tags_for_content c' s.
Proof.
  unfold delete_content. destruct (bindable c); intros H T; inversion H; subst;
    [|discriminate].
  unfold get_tags_for_content. simpl.
  induction (content_tags s) as [|ct l IH]; simpl.
  - now destruct (c' =? c).
  - destruct (Z.eqb_spec (fst ct) c) as [E|E]; simpl; rewrite IH;
      destruct (Z.eqb_spec c' c) as [->|N]; try reflexivity.
    + destruct (Z.eqb_spec (fst ct) c'); [congruence|reflexivity].
    + destruct (Z.eqb_spec (fst ct) c); [congruence|reflexivity].
Qed.

End Queries.

(** X2. Once [delete_content] has returned [True], the content item is
    gone together with what hangs on it: it cannot be fetched by its id,
    it has no tasks and no tags. Files, tag names and digests are not
    touched (the file row of the deleted content stays), and every other
    content item keeps its row, its tasks and its tags. *)
Theorem delete_content_removes_item_only :
  forall (c : Z) (s : DB.store),
    fst (DB.delete_content c s) = true ->
    let s' := snd (DB.delete_content c s) in
    DB.get_content_by_id c s' = None
    /\ DB.get_tasks_for_content c s' = []
    /\ DB.get_tags_for_content c s' = []
    /\ DB.files s' = DB.files s
    /\ DB.tags s' = DB.tags s
    /\ DB.digests s' = DB.digests s
    /\ forall c', c' <> c ->
         DB.get_content_by_id c' s' = DB.get_content_by_id c' s
         /\ DB.get_tasks_for_content c' s' = DB.get_tasks_for_content c' s
         /\ DB.get_tags_for_content c' s' = DB.get_tags_for_content c' s.
Proof.
  intros c s T s'.
  pose proof (fun c' => tags_of_deleted c c' s true s') as G.
  unfold s' in *. clear s'. unfold DB.delete_content in *.
  destruct (DB.bindable c) eqn:B; [|discriminate]. simpl in *.
  specialize (fun c' => G c' eq_refl eq_refl).
  repeat split.
  - unfold DB.get_content_by_id. rewrite B. simpl.
    now rewrite (filter_filter_neg DB.c_id).
  - unfold DB.get_tasks_for_content. rewrite B. simpl.
    now rewrite (filter_filter_neg DB.k_content_id).
  - rewrite G. now rewrite Z.eqb_refl.
  - unfold DB.get_content_by_id. destruct (DB.bindable c'); [|reflexivity].
    simpl. now rewrite (filter_filter_other DB.c_id).
  - unfold DB.get_tasks_for_content. destruct (DB.bindable c'); [|reflexivity].
    simpl. now rewrite (filter_filter_other DB.k_content_id).
  - rewrite G. destruct (Z.eqb_spec c' c); [contradiction|reflexivity].
Qed.

Lemma delete_content_removes_item_only_witness :
  fst (DB.delete_content 1 Statements.claim_tasks) = true
  /\ DB.get_content_by_id 1 (snd (DB.delete_content 1 Statements.claim_tasks))
     = None
  /\ DB.get_tasks_for_content 1
       (snd (DB.delete_content 1 Statements.claim_tasks)) = [].
Proof.
  split; [reflexivity|].
  pose proof (delete_content_removes_item_only 1 Statements.claim_tasks
                eq_refl) as H.
  destruct H as [H1 [H2 _]]. split; assumption.
Defined.

(** X3. A digest that is saved with a creation time later than that of
    every stored digest of its type is the one [get_latest_digest]
    returns for the type; in a well-formed store it is also the one
    [get_digest_by_id] returns for the id [save_digest] handed back. *)
Theorem saved_digest_is_latest :
  forall (now digest_type body : string) (start_date end_date : option string)
         (s : DB.store),
    StoreOps.well_formed s ->
    DB.bindable (DB.seq_digests s + 1) = true ->
    (forall d, In d (DB.digests s) -> DB.d_type d = digest_type ->
               String.leb now (DB.d_created d) = false) ->
    let saved := DB.save_digest now digest_type body start_date end_date s in
    let row := DB.mkDigest (DB.seq_digests s + 1) digest_type start_date
                 end_date body now in
    fst saved = Some (DB.seq_digests s + 1)
    /\ DB.get_latest_digest digest_type (snd saved) = Some row
    /\ DB.get_digest_by_id (DB.seq_digests s + 1) (snd saved) = Some row.
Proof.
  intros now t body a b s W B L saved row. unfold saved, DB.save_digest.
  simpl. split; [reflexivity|split].
  - unfold DB.get_latest_digest. simpl. rewrite filter_app. simpl.
    rewrite String.eqb_refl. apply sort_by_last_first.
    intros y Hy. apply filter_In in Hy as [Hy E]. apply String.eqb_eq in E.
    simpl. now apply L.
  - unfold DB.get_digest_by_id. simpl. rewrite B.
    apply (keyed_find DB.d_id (DB.digests s ++ [row]) (DB.seq_digests s + 1) row).
    + apply keyed_append; [apply (StoreOps.wf_digests s W)|reflexivity].
    + apply in_or_app. right. now left.
Qed.

Lemma saved_digest_is_latest_witness :
  DB.get_latest_digest "weekly"
    (snd (DB.save_digest "2025-01-15T09:00:00" "weekly" "Second week." None
            None Statements.one_weekly))
  = Some (DB.mkDigest 2 "weekly" None None "Second week."
            "2025-01-15T09:00:00").
Proof.
  refine (proj1 (proj2 (saved_digest_is_latest "2025-01-15T09:00:00" "weekly"
                          "Second week." None None Statements.one_weekly
                          _ _ _))).
  - change Statements.one_weekly
      with (StoreOps.run (fun _ => None)
              [StoreOps.SaveDigest "2025-01-08T09:00:00" "weekly"
                 ("## Summary" ++ Text.NL ++ Text.NL ++ "A quiet week.")
                 (Some "2025-01-01T09:00:00") (Some "2025-01-08T09:00:00")]
              DB.empty).
    apply run_well_formed, empty_well_formed.
  - reflexivity.
  - intros d [<-|[]] _. reflexivity.
Defined.

Section Toggle.
Import DB WebInterface.

Lemma find_task_In (i : Z) (l : list task_row) (t : task_row) :
  find (fun x => k_id x =? i) l = Some t -> In t l /\ k_id t = i.
Proof.
  intros H. apply find_some in H as [I E]. apply Z.eqb_eq in E. auto.
Qed.

(** Setting the flag of the only task with a key. *)
Lemma update_one_task (i : Z) (b : bool) (l : list task_row) (t : task_row) :
  NoDup (map k_id l) -> In t l -> k_id t = i ->
  find (fun x => k_id x =? i)
    (map (fun x => if k_id x =? i
                   then mkTask (k_id x) (k_content_id x) (k_text x)
                          (if b then 1 else 0) (k_due x) (k_created x)
                   else x) l)
  = Some (mkTask (k_id t) (k_content_id t) (k_text t) (if b then 1 else 0)
            (k_due t) (k_created t)).
Proof.
  intros N I E. induction l as [|a l IH]; [contradiction|].
  simpl in *. inversion N as [|? ? Ha Hl]; subst.
  destruct I as [->|I].
  - rewrite Z.eqb_refl. simpl. now rewrite Z.eqb_refl.
  - destruct (Z.eqb_spec (k_id a) (k_id t)) as [E|E].
    + exfalso. apply Ha. rewrite E. now apply in_map.
    + simpl. destruct (Z.eqb_spec (k_id a) (k_id t)); [contradiction|]. auto.
Qed.

Lemma update_twice (i : Z) (b : bool) (l : list task_row) :
  Forall (fun x => k_id x = i -> k_completed x = (if b then 1 else 0)) l ->
  map (fun x => if k_id x =? i
                then mkTask (k_id x) (k_content_id x) (k_text x)
                       (if b then 1 else 0) (k_due x) (k_created x)
                else x)
    (map (fun x => if k_id x =? i
                   then mkTask (k_id x) (k_content_id x) (k_text x)
                          (if negb b then 1 else 0) (k_due x) (k_created x)
                   else x) l)
  = l.
Proof.
  induction 1 as [|a l Ha Hl IH]; simpl; [reflexivity|].
  rewrite IH. f_equal.
  destruct (Z.eqb_spec (k_id a) i) as [E|E]; simpl.
  - rewrite E, Z.eqb_refl. destruct a; simpl in *. subst.
    rewrite (Ha eq_refl). reflexivity.
  - destruct (Z.eqb_spec (k_id a) i); [contradiction|reflexivity].
Qed.

End Toggle.

(** X4. In a well-formed store the task page's toggle is an involution:
    a task that exists has its completed flag flipped between 0 and 1,
    its text, due date and source are kept, and a second toggle gives the
    store back; a task id that does not exist changes nothing. *)
Theorem toggle_task_twice :
  forall (task_id : Z) (s : DB.store),
    StoreOps.well_formed s ->
    WebInterface.toggle_task task_id (WebInterface.toggle_task task_id s) = s
    /\ (DB.get_task_by_id task_id s = None ->
        WebInterface.toggle_task task_id s = s)
    /\ forall t, DB.get_task_by_id task_id s = Some t ->
         DB.get_task_by_id task_id (WebInterface.toggle_task task_id s)
         = Some (DB.mkTask (DB.k_id t) (DB.k_content_id t) (DB.k_text t)
                   (1 - DB.k_completed t) (DB.k_due t) (DB.k_created t)).
Proof.
  intros i s W.
  assert (P3 : forall t, DB.get_task_by_id i s = Some t ->
            DB.get_task_by_id i (WebInterface.toggle_task i s)
            = Some (DB.mkTask (DB.k_id t) (DB.k_content_id t) (DB.k_text t)
                      (1 - DB.k_completed t) (DB.k_due t) (DB.k_created t))).
  { intros t G. unfold WebInterface.toggle_task. rewrite G.
    unfold DB.get_task_by_id in *. destruct (DB.bindable i); [|discriminate].
    apply find_task_In in G as [I E]. unfold DB.update_task_status. simpl.
    destruct (StoreOps.wf_tasks s W) as [_ [N _]].
    rewrite (update_one_task i _ (DB.tasks s) t N I E). f_equal. f_equal.
    pose proof (StoreOps.wf_flags s W) as F. rewrite Forall_forall in F.
    destruct (F t I) as [-> | ->]; reflexivity. }
  split; [|split; [|exact P3]].
  - destruct (DB.get_task_by_id i s) as [t|] eqn:G.
    + specialize (P3 t eq_refl). unfold WebInterface.toggle_task at 1.
      rewrite P3. cbn [DB.k_completed].
      pose proof (StoreOps.wf_flags _ W) as F.
      destruct (StoreOps.wf_tasks _ W) as [_ [N _]].
      unfold DB.get_task_by_id in G. destruct (DB.bindable i); [|discriminate].
      apply find_task_In in G as [I E].
      assert (K : (1 - DB.k_completed t =? 0) = negb (DB.k_completed t =? 0)).
      { rewrite Forall_forall in F. destruct (F t I) as [-> | ->]; reflexivity. }
      rewrite K, negb_involutive.
      unfold WebInterface.toggle_task, DB.get_task_by_id.
      assert (G : find (fun x => DB.k_id x =? i) (DB.tasks s) = Some t).
      { rewrite <- E. eapply keyed_find; [apply (StoreOps.wf_tasks s W)|exact I]. }
      destruct (DB.bindable i) eqn:B.
      2:{ unfold DB.get_task_by_id in P3. rewrite B in P3. discriminate. }
      rewrite G. unfold DB.update_task_status.
      destruct s as [fs cs ts cts ks ds q1 q2 q3 q4 q5]; simpl in *. f_equal.
      apply update_twice.
      rewrite Forall_forall. intros x Ix Ex.
      assert (x = t).
      { clear -N I Ix E Ex. induction ks as [|a l IH]; [contradiction|].
        simpl in *. inversion N as [|? ? Ha Hl]; subst.
        destruct I as [->|I], Ix as [->|Ix]; auto.
        - exfalso. apply Ha. rewrite <- Ex. now apply in_map.
        - exfalso. apply Ha. rewrite Ex. now apply in_map. }
      subst x. rewrite Forall_forall in F.
      destruct (F t I) as [-> | ->]; reflexivity.
    + unfold WebInterface.toggle_task. rewrite G. now rewrite G.
  - intros G. unfold WebInterface.toggle_task. now rewrite G.
Qed.

Lemma toggle_task_twice_witness :
  WebInterface.toggle_task 2
    (WebInterface.toggle_task 2 Statements.claim_tasks)
  = Statements.claim_tasks.
Proof.
  refine (proj1 (toggle_task_twice 2 Statements.claim_tasks _)).
  change Statements.claim_tasks
    with (StoreOps.run Statements.no_floats
            [StoreOps.AddFile "2025-01-10T09:00:00" "notes/todo.txt" "document"
               "md5(notes)" None;
             StoreOps.AddContent "2025-01-10T09:00:00" 1 "text" (Some "notes")
               None;
             StoreOps.AddTask "2025-01-10T09:00:01" 1 (VStr "no due date") None;
             StoreOps.AddTask "2025-01-10T09:00:02" 1 (VStr "due-dated")
               (Some "2025-01-01");
             StoreOps.AddTask "2025-01-10T09:00:03" 1 (VStr "completed") None;
             StoreOps.UpdateTaskStatus 3 true]
            DB.empty).
  apply run_well_formed, empty_well_formed.
Defined.

(** ** The pages of the content list *)

Section Pages.
Import DB WebInterface.

Lemma firstn_then_next {A : Type} (a b : nat) (l : list A) :
  (firstn a l ++ firstn b (skipn a l))%list = firstn (a + b) l.
Proof.
  revert l; induction a as [|a IH]; intros l; simpl; [reflexivity|].
  destruct l as [|x l]; simpl; [now rewrite firstn_nil|]. now rewrite IH.
Qed.

(** Consecutive windows of [k] rows tile the first [n * k] rows. *)
Lemma windows_tile {A : Type} (k n : nat) (l : list A) :
  List.concat (map (fun j => firstn k (skipn (j * k) l)) (seq 0 n))
  = firstn (n * k) l.
Proof.
  induction n as [|n IH]; [reflexivity|].
  rewrite seq_S, map_app, concat_app, IH. cbn [map List.concat Nat.add].
  rewrite app_nil_r, firstn_then_next. f_equal. lia.
Qed.

Lemma newest_first_length (s : store) :
  (List.length (newest_first s) <= List.length (content s))%nat.
Proof.
  unfold newest_first. rewrite sort_by_length.
  induction (content s) as [|c l IH]; simpl; [lia|].
  rewrite length_app. unfold join_file at 1.
  destruct (file_by_id (c_file_id c) s); simpl; lia.
Qed.

Lemma total_pages_cover (total per_page : Z) :
  0 <= total -> 0 < per_page ->
  0 <= total_pages total per_page
  /\ total <= total_pages total per_page * per_page
  /\ (total_pages total per_page - 1) * per_page < Z.max total 1.
Proof.
  intros T P. unfold total_pages.
  pose proof (Z.div_mod (total + per_page - 1) per_page ltac:(lia)) as D.
  pose proof (Z.mod_pos_bound (total + per_page - 1) per_page P) as M.
  assert (0 <= (total + per_page - 1) / per_page)
    by (apply Z.div_pos; lia).
  nia.
Qed.

Lemma bindable_between (n : Z) : 0 <= n -> n < 2 ^ 63 -> bindable n = true.
Proof.
  intros A B. unfold bindable. apply andb_true_iff. split.
  - apply Z.leb_le. assert (0 < 2 ^ 63) by reflexivity. lia.
  - now apply Z.ltb_lt.
Qed.

Lemma bindable_below (n : Z) : bindable n = true -> n < 2 ^ 63.
Proof.
  unfold bindable. intros H. apply andb_true_iff in H as [_ H].
  now apply Z.ltb_lt.
Qed.

End Pages.

(** X5. With a positive page size, the pages 1 to [total_pages] of the
    content list, as the web page computes their number from
    [get_content_count], hold every listed content row exactly once and in
    the order of the full listing (newest first), and no page holds more
    rows than the page size. *)
Theorem content_pages_tile_the_listing :
  forall (per_page : Z) (s : DB.store),
    0 < per_page ->
    DB.bindable per_page = true ->
    DB.bindable (DB.get_content_count s) = true ->
    List.concat (map (fun p => DB.get_paginated_content (Z.of_nat p) per_page s)
              (seq 1 (Z.to_nat (WebInterface.total_pages
                                  (DB.get_content_count s) per_page))))
    = DB.newest_first s
    /\ forall page,
         Z.of_nat (List.length (DB.get_paginated_content page per_page s))
         <= per_page.
Proof.
  intros k s P Bk Bc. split.
  - pose proof (newest_first_length s) as L.
    unfold DB.get_content_count in *.
    set (c := Z.of_nat (List.length (DB.content s))) in *.
    destruct (total_pages_cover c k ltac:(unfold c; lia) P) as [T0 [T1 T2]].
    set (n := WebInterface.total_pages c k) in *.
    rewrite <- (firstn_all2 (n := Z.to_nat n * Z.to_nat k) (DB.newest_first s))
      by (unfold c in *; nia).
    rewrite <- windows_tile. rewrite <- seq_shift, map_map.
    f_equal. apply map_ext_in. intros j Hj. apply in_seq in Hj.
    unfold DB.get_paginated_content.
    replace ((Z.of_nat (S j) - 1) * k) with (Z.of_nat j * k) by lia.
    rewrite Bk. rewrite bindable_between.
    + simpl. unfold DB.limit_rows, DB.offset_rows.
      destruct (Z.ltb_spec k 0); [lia|]. f_equal. f_equal. nia.
    + nia.
    + apply bindable_below in Bc. nia.
  - intros page. unfold DB.get_paginated_content.
    destruct (_ && _); simpl; [|lia].
    unfold DB.limit_rows. destruct (Z.ltb_spec k 0); [lia|].
    rewrite length_firstn. lia.
Qed.

Lemma content_pages_tile_the_listing_witness :
  List.concat (map (fun p => DB.get_paginated_content (Z.of_nat p) 1
                          Statements.yesterday_note)
            (seq 1 (Z.to_nat (WebInterface.total_pages
                                (DB.get_content_count Statements.yesterday_note)
                                1))))
  = DB.newest_first Statements.yesterday_note.
Proof.
  refine (proj1 (content_pages_tile_the_listing 1 Statements.yesterday_note
                   _ _ _)); [lia|reflexivity|reflexivity].
Defined.

(** ** Counting by type *)

Section Statistics.
Import DB Counting.

Lemma total_insert (f : string -> nat) (le : string -> string -> bool)
  (x : string) (l : list string) :
  total f (insert_by le x l) = (f x + total f l)%nat.
Proof.
  induction l as [|y l IH]; simpl; [reflexivity|].
  destruct (le x y); simpl; [reflexivity|]. rewrite IH. lia.
Qed.

Lemma total_sort (f : string -> nat) (le : string -> string -> bool)
  (l : list string) : total f (sort_by le l) = total f l.
Proof.
  induction l as [|x l IH]; simpl; [reflexivity|].
  unfold sort_by in *. simpl. now rewrite total_insert, IH.
Qed.

Lemma total_ext (f g : string -> nat) (l : list string) :
  (forall x, In x l -> f x = g x) -> total f l = total g l.
Proof.
  induction l as [|x l IH]; simpl; intros H; [reflexivity|].
  rewrite (H x) by now left. rewrite IH; [reflexivity|].
  intros; apply H; now right.
Qed.

(** Splitting a sum at one key. *)
Lemma total_split (f : string -> nat) (x : string) (l : list string) :
  total f l
  = (occurrences x l * f x
     + total f (filter (fun y => negb (String.eqb y x)) l))%nat.
Proof.
  unfold occurrences. induction l as [|y l IH]; simpl; [reflexivity|].
  rewrite (String.eqb_sym x y).
  destruct (String.eqb_spec y x) as [->|N]; simpl; rewrite IH; lia.
Qed.

Lemma occurrences_absent (x : string) (l : list string) :
  ~ In x l -> occurrences x l = 0%nat.
Proof.
  unfold occurrences. induction l as [|y l IH]; simpl; intros H; [reflexivity|].
  destruct (String.eqb_spec x y) as [->|N]; [exfalso; apply H; now left|].
  apply IH. intros I. apply H. now right.
Qed.

Lemma distinct_In (x : string) (l : list string) :
  In x (distinct l) <-> In x l.
Proof.
  induction l as [|y l IH]; simpl; [reflexivity|].
  rewrite filter_In, IH. split.
  - intros [->|[I _]]; auto.
  - intros [->|I]; [now left|].
    destruct (String.eqb_spec x y) as [->|N]; [now left|right].
    split; [assumption|].
    destruct (String.eqb_spec x y); [contradiction|reflexivity].
Qed.

Lemma distinct_NoDup (l : list string) : NoDup (distinct l).
Proof.
  induction l as [|y l IH]; simpl; constructor.
  - rewrite filter_In. intros [_ H]. now rewrite String.eqb_refl in H.
  - now apply NoDup_filter.
Qed.

Lemma total_cons (f : string -> nat) (x : string) (l : list string) :
  total f (x :: l) = (f x + total f l)%nat.
Proof. reflexivity. Qed.

Lemma distinct_cons (x : string) (l : list string) :
  distinct (x :: l)
  = x :: filter (fun y => negb (String.eqb y x)) (distinct l).
Proof. reflexivity. Qed.

(** The counts of the distinct keys add up to the number of rows. *)
Lemma total_distinct (l : list string) :
  total (fun t => occurrences t l) (distinct l) = List.length l.
Proof.
  induction l as [|x l IH]; [reflexivity|].
  assert (E : total (fun t => occurrences t (x :: l))
                (filter (fun y => negb (String.eqb y x)) (distinct l))
              = total (fun t => occurrences t l)
                  (filter (fun y => negb (String.eqb y x)) (distinct l))).
  { apply total_ext. intros y Hy. apply filter_In in Hy as [_ Hy].
    unfold occurrences. simpl. apply negb_true_iff in Hy. now rewrite Hy. }
  assert (O : occurrences x (x :: l) = S (occurrences x l)).
  { unfold occurrences. simpl. now rewrite String.eqb_refl. }
  rewrite distinct_cons, total_cons, O, E.
  cbn [List.length]. rewrite <- IH.
  rewrite (total_split (fun t => occurrences t l) x (distinct l)).
  destruct (in_dec string_dec x l) as [I|I].
  - assert (U : occurrences x (distinct l) = 1%nat).
    { apply count_unique; [apply distinct_NoDup|now apply distinct_In]. }
    rewrite U. lia.
  - rewrite (occurrences_absent x l I). lia.
Qed.

End Statistics.

(** X6. In the statistics of the dashboard the per-type counts add up to
    the total count, which is the number [get_content_count] reports;
    each type is listed once and with a positive count. *)
Theorem content_statistics_add_up :
  forall (s : DB.store),
    let '(total_count, type_counts, _) := DB.get_content_statistics s in
    fold_right Z.add 0 (map snd type_counts) = total_count
    /\ total_count = DB.get_content_count s
    /\ NoDup (map fst type_counts)
    /\ Forall (fun tc => 0 < snd tc) type_counts.
Proof.
  intros s. unfold DB.get_content_statistics, DB.get_content_count.
  set (types := map DB.c_type (DB.content s)).
  set (keys := DB.sort_by String.leb (DB.distinct types)).
  assert (K : forall t, In t keys <-> In t types).
  { intros t. unfold keys. rewrite sort_by_In. apply distinct_In. }
  repeat split.
  - rewrite map_map. simpl.
    transitivity (Z.of_nat (Counting.total (fun t => Counting.occurrences t types) keys)).
    + clear K. induction keys as [|t l IH]; simpl; [reflexivity|].
      rewrite IH. unfold Counting.occurrences. lia.
    + unfold keys. rewrite total_sort, total_distinct. unfold types.
      now rewrite length_map.
  - rewrite map_map. simpl. rewrite map_id. unfold keys.
    assert (N : NoDup (DB.distinct types)) by apply distinct_NoDup.
    revert N. generalize (DB.distinct types). intros l N.
    induction N as [|x l Hx Hl IH]; simpl; [constructor|].
    unfold DB.sort_by in *. simpl.
    assert (G : forall (le : string -> string -> bool) y m,
               NoDup m -> ~ In y m -> NoDup (DB.insert_by le y m)).
    { clear. intros le y m. induction m as [|z m IH]; simpl; intros N H.
      - repeat constructor; auto.
      - destruct (le y z); [now constructor|].
        inversion N; subst. constructor.
        + rewrite insert_by_In. intros [->|I]; [apply H; now left|auto].
        + apply IH; [assumption|]. intros I. apply H. now right. }
    apply G; [assumption|].
    intros I. apply Hx. change (In x (DB.sort_by String.leb l)) in I.
    now rewrite sort_by_In in I.
  - rewrite Forall_forall. intros tc Htc. apply in_map_iff in Htc as [t [<- Ht]].
    cbn [snd]. apply K in Ht.
    assert (P : (0 < List.length (filter (String.eqb t) types))%nat); [|lia].
    clear -Ht. induction types as [|y l IH]; [contradiction|]. simpl.
    destruct (String.eqb_spec t y) as [->|N]; simpl; [lia|].
    destruct Ht as [->|Ht]; [contradiction|auto].
Qed.

(** ** Tagging twice *)

Section Tagging.
Import DB StoreOps.

Variable ft : value -> option string.
Variable c : Z.

Lemma find_app_found {A : Type} (p : A -> bool) (l l' : list A) (x : A) :
  find p l = Some x -> find p (l ++ l') = Some x.
Proof.
  induction l as [|a l IH]; simpl; [discriminate|].
  destruct (p a); auto.
Qed.

Lemma find_app_missing {A : Type} (p : A -> bool) (l l' : list A) :
  find p l = None -> find p (l ++ l') = find p l'.
Proof.
  induction l as [|a l IH]; simpl; [reflexivity|].
  destruct (p a); [discriminate|auto].
Qed.

Lemma grows_refl (s : store) : grows s s.
Proof. split; exists []; now rewrite app_nil_r. Qed.

Lemma grows_trans (s1 s2 s3 : store) : grows s1 s2 -> grows s2 s3 -> grows s1 s3.
Proof.
  intros [[a Ha] [b Hb]] [[a' Ha'] [b' Hb']]. split.
  - exists (a ++ a')%list. now rewrite Ha', Ha, app_assoc.
  - exists (b ++ b')%list. now rewrite Hb', Hb, app_assoc.
Qed.

Lemma insert_tag_grows (name : string) (s : store) : grows s (insert_tag name s).
Proof.
  unfold insert_tag. destruct (find_tag name s); [apply grows_refl|].
  split; simpl; [eauto|exists []; now rewrite app_nil_r].
Qed.

Lemma insert_content_tag_grows (i : Z) (s : store) :
  grows s (insert_content_tag c i s).
Proof.
  unfold insert_content_tag. destruct (existsb _ _); [apply grows_refl|].
  split; simpl; [exists []; now rewrite app_nil_r|eauto].
Qed.

Lemma settled_grows (s s' : store) (tag : value) :
  grows s s' -> settled ft c s tag -> settled ft c s' tag.
Proof.
  intros [[a Ha] [b Hb]] [name [t [B [F X]]]]. exists name, t.
  split; [assumption|split].
  - unfold find_tag in *. rewrite Ha. now apply find_app_found.
  - rewrite Hb, existsb_app, X. reflexivity.
Qed.

Lemma add_one_tag_settles (tag : value) (s s' : store) :
  add_one_tag ft c tag s = Ret s' -> settled ft c s' tag /\ grows s s'.
Proof.
  unfold add_one_tag. destruct (bind_text ft tag) as [[name|]|e] eqn:B;
    try discriminate.
  destruct (find_tag name (insert_tag name s)) as [t|] eqn:F; [|discriminate].
  intros H; inversion H; subst. split.
  - exists name, t. split; [exact B|split].
    + unfold find_tag in *. now rewrite insert_content_tag_tags.
    + apply existsb_exists. exists (c, t_id t).
      split; [apply insert_content_tag_In|now apply pair_eqb_eq].
  - eapply grows_trans; [apply insert_tag_grows|apply insert_content_tag_grows].
Qed.


Lemma add_tag_loop_settles (items : list value) (s s' : store) :
  add_tag_loop ft c items s = Ret s' ->
  Forall (settled ft c s') items /\ grows s s'.
Proof.
  revert s; induction items as [|tag items IH]; simpl; intros s H.
  - inversion H; subst. split; [constructor|apply grows_refl].
  - destruct (add_one_tag ft c tag s) as [s1|e] eqn:A; [|discriminate].
    apply add_one_tag_settles in A as [S1 G1].
    destruct (IH _ H) as [S2 G2]. split.
    + constructor; [|assumption]. eapply settled_grows; eauto.
    + eapply grows_trans; eauto.
Qed.


(** Text items are always bound, so the loop over them returns. *)
Lemma add_tag_loop_texts (names : list string) (s : store) :
  exists s', add_tag_loop ft c (map VStr names) s = Ret s'.
Proof.
  revert s; induction names as [|n names IH]; simpl; intros s; [eauto|].
  unfold add_one_tag. simpl.
  destruct (find_tag n (insert_tag n s)) as [t|] eqn:F; [apply IH|].
  exfalso. unfold insert_tag in F.
  destruct (find_tag n s) eqn:F0; [congruence|].
  unfold find_tag in F, F0. simpl in F.
  rewrite (find_app_missing _ _ _ F0) in F. simpl in F.
  now rewrite String.eqb_refl in F.
Qed.


End Tagging.



Section Backlog.
Import DB.

Lemma unprocessed_after_update (c : Z) (t : string) (s : store)
  (r : content_row) :
  bindable c = true ->
  In r (get_unprocessed_content None
          (snd (update_content_processed_text c (Some t) s)))
  <-> In r (get_unprocessed_content None s) /\ c_id r <> c.
Proof.
  intros B. unfold update_content_processed_text, get_unprocessed_content.
  rewrite B. simpl. rewrite !filter_In, in_map_iff. split.
  - intros [[x [E I]] P]. destruct (Z.eqb_spec (c_id x) c) as [Ex|Ex].
    + subst r. simpl in P. discriminate.
    + subst r. auto.
  - intros [[I P] N]. split; [|assumption]. exists r. split; [|assumption].
    destruct (Z.eqb_spec (c_id r) c); [contradiction|reflexivity].
Qed.

End Backlog.

(** X9. Once [update_content_processed_text] has written a text for a
    content item and returned [True], [get_unprocessed_content] no longer
    returns that item, while every other unprocessed item is still
    returned: the backlog shrinks by exactly the items that were
    processed. *)
Theorem processed_content_leaves_the_backlog :
  forall (content_id : Z) (processed_text : string) (s : DB.store),
    fst (DB.update_content_processed_text content_id (Some processed_text) s)
    = true ->
    let s' := snd (DB.update_content_processed_text content_id
                     (Some processed_text) s) in
    forall r,
      In r (DB.get_unprocessed_content None s')
      <-> In r (DB.get_unprocessed_content None s) /\ DB.c_id r <> content_id.
Proof.
  intros c t s T s' r. apply unprocessed_after_update.
  unfold DB.update_content_processed_text in T.
  now destruct (DB.bindable c).
Qed.

Lemma processed_content_leaves_the_backlog_witness :
  fst (DB.update_content_processed_text 1 (Some "A summary.")
         Statements.yesterday_note) = true
  /\ forall r,
       In r (DB.get_unprocessed_content None
               (snd (DB.update_content_processed_text 1 (Some "A summary.")
                       Statements.yesterday_note)))
       <-> In r (DB.get_unprocessed_content None Statements.yesterday_note)
           /\ DB.c_id r <> 1.
Proof.
  split; [reflexivity|].
  apply (processed_content_leaves_the_backlog 1 "A summary."
           Statements.yesterday_note).
  reflexivity.
Defined.

(** ** The PDF pipeline, stage by stage *)

Section PDFPipeline.
Import Text Effects FileProcessors PDFProcessor PDFStages Hoare.

Variable E : Env.

Lemma set_world_same (f : frame) : set_world (world f) f = f.
Proof. now destruct f. Qed.

(** A computation on the world keeps a property of the frame that it
    keeps as a property of the world, the locals being fixed. *)
Lemma preserves_in_world {A : Type} (J : frame -> Prop) (m : M A) :
  (forall f, preserves (fun w => J (set_world w f)) m) ->
  preserves J (in_world m).
Proof.
  intros P f H. unfold in_world. specialize (P f (world f)).
  cbv beta in P. rewrite set_world_same in P. specialize (P H).
  destruct (m (world f)) as [r w']. exact P.
Qed.

Lemma never_raises_image_fallback (svc : LLMService.service) (path : string) :
  never_raises (image_fallback E svc path).
Proof.
  unfold image_fallback. apply never_raises_try. intros e.
  apply never_raises_ret.
Qed.

Lemma never_raises_llm_processing (svc : LLMService.service) (path : string) :
  never_raises (llm_processing E svc path).
Proof.
  unfold llm_processing. apply never_raises_try. intros e.
  repeat (apply never_raises_bind;
          [first [apply never_raises_gets|apply never_raises_modify]|intros ?]).
  apply never_raises_modify.
Qed.

Lemma never_raises_basic_extraction : never_raises basic_extraction.
Proof.
  unfold basic_extraction.
  repeat (apply never_raises_bind;
          [first [apply never_raises_gets|apply never_raises_modify]|intros ?]).
  apply never_raises_modify.
Qed.

Lemma never_raises_cleanup : never_raises (cleanup E).
Proof.
  unfold cleanup. apply never_raises_bind; [apply never_raises_gets|].
  intros imgs. apply never_raises_for_each. intros p.
  apply never_raises_try. intros e. apply never_raises_ret.
Qed.

Lemma never_raises_fallback (llm : option LLMService.service) (path : string)
  (pages : nat) : never_raises (fallback E llm path pages).
Proof.
  unfold fallback. apply never_raises_bind; [apply never_raises_gets|].
  intros x. destruct llm; [|apply never_raises_ret].
  apply never_raises_when, never_raises_image_fallback.
Qed.

Lemma never_raises_analysis (llm : option LLMService.service) (path : string) :
  never_raises (analysis E llm path).
Proof.
  destruct llm; [apply never_raises_llm_processing|].
  apply never_raises_basic_extraction.
Qed.

(** What a computation that cannot raise returns. *)
Lemma returns_unit {S : Type} (m : ST S unit) (s : S) :
  never_raises m -> m s = (Ret tt, snd (m s)).
Proof.
  intros N. destruct (N s) as [[] H]. destruct (m s) as [r s']. simpl in *.
  now subst.
Qed.

(** A step that returns hands its value and its state to the rest. *)
Lemma bind_returns {S A B : Type} (m : ST S A) (k : A -> ST S B) (s s' : S)
  (a : A) (r : result B * S) :
  m s = (Ret a, s') -> k a s' = r -> bind m k s = r.
Proof. intros H K. unfold bind. now rewrite H. Qed.

(** The body of [process] once the text layer has been read: the
    fallback, the analysis and the clean-up follow without an exception,
    and the dict is built from the locals they leave. *)
Lemma process_body_stages (llm : option LLMService.service) (path : string)
  (f0 f1 : frame) (pages : nat) :
  direct_extraction E path f0 = (Ret pages, f1) ->
  let f4 := snd (cleanup E
                   (snd (analysis E llm path
                           (snd (fallback E llm path pages f1))))) in
  process_body E llm path f0
  = (Ret (result_of path pages (l_extracted_text f1) f4), f4).
Proof.
  intros D f4. unfold process_body.
  eapply bind_returns; [exact D|].
  eapply bind_returns; [reflexivity|]. cbv zeta.
  eapply bind_returns;
    [exact (returns_unit _ f1 (never_raises_fallback llm path pages))|].
  eapply bind_returns;
    [exact (returns_unit _ _ (never_raises_analysis llm path))|].
  eapply bind_returns; [exact (returns_unit _ _ never_raises_cleanup)|].
  reflexivity.
Qed.

End PDFPipeline.

(** ** Texts *)

Section Strings.

Lemma append_assoc (a b c : string) : ((a ++ b) ++ c = a ++ b ++ c)%string.
Proof. induction a as [|x a IH]; simpl; [reflexivity|now rewrite IH]. Qed.

Lemma append_nil_r (a : string) : (a ++ "" = a)%string.
Proof. induction a as [|x a IH]; simpl; [reflexivity|now rewrite IH]. Qed.

Lemma length_append (a b : string) :
  String.length (a ++ b) = (String.length a + String.length b)%nat.
Proof. induction a as [|x a IH]; simpl; [reflexivity|now rewrite IH]. Qed.

Lemma slice_to_length (n : Z) (s : string) :
  0 <= n -> Z.of_nat (String.length (Text.slice_to n s)) <= n.
Proof.
  revert n; induction s as [|x s IH]; intros n N; simpl; [lia|].
  destruct (Z.leb_spec n 0); simpl; [lia|].
  specialize (IH (n - 1) ltac:(lia)). lia.
Qed.

Lemma slice_to_prefix (n : Z) (s : string) :
  exists rest, s = (Text.slice_to n s ++ rest)%string.
Proof.
  revert n; induction s as [|x s IH]; intros n; simpl; [now exists ""|].
  destruct (n <=? 0); [now exists (String x s)|].
  destruct (IH (n - 1)) as [rest R]. exists rest. simpl. now rewrite <- R.
Qed.

Lemma slice_to_all (n : Z) (s : string) :
  Z.of_nat (String.length s) <= n -> Text.slice_to n s = s.
Proof.
  revert n; induction s as [|x s IH]; intros n N; simpl in *; [reflexivity|].
  destruct (Z.leb_spec n 0); [lia|]. rewrite IH; [reflexivity|lia].
Qed.

End Strings.

(** ** What the LLM calls leave behind *)

Section Footprints.
Import Text Effects FileProcessors PDFProcessor PDFStages Hoare.

Variable E : Env.

Lemma call_api_keeps (I : World -> Prop) (svc : LLMService.service)
  (system user : string) (max_tokens : Z) :
  api_closed I -> preserves I (LLMService._call_api E svc system user max_tokens).
Proof.
  intros C. unfold LLMService._call_api.
  destruct (negb _); [apply preserves_ret|].
  apply preserves_bind; [|intros ?; apply preserves_lift].
  apply preserves_modify. intros w. apply C.
Qed.

Lemma clean_extraction_keeps (I : World -> Prop) (svc : LLMService.service)
  (txt : string) :
  api_closed I -> preserves I (LLMService.clean_extraction E svc txt).
Proof.
  intros C. unfold LLMService.clean_extraction.
  destruct (negb _); [apply preserves_ret|now apply call_api_keeps].
Qed.

Lemma summarize_content_keeps (I : World -> Prop) (svc : LLMService.service)
  (txt title : option string) :
  api_closed I -> preserves I (LLMService.summarize_content E svc txt title).
Proof.
  intros C. unfold LLMService.summarize_content.
  destruct txt as [txt|]; [|apply preserves_ret].
  destruct (negb _); [apply preserves_ret|now apply call_api_keeps].
Qed.

Lemma extract_tasks_keeps (I : World -> Prop) (svc : LLMService.service)
  (txt : option string) :
  api_closed I -> preserves I (LLMService.extract_tasks E svc txt).
Proof.
  intros C. unfold LLMService.extract_tasks.
  destruct txt as [txt|]; [|apply preserves_ret].
  destruct (negb _); [apply preserves_ret|].
  apply preserves_bind; [now apply call_api_keeps|].
  intros ?; apply preserves_lift.
Qed.

Lemma extract_tags_keeps (I : World -> Prop) (svc : LLMService.service)
  (txt : option string) :
  api_closed I -> preserves I (LLMService.extract_tags E svc txt).
Proof.
  intros C. unfold LLMService.extract_tags.
  destruct txt as [txt|]; [|apply preserves_ret].
  destruct (negb _); [apply preserves_ret|].
  apply preserves_bind; [now apply call_api_keeps|].
  intros ?; apply preserves_lift.
Qed.

(** The LLM branch of the PDF processor keeps every property of the
    frame that does not depend on the four locals it assigns and that is
    kept when text requests are recorded. *)
Lemma llm_processing_keeps (J : frame -> Prop) (svc : LLMService.service)
  (path : string) :
  (forall f v, J f -> J (set_raw_text v f)) ->
  (forall f v, J f -> J (set_processed_text v f)) ->
  (forall f v, J f -> J (set_tasks v f)) ->
  (forall f v, J f -> J (set_tags v f)) ->
  (forall f, api_closed (fun w => J (set_world w f))) ->
  preserves J (llm_processing E svc path).
Proof.
  intros HR HP HT HG HW. unfold llm_processing, logged_slice.
  apply preserves_try.
  - repeat first
      [ apply preserves_ret | apply preserves_raise | apply preserves_gets
      | apply preserves_modify; intros; solve [auto]
      | apply preserves_bind; [|intros ?]
      | apply preserves_in_world; intros ?
      | apply clean_extraction_keeps; solve [auto]
      | apply summarize_content_keeps; solve [auto]
      | apply extract_tasks_keeps; solve [auto]
      | apply extract_tags_keeps; solve [auto]
      | match goal with
        | |- preserves _ (match ?x with _ => _ end) => destruct x
        end ].
  - intros e.
    repeat first
      [ apply preserves_gets
      | apply preserves_modify; intros; solve [auto]
      | apply preserves_bind; [|intros ?] ].
Qed.

End Footprints.

(** ** The text layer *)

Section TextLayer.
Import Text Effects FileProcessors PDFProcessor PDFStages Hoare.

Variable E : Env.

Lemma set_extracted_text_same (f : frame) :
  set_extracted_text (l_extracted_text f) f = f.
Proof. now destruct f. Qed.

(** The loop over readable pages appends the text layer. *)
Lemma pages_loop (pages : list (result (option string))) (f : frame) :
  readable pages ->
  for_each pages
    (fun page =>
       bind (lift page) (fun page_text =>
       match page_text with
       | Some t =>
           when (str_truthy t)
             (modify (fun f =>
                        set_extracted_text (l_extracted_text f ++ t ++ NL ++ NL)
                          f))
       | None => ret tt
       end)) f
  = (Ret tt, set_extracted_text (l_extracted_text f ++ text_layer pages) f).
Proof.
  intros R. revert f. induction R as [|p pages [t ->] _ IH]; intros f.
  - simpl. now rewrite append_nil_r, set_extracted_text_same.
  - cbn [for_each]. unfold bind at 1. unfold bind at 1. unfold lift at 1.
    destruct t as [t|]; cbn [text_layer].
    + destruct (str_truthy t); cbn [when].
      * unfold modify at 1. rewrite IH. cbn [l_extracted_text set_extracted_text].
        now rewrite !append_assoc.
      * unfold ret at 1. apply IH.
    + unfold ret at 1. apply IH.
Qed.

Lemma direct_extraction_readable (path : string)
  (pages : list (result (option string))) (f : frame) :
  pdf_pages E path = Ret pages -> readable pages ->
  direct_extraction E path f
  = (Ret (List.length pages),
     set_extracted_text (l_extracted_text f ++ text_layer pages) f).
Proof.
  intros P R. unfold direct_extraction. unfold bind at 1. unfold lift at 1.
  rewrite P. unfold bind at 1. now rewrite (pages_loop pages f R).
Qed.

Lemma direct_extraction_keeps (J : frame -> Prop) (path : string) :
  (forall f v, J f -> J (set_extracted_text v f)) ->
  preserves J (direct_extraction E path).
Proof.
  intros HX. unfold direct_extraction.
  apply preserves_bind; [apply preserves_lift|intros pages].
  apply preserves_bind; [|intros ?; apply preserves_ret].
  apply preserves_for_each. intros page.
  apply preserves_bind; [apply preserves_lift|intros [t|]];
    [|apply preserves_ret].
  apply preserves_when, preserves_modify. auto.
Qed.

Lemma basic_extraction_keeps (J : frame -> Prop) :
  (forall f v, J f -> J (set_tasks v f)) ->
  (forall f v, J f -> J (set_tags v f)) ->
  preserves J basic_extraction.
Proof.
  intros HT HG. unfold basic_extraction.
  apply preserves_bind; [apply preserves_gets|intros x].
  apply preserves_bind; [apply preserves_modify; auto|intros ?].
  apply preserves_modify; auto.
Qed.

Lemma cleanup_nothing (f : frame) :
  l_temp_images f = [] -> cleanup E f = (Ret tt, f).
Proof.
  intros T. unfold cleanup, bind, gets. now rewrite T.
Qed.

(** [process] on a document whose pages can all be read. *)
Lemma run_readable (llm : option LLMService.service) (path : string)
  (pages : list (result (option string))) (w : World) :
  pdf_pages E path = Ret pages -> readable pages ->
  let f1 := set_extracted_text (text_layer pages) (initial w) in
  let f4 := snd (cleanup E
                   (snd (analysis E llm path
                           (snd (fallback E llm path (List.length pages)
                                   f1))))) in
  run E llm path w
  = (Ret (result_of path (List.length pages) (text_layer pages) f4), f4).
Proof.
  intros P R f1 f4. unfold run, try_except.
  rewrite (process_body_stages E llm path (initial w) f1 (List.length pages)).
  - reflexivity.
  - now rewrite (direct_extraction_readable path pages (initial w) P R).
Qed.

(** [process] returns a dict whatever happens. *)
Lemma run_returns (llm : option LLMService.service) (path : string)
  (w : World) : exists x, fst (run E llm path w) = Ret x.
Proof.
  unfold run. apply never_raises_try. intros e. apply never_raises_ret.
Qed.

(** A property of the locals and the world that holds at the start and
    that the four stages keep holds at the end. *)
Lemma run_keeps (J : frame -> Prop) (llm : option LLMService.service)
  (path : string) (w : World) :
  J (initial w) ->
  preserves J (direct_extraction E path) ->
  (forall pages, preserves J (fallback E llm path pages)) ->
  preserves J (analysis E llm path) ->
  preserves J (cleanup E) ->
  J (snd (run E llm path w)).
Proof.
  intros J0 K1 K2 K3 K4. unfold run, try_except.
  destruct (direct_extraction E path (initial w)) as [[pages|e] f1] eqn:D.
  - rewrite (process_body_stages E llm path (initial w) f1 pages D).
    cbn [snd]. apply K4, K3, K2.
    specialize (K1 (initial w) J0). now rewrite D in K1.
  - assert (B : process_body E llm path (initial w) = (Raise e, f1)).
    { unfold process_body. unfold bind at 1. now rewrite D. }
    rewrite B, isinstance_Exception. cbn [snd ret].
    specialize (K1 (initial w) J0). now rewrite D in K1.
Qed.

End TextLayer.

(** ** A PDF without the LLM service *)

Section PlainPDF.
Import Text Effects FileProcessors PDFProcessor PDFStages Hoare.

Variable E : Env.

Lemma process_world (llm : option LLMService.service) (path : string)
  (w : World) :
  snd (process E llm path w) = world (snd (run E llm path w)).
Proof.
  unfold process. now destruct (run E llm path w) as [[x|e] f].
Qed.

Lemma process_result (llm : option LLMService.service) (path : string)
  (w : World) (x : extraction) (f : frame) :
  run E llm path w = (Ret x, f) ->
  fst (process E llm path w) = Ret (Some x).
Proof. intros R. unfold process. now rewrite R. Qed.

Lemma plain_run_world (path : string) (w : World) :
  world (snd (run E None path w)) = w
  /\ l_temp_images (snd (run E None path w)) = [].
Proof.
  apply (run_keeps E (fun f => world f = w /\ l_temp_images f = [])).
  - split; reflexivity.
  - apply direct_extraction_keeps. intros f v H. exact H.
  - intros pages. unfold fallback.
    apply preserves_bind; [apply preserves_gets|intros ?; apply preserves_ret].
  - apply basic_extraction_keeps; intros f v H; exact H.
  - intros f [H T]. now rewrite (cleanup_nothing E f T).
Qed.

End PlainPDF.

(** X10. Without an LLM service [PDFProcessor.process] stays inside the
    document: it renders no page, runs no OCR, sends no request and
    writes or removes no file, whatever the document is. When every page
    can be read, the raw text is the text layer (each non-empty page text
    followed by a blank line), or the notice that no text could be
    extracted when the layer is empty; there is no processed text; tasks
    and tags are the ones the markers and hashtags of the text layer
    give, the tags [pdf] and [scan] standing in for an empty layer. *)
Theorem pdf_without_llm_reads_the_text_layer :
  forall (E : Env) (path : string) (w : World),
    snd (PDFProcessor.process E None path w) = w
    /\ forall pages,
         pdf_pages E path = Ret pages -> PDFStages.readable pages ->
         let layer := PDFStages.text_layer pages in
         exists x,
           fst (PDFProcessor.process E None path w) = Ret (Some x)
           /\ raw_text x
              = (if str_truthy layer then layer
                 else "No text could be extracted - may be image-based PDF")
           /\ processed_text x = None
           /\ tasks x = str_list (_extract_tasks layer)
           /\ tags x
              = match _extract_tags layer with
                | [] => if str_truthy layer then str_list []
                        else str_list ["pdf"; "scan"]
                | found => str_list found
                end.
Proof.
  intros E path w. split.
  - rewrite process_world. apply plain_run_world.
  - intros pages P R layer.
    pose proof (run_readable E None path pages w P R) as H. cbv zeta in H.
    eexists. split; [eapply process_result; exact H|].
    unfold PDFStages.fallback, PDFStages.analysis.
    cbn [bind gets ret snd PDFProcessor.basic_extraction modify].
    rewrite cleanup_nothing by reflexivity.
    split; [|split; [reflexivity|split; [reflexivity|]]].
    2:{ cbv zeta.
        cbn [snd PDFStages.result_of tags PDFProcessor.l_tags
               PDFProcessor.l_extracted_text PDFProcessor.set_tags
               PDFProcessor.set_tasks PDFProcessor.set_extracted_text
               PDFProcessor.initial].
        fold layer. destruct (_extract_tags layer); reflexivity. }
    cbn [snd PDFStages.result_of raw_text
           PDFProcessor.l_raw_text PDFProcessor.l_extracted_text
           PDFProcessor.l_ocr_text PDFProcessor.set_tags PDFProcessor.set_tasks
           PDFProcessor.set_extracted_text PDFProcessor.initial].
    unfold PDFProcessor.fallback_raw_text. fold layer.
    change (str_truthy "") with false. rewrite andb_false_r.
    destruct (str_truthy layer); reflexivity.
Qed.

Lemma pdf_without_llm_reads_the_text_layer_witness :
  exists x,
    fst (PDFProcessor.process
           (Sample.env [] [("notes.pdf", Ret [Ret (Some "TODO: call Ann #work")])]
              Sample.no_renderer Sample.no_fitz Sample.no_ocr Sample.offline)
           None "notes.pdf" Sample.world0) = Ret (Some x)
    /\ raw_text x = "TODO: call Ann #work" ++ Text.NL ++ Text.NL.
Proof.
  destruct (proj2 (pdf_without_llm_reads_the_text_layer
                     (Sample.env [] [("notes.pdf",
                                      Ret [Ret (Some "TODO: call Ann #work")])]
                        Sample.no_renderer Sample.no_fitz Sample.no_ocr
                        Sample.offline)
                     "notes.pdf" Sample.world0)
              [Ret (Some "TODO: call Ann #work")] eq_refl
              ltac:(repeat constructor; eexists; reflexivity))
    as [x [H1 [H2 _]]].
  exists x. split; [exact H1|exact H2].
Defined.

(** ** A PDF with a text layer and the LLM service *)

Ltac keep_with side :=
  repeat first
    [ apply preserves_ret | apply preserves_raise | apply preserves_gets
    | apply preserves_lift
    | apply preserves_modify; solve [side]
    | apply preserves_bind; [|intros ?]
    | apply preserves_try; [|intros ?]
    | apply preserves_when
    | apply preserves_in_world; intros ?
    | apply clean_extraction_keeps; solve [side]
    | apply summarize_content_keeps; solve [side]
    | apply extract_tasks_keeps; solve [side]
    | apply extract_tags_keeps; solve [side]
    | match goal with
      | |- preserves _ (match ?x with _ => _ end) => destruct x
      end ].

Ltac plain_side :=
  unfold PDFStages.api_closed; intros; cbv beta in *; simpl in *; auto.

Section TextRichPDF.
Import Text Effects FileProcessors PDFProcessor PDFStages Hoare.

Variable E : Env.

Lemma keeps_at {S A : Type} (J : S -> Prop) (m : ST S A) (s : S) :
  preserves J m -> J s -> J (snd (m s)).
Proof. intros P H. now apply P. Qed.

Ltac raw_text_kept :=
  match goal with
  | |- l_raw_text (snd (?m ?s)) = ?v =>
      apply (keeps_at (fun f => l_raw_text f = v) m s)
  end.

(** [try] around a sequence: the first step decides. *)
Lemma try_bind {S A B : Type} (m : ST S A) (k : A -> ST S B) (c : exn_class)
  (h : exn -> ST S B) (s : S) :
  try_except (bind m k) c h s
  = match m s with
    | (Ret a, s') => try_except (k a) c h s'
    | (Raise e, s') => if isinstance e c then h e s' else (Raise e, s')
    end.
Proof.
  unfold try_except, bind. destruct (m s) as [[a|e] s']; reflexivity.
Qed.

Lemma try_bind_bind {S A B C : Type} (m : ST S A) (k : A -> ST S B)
  (k' : B -> ST S C) (c : exn_class) (h : exn -> ST S C) (s : S) :
  try_except (bind (bind m k) k') c h s
  = try_except (bind m (fun a => bind (k a) k')) c h s.
Proof.
  unfold try_except, bind. destruct (m s) as [[a|e] s']; reflexivity.
Qed.

Lemma full_text_without_ocr (extracted : string) :
  full_text_of extracted "" = extracted.
Proof.
  unfold full_text_of. change (str_truthy "") with false. cbn [andb].
  destruct (str_truthy extracted) eqn:T; [reflexivity|].
  unfold str_truthy in T. apply negb_false_iff, String.eqb_eq in T. now subst.
Qed.

(** Which raw text the LLM branch binds for a document with a text layer
    and no OCR text: the reply of the clean extraction when there is
    one. *)
Lemma llm_raw_text (svc : LLMService.service) (path : string) (f : frame) :
  l_raw_text f = None ->
  str_truthy (l_extracted_text f) = true ->
  l_ocr_text f = "" ->
  l_raw_text (snd (llm_processing E svc path f))
  = match fst (LLMService.clean_extraction E svc
                 (extraction_prompt path (l_extracted_text f)) (world f)) with
    | Ret (Some cleaned) => if str_truthy cleaned then Some cleaned else None
    | _ => None
    end.
Proof.
  intros N T O. unfold llm_processing.
  rewrite try_bind. cbn [gets]. rewrite try_bind. cbn [gets].
  rewrite T, O. cbn [negb andb]. rewrite full_text_without_ocr. cbv zeta.
  rewrite try_bind_bind, try_bind.
  change ("Here is the content extracted from the PDF file '" ++ basename path
          ++ "'. Please format this content clearly and readably, preserving the key information:"
          ++ NL ++ NL ++ l_extracted_text f)
    with (extraction_prompt path (l_extracted_text f)).
  unfold in_world at 1.
  destruct (LLMService.clean_extraction E svc
              (extraction_prompt path (l_extracted_text f)) (world f))
    as [[[cleaned|]|e] w1]; cbn [fst].
  - destruct (str_truthy cleaned).
    + rewrite try_bind_bind, try_bind. cbn [modify].
      raw_text_kept; [|reflexivity].
      unfold logged_slice. keep_with plain_side.
    + raw_text_kept; [|exact N].
      unfold logged_slice. keep_with plain_side.
  - raw_text_kept; [|exact N].
    unfold logged_slice. keep_with plain_side.
  - rewrite isinstance_Exception.
    raw_text_kept; [|exact N].
    keep_with plain_side.
Qed.

End TextRichPDF.

Section TextRichRun.
Import Text Effects FileProcessors PDFProcessor PDFStages Hoare.

Variable E : Env.

Lemma only_requests_refl (w : World) : only_requests w w.
Proof.
  repeat split. exists []. split; [now rewrite app_nil_r|reflexivity].
Qed.

Lemma only_requests_closed (w0 : World) : api_closed (only_requests w0).
Proof.
  intros w rq [D [S [O [evs [T A]]]]]. repeat split; try assumption.
  exists (evs ++ [EvApi rq])%list. simpl. rewrite T, app_assoc. split;
    [reflexivity|]. rewrite forallb_app, A. reflexivity.
Qed.

(** The LLM branch only sends text requests, and leaves the locals of the
    image path alone. *)
Lemma llm_processing_only_requests (svc : LLMService.service) (path : string)
  (w0 : World) (temp : list string) (extracted ocr_txt : string)
  (attempted : bool) :
  preserves (fun f => only_requests w0 (world f)
                      /\ l_temp_images f = temp
                      /\ l_extracted_text f = extracted
                      /\ l_ocr_text f = ocr_txt
                      /\ l_images_extracted f = attempted)
    (llm_processing E svc path).
Proof.
  apply llm_processing_keeps; try (intros f v H; exact H).
  intros f w rq [H R]. split; [|exact R].
  now apply only_requests_closed.
Qed.

End TextRichRun.

(** X11. For a PDF whose pages can all be read and whose text layer is
    not empty and has at least 20 words per page, [PDFProcessor.process]
    with an LLM service never enters the image path: no page is rendered,
    written, read by OCR or sent to the vision model; all it does outside
    is to send text requests to the model. The raw text it returns is the
    reply of the clean-extraction request when that reply is a non-empty
    text, and the text layer otherwise. *)
Theorem text_rich_pdf_is_not_rendered :
  forall (E : Env) (svc : LLMService.service) (path : string) (w : World)
         (pages : list (result (option string))),
    pdf_pages E path = Ret pages ->
    PDFStages.readable pages ->
    str_truthy (PDFStages.text_layer pages) = true ->
    PDFProcessor.might_be_handwritten
      (PDFProcessor.word_count (PDFStages.text_layer pages))
      (List.length pages) = false ->
    let layer := PDFStages.text_layer pages in
    let r := PDFProcessor.process E (Some svc) path w in
    PDFStages.only_requests w (snd r)
    /\ exists x,
         fst r = Ret (Some x)
         /\ raw_text x
            = match fst (LLMService.clean_extraction E svc
                           (PDFStages.extraction_prompt path layer) w) with
              | Ret (Some cleaned) =>
                  if str_truthy cleaned then cleaned else layer
              | _ => layer
              end.
Proof.
  intros E svc path w pages P R T M layer r.
  pose proof (run_readable E (Some svc) path pages w P R) as H. cbv zeta in H.
  set (f1 := PDFProcessor.set_extracted_text (PDFStages.text_layer pages)
               (PDFProcessor.initial w)) in *.
  assert (F2 : snd (PDFStages.fallback E (Some svc) path (List.length pages) f1)
               = f1).
  { unfold PDFStages.fallback. cbn [bind gets].
    change (PDFProcessor.l_extracted_text f1) with (PDFStages.text_layer pages).
    rewrite T, M. reflexivity. }
  rewrite F2 in H. cbn [PDFStages.analysis] in H.
  set (f3 := snd (PDFProcessor.llm_processing E svc path f1)) in *.
  assert (J : PDFStages.only_requests w (PDFProcessor.world f3)
              /\ PDFProcessor.l_temp_images f3 = []
              /\ PDFProcessor.l_extracted_text f3 = layer
              /\ PDFProcessor.l_ocr_text f3 = ""
              /\ PDFProcessor.l_images_extracted f3 = false).
  { apply (llm_processing_only_requests E svc path w [] layer "" false f1).
    repeat split. apply only_requests_refl. }
  destruct J as [J1 [J2 [J3 [J4 _]]]].
  rewrite (cleanup_nothing E f3 J2) in H. cbn [snd] in H.
  split.
  - unfold r. rewrite process_world, H. exact J1.
  - eexists. split; [unfold r; eapply process_result; exact H|].
    cbn [raw_text PDFStages.result_of]. rewrite J3, J4.
    unfold f3. rewrite (llm_raw_text E svc path f1 eq_refl T eq_refl).
    change (PDFProcessor.l_extracted_text f1) with layer.
    change (PDFProcessor.world f1) with w.
    assert (L : PDFProcessor.fallback_raw_text layer "" = layer).
    { unfold PDFProcessor.fallback_raw_text.
      change (str_truthy "") with false. rewrite andb_false_r.
      unfold layer. now rewrite T. }
    destruct (fst (LLMService.clean_extraction E svc
                     (PDFStages.extraction_prompt path layer) w))
      as [[cleaned|]|e]; try exact L.
    destruct (str_truthy cleaned); [reflexivity|exact L].
Qed.

Lemma text_rich_pdf_is_not_rendered_witness :
  PDFStages.only_requests Sample.world0
    (snd (PDFProcessor.process
            (Sample.env []
               [("report.pdf",
                 Ret [Ret (Some "one two three four five six seven eight nine ten eleven twelve thirteen fourteen fifteen sixteen seventeen eighteen nineteen twenty")])]
               Sample.no_renderer Sample.no_fitz Sample.no_ocr
               (Sample.always "Clean text."))
            (Some Sample.service) "report.pdf" Sample.world0)).
Proof.
  refine (proj1 (text_rich_pdf_is_not_rendered
                   (Sample.env []
                      [("report.pdf",
                        Ret [Ret (Some "one two three four five six seven eight nine ten eleven twelve thirteen fourteen fifteen sixteen seventeen eighteen nineteen twenty")])]
                      Sample.no_renderer Sample.no_fitz Sample.no_ocr
                      (Sample.always "Clean text."))
                   Sample.service "report.pdf" Sample.world0
                   [Ret (Some "one two three four five six seven eight nine ten eleven twelve thirteen fourteen fifteen sixteen seventeen eighteen nineteen twenty")]
                   _ _ _ _)).
  - reflexivity.
  - repeat constructor. eexists. reflexivity.
  - reflexivity.
  - vm_compute. reflexivity.
Defined.

(** ** A PDF that pdf2image renders *)

Section RenderedPDF.
Import Text Effects FileProcessors PDFProcessor PDFStages Hoare.

Variable E : Env.
Variable path : string.
Variable n : nat.
Hypothesis imported : import_pdf2image E = None.
Hypothesis rendered : convert_from_path E path = Ret n.

(** The image path when [convert_from_path] returns: the flag
    [images_extracted] is set at once, the block that writes the pages is
    skipped, and the loop over [page_images] has nothing to visit. *)
Lemma image_fallback_rendered (svc : LLMService.service) (f : frame) :
  image_fallback E svc path f
  = (Ret tt,
     set_combined_text ""
       (set_images_extracted true
          (set_images (Some n)
             (set_world
                (with_trace (world f)
                   (trace (world f) ++ [EvConvertFromPath path]))
                (set_page_images [] f))))).
Proof.
  unfold image_fallback, render_pages, save_pdf2image_pages.
  rewrite imported.
  cbv [try_except bind ret modify gets lift in_world emit when].
  cbn [world set_page_images]. rewrite rendered. reflexivity.
Qed.

Lemma no_page_work_refl (w : World) : no_page_work w w.
Proof.
  split; [reflexivity|]. exists []. split; [now rewrite app_nil_r|reflexivity].
Qed.

Lemma no_page_work_step (w0 w : World) (ev : event) :
  page_event ev = false -> no_page_work w0 w ->
  no_page_work w0 (with_trace w (trace w ++ [ev])).
Proof.
  intros P [D [evs [T A]]]. split; [exact D|].
  exists (evs ++ [ev])%list. simpl. rewrite T, app_assoc. split; [reflexivity|].
  rewrite forallb_app, A. simpl. now rewrite P.
Qed.

Lemma unread_analysis (llm : option LLMService.service) (w0 : World) :
  preserves (unread w0) (analysis E llm path).
Proof.
  destruct llm as [svc|]; simpl.
  - apply llm_processing_keeps; try (intros f v H; exact H).
    intros f w rq [H R]. split; [|exact R].
    now apply no_page_work_step.
  - apply basic_extraction_keeps; intros f v H; exact H.
Qed.

Lemma unread_fallback (llm : option LLMService.service) (w0 : World)
  (pages : nat) : preserves (unread w0) (fallback E llm path pages).
Proof.
  unfold fallback. apply preserves_bind; [apply preserves_gets|intros x].
  destruct llm as [svc|]; [|apply preserves_ret].
  apply preserves_when. intros f [H [P [T O]]].
  rewrite image_fallback_rendered. cbn [snd]. unfold unread.
  cbn [world l_page_images l_temp_images l_ocr_text set_combined_text
         set_images_extracted set_images set_world set_page_images].
  split; [now apply no_page_work_step|].
  split; [reflexivity|]. split; assumption.
Qed.

Lemma unread_run (llm : option LLMService.service) (w : World) :
  unread w (snd (run E llm path w)).
Proof.
  apply (run_keeps E (unread w)).
  - split; [apply no_page_work_refl|]. split; [reflexivity|].
    split; reflexivity.
  - apply direct_extraction_keeps. intros f v H. exact H.
  - intros pages. apply unread_fallback.
  - apply unread_analysis.
  - intros f [H [P [T O]]]. rewrite (cleanup_nothing E f T).
    split; [exact H|]. split; [exact P|]. split; assumption.
Qed.

Lemma attempted_analysis (svc : LLMService.service) :
  preserves (attempted path) (llm_processing E svc path).
Proof.
  apply llm_processing_keeps; try (intros f v H; exact H).
  intros f w rq [H R]. split; [|exact R]. simpl.
  apply in_or_app. now left.
Qed.

End RenderedPDF.

(** X12. When pdf2image is installed and renders the document,
    [PDFProcessor.process] handles none of the rendered pages: the flag
    [images_extracted] is set as soon as [convert_from_path] returns, so
    the block that writes the page images is skipped and the loop over
    the page images is empty. No page image is written, read by OCR or
    sent to the vision model, and the disk is as before. If the fallback
    was entered (an LLM service, a readable document, an empty or sparse
    text layer), the rendering did take place and the metadata of the
    result says [ocr_attempted: True] and [ocr_success: False]. *)
Theorem pages_rendered_by_pdf2image_are_never_read :
  forall (E : Env) (llm : option LLMService.service) (path : string)
         (w : World) (n : nat),
    import_pdf2image E = None ->
    convert_from_path E path = Ret n ->
    let r := PDFProcessor.process E llm path w in
    PDFStages.no_page_work w (snd r)
    /\ forall svc pages,
         llm = Some svc ->
         pdf_pages E path = Ret pages ->
         PDFStages.readable pages ->
         negb (str_truthy (PDFStages.text_layer pages))
         || PDFProcessor.might_be_handwritten
              (PDFProcessor.word_count (PDFStages.text_layer pages))
              (List.length pages) = true ->
         In (EvConvertFromPath path) (trace (snd r))
         /\ exists x m,
              fst r = Ret (Some x) /\ metadata x = Some m
              /\ In ("ocr_attempted", DB.MBool true) m
              /\ In ("ocr_success", DB.MBool false) m.
Proof.
  intros E llm path w n I C r. split.
  - unfold r. rewrite process_world.
    apply (unread_run E path n I C llm w).
  - intros svc pages -> P R B.
    pose proof (run_readable E (Some svc) path pages w P R) as H.
    cbv zeta in H.
    set (f1 := PDFProcessor.set_extracted_text (PDFStages.text_layer pages)
                 (PDFProcessor.initial w)) in *.
    assert (A2 : PDFStages.attempted path
                   (snd (PDFStages.fallback E (Some svc) path
                           (List.length pages) f1))).
    { unfold PDFStages.fallback. cbn [bind gets].
      change (PDFProcessor.l_extracted_text f1)
        with (PDFStages.text_layer pages).
      rewrite B. cbn [when].
      rewrite (image_fallback_rendered E path n I C). cbn [snd].
      split; [|split; [reflexivity|split; reflexivity]].
      cbn [PDFProcessor.world PDFProcessor.set_combined_text
             PDFProcessor.set_images_extracted PDFProcessor.set_images
             PDFProcessor.set_world trace with_trace].
      apply in_or_app. right. now left. }
    cbn [PDFStages.analysis] in H.
    apply (attempted_analysis E path svc) in A2.
    destruct A2 as [A [X [O T]]].
    rewrite (cleanup_nothing E _ T) in H. cbn [snd] in H.
    split.
    + unfold r. rewrite process_world, H. exact A.
    + do 2 eexists. split; [unfold r; eapply process_result; exact H|].
      split; [reflexivity|]. rewrite X, O. split.
      * do 3 right. now left.
      * do 4 right. now left.
Qed.

Lemma pages_rendered_by_pdf2image_are_never_read_witness :
  PDFStages.no_page_work Sample.world0
    (snd (PDFProcessor.process
            (Sample.env [] [("scan.pdf", Ret [Ret (Some "")])]
               (fun _ => Ret 1%nat) Sample.no_fitz
               (fun _ => Ret "A long enough line of recognised text, well over fifty characters in total.")
               (Sample.always "Transcribed page."))
            (Some Sample.service) "scan.pdf" Sample.world0)).
Proof.
  refine (proj1 (pages_rendered_by_pdf2image_are_never_read
                   (Sample.env [] [("scan.pdf", Ret [Ret (Some "")])]
                      (fun _ => Ret 1%nat) Sample.no_fitz
                      (fun _ => Ret "A long enough line of recognised text, well over fifty characters in total.")
                      (Sample.always "Transcribed page."))
                   (Some Sample.service) "scan.pdf" Sample.world0 1%nat
                   _ _)); reflexivity.
Defined.

(** ** The temporary page images *)

Section TemporaryImages.
Import Text Effects FileProcessors PDFProcessor PDFStages Hoare.

Variable E : Env.

Lemma save_closed_api (I : World -> Prop) : save_closed I -> api_closed I.
Proof. intros [C _] w rq H. now apply C. Qed.

Lemma emit_keeps (I : World -> Prop) (ev : event) :
  save_closed I -> is_save ev = false -> preserves I (emit ev).
Proof. intros [C _] N. apply preserves_modify. intros w. now apply C. Qed.

Lemma ocr_keeps (I : World -> Prop) (img : string) :
  save_closed I -> preserves I (ocr E img).
Proof.
  intros C. unfold ocr.
  apply preserves_bind; [now apply emit_keeps|intros ?; apply preserves_lift].
Qed.

Lemma analyze_image_keeps (I : World -> Prop) (svc : LLMService.service)
  (img prompt : string) :
  save_closed I -> preserves I (LLMService.analyze_image E svc img prompt).
Proof.
  intros C. unfold LLMService.analyze_image, LLMService._call_api_with_image,
              on_disk.
  apply preserves_bind; [apply preserves_gets|intros present].
  destruct (_ || _); [apply preserves_ret|].
  apply preserves_try; [|intros ?; apply preserves_ret].
  destruct (negb _); [apply preserves_ret|].
  apply preserves_bind; [apply preserves_gets|intros readable].
  destruct (negb readable); [apply preserves_ret|].
  apply preserves_bind; [now apply emit_keeps|intros ?; apply preserves_lift].
Qed.

Lemma remove_keeps (I : World -> Prop) (img : string) :
  save_closed I -> preserves I (remove E img).
Proof.
  intros C. unfold remove.
  apply preserves_bind; [now apply emit_keeps|intros ?].
  destruct (remove_error E img); [apply preserves_raise|].
  apply preserves_modify. intros w. apply (proj2 C).
Qed.

(** With the locals fixed, [recorded] is such a property of the world. *)
Lemma recorded_closed (w0 : World) (f : frame) :
  save_closed (fun w => recorded w0 (set_world w f)).
Proof.
  split.
  - intros w ev N [evs [T R]]. exists (evs ++ [ev])%list. simpl in *.
    rewrite T, app_assoc. split; [reflexivity|].
    intros p H. apply in_app_or in H as [H|[H|[]]]; [now apply R|].
    subst ev. discriminate.
  - intros w d H. exact H.
Qed.

(** Writing a page image records it. *)
Lemma keep_page_image_recorded (w0 : World) (p : string) :
  preserves (recorded w0) (keep_page_image p).
Proof.
  intros f [evs [T R]]. unfold keep_page_image.
  cbv [bind in_world create_image modify]. cbn [snd].
  exists (evs ++ [EvSavePage p])%list. simpl. rewrite T, app_assoc.
  split; [reflexivity|]. intros q H. apply in_or_app.
  apply in_app_or in H as [H|[H|[]]]; [left; now apply R|right].
  inversion H. now left.
Qed.

End TemporaryImages.

Ltac keep_recorded :=
  repeat first
    [ apply keep_page_image_recorded
    | apply emit_keeps; [apply recorded_closed|reflexivity]
    | apply ocr_keeps; apply recorded_closed
    | apply analyze_image_keeps; apply recorded_closed
    | apply remove_keeps; apply recorded_closed
    | apply preserves_ret | apply preserves_raise | apply preserves_gets
    | apply preserves_lift
    | apply preserves_modify; intros ? H; exact H
    | apply preserves_bind; [|intros ?]
    | apply preserves_try; [|intros ?]
    | apply preserves_when
    | apply preserves_for_each; intros ?
    | apply preserves_in_world; intros ?
    | match goal with
      | |- preserves _ (match ?x with _ => _ end) => destruct x
      end ].

Section CleanUp.
Import Text Effects FileProcessors PDFProcessor PDFStages Hoare.

Variable E : Env.

Lemma image_fallback_recorded (w0 : World) (svc : LLMService.service)
  (path : string) : preserves (recorded w0) (image_fallback E svc path).
Proof.
  unfold image_fallback, render_pages, render_with_fitz, save_pdf2image_pages,
    ocr_page, vision_page.
  keep_recorded.
Qed.

Lemma fallback_recorded (w0 : World) (llm : option LLMService.service)
  (path : string) (pages : nat) :
  preserves (recorded w0) (fallback E llm path pages).
Proof.
  unfold fallback. apply preserves_bind; [apply preserves_gets|intros x].
  destruct llm as [svc|]; [|apply preserves_ret].
  apply preserves_when, image_fallback_recorded.
Qed.

Lemma analysis_recorded (w0 : World) (llm : option LLMService.service)
  (path : string) : preserves (recorded w0) (analysis E llm path).
Proof.
  destruct llm as [svc|]; simpl.
  - apply llm_processing_keeps; try (intros f v H; exact H).
    intros f. apply save_closed_api, recorded_closed.
  - apply basic_extraction_keeps; intros f v H; exact H.
Qed.

Lemma cleanup_recorded (w0 : World) : preserves (recorded w0) (cleanup E).
Proof. unfold cleanup. keep_recorded. Qed.

Hypothesis removable : forall p, remove_error E p = None.

(** One round of the clean-up loop. *)
Lemma cleanup_round (p : string) (f : frame) :
  exists f',
    try_except
      (bind (in_world (on_disk p)) (fun present =>
       when present (in_world (remove E p))))
      Exception (fun _ => ret tt) f = (Ret tt, f')
    /\ l_temp_images f' = l_temp_images f
    /\ ~ In p (disk (world f'))
    /\ forall q, In q (disk (world f')) -> In q (disk (world f)).
Proof.
  unfold try_except, bind, in_world, on_disk, gets.
  destruct (existsb (String.eqb p) (disk (world f))) eqn:X; cbn [when].
  - unfold remove, bind, emit, modify. rewrite removable.
    eexists. split; [reflexivity|]. cbn. split; [reflexivity|]. split.
    + intros H. apply filter_In in H as [_ H]. now rewrite String.eqb_refl in H.
    + intros q H. now apply filter_In in H as [H _].
  - exists (set_world (world f) f). split; [reflexivity|].
    rewrite set_world_same. split; [reflexivity|]. split; [|auto].
    intros H. apply existsb_eqb_In in H. congruence.
Qed.

(** After the loop none of the images it visited is on disk. *)
Lemma cleanup_loop (l : list string) (f : frame) :
  exists f',
    for_each l
      (fun img_path =>
         try_except
           (bind (in_world (on_disk img_path)) (fun present =>
            when present (in_world (remove E img_path))))
           Exception (fun _ => ret tt)) f = (Ret tt, f')
    /\ l_temp_images f' = l_temp_images f
    /\ (forall p, In p l -> ~ In p (disk (world f')))
    /\ forall q, In q (disk (world f')) -> In q (disk (world f)).
Proof.
  revert f. induction l as [|p l IH]; intros f.
  - exists f. repeat split; auto.
  - destruct (cleanup_round p f) as [f1 [R1 [T1 [N1 S1]]]].
    destruct (IH f1) as [f2 [R2 [T2 [N2 S2]]]].
    exists f2. cbn [for_each]. unfold bind at 1. rewrite R1.
    split; [exact R2|]. split; [congruence|]. split.
    + intros q [<-|H]; [|now apply N2]. intros D. apply N1. now apply S2.
    + intros q D. apply S1. now apply S2.
Qed.

Lemma cleanup_clears (f : frame) :
  l_temp_images (snd (cleanup E f)) = l_temp_images f
  /\ forall p, In p (l_temp_images f) ->
               ~ In p (disk (world (snd (cleanup E f)))).
Proof.
  destruct (cleanup_loop (l_temp_images f) f) as [f' [R [T [N _]]]].
  assert (C : cleanup E f = (Ret tt, f')) by exact R.
  rewrite C. cbn [snd]. split; assumption.
Qed.

Lemma direct_extraction_world (path : string) (f : frame) :
  world (snd (direct_extraction E path f)) = world f.
Proof.
  apply (keeps_at (fun g => world g = world f)); [|reflexivity].
  apply direct_extraction_keeps. intros g v H. exact H.
Qed.

(** How [process] ends: in the [except] branch of a page that could not
    be read, the world untouched, or after the clean-up loop. *)
Lemma run_ends (llm : option LLMService.service) (path : string) (w : World) :
  world (snd (run E llm path w)) = w
  \/ exists f3, recorded w f3 /\ snd (run E llm path w) = snd (cleanup E f3).
Proof.
  unfold run, try_except.
  destruct (direct_extraction E path (initial w)) as [[pages|e] f1] eqn:D.
  - right. rewrite (process_body_stages E llm path (initial w) f1 pages D).
    cbn [snd]. eexists. split; [|reflexivity].
    apply analysis_recorded, fallback_recorded.
    assert (K : recorded w (snd (direct_extraction E path (initial w)))).
    { apply keeps_at.
      - apply direct_extraction_keeps. intros f v H. exact H.
      - exists []. split; [now rewrite app_nil_r|intros p []]. }
    now rewrite D in K.
  - left.
    assert (B : process_body E llm path (initial w) = (Raise e, f1)).
    { unfold process_body. unfold bind at 1. now rewrite D. }
    rewrite B, isinstance_Exception. cbn [snd ret].
    pose proof (direct_extraction_world path (initial w)) as W.
    now rewrite D in W.
Qed.

End CleanUp.

(** X13. When [os.remove] does not fail, every page image that
    [PDFProcessor.process] saved during a run is off the disk when the run
    ends, whatever the libraries and the endpoint do: the trace of the run
    extends the one before it, and no path of a page saved in the extension
    is on disk afterwards. (In the model a page whose rendering or saving
    raises leaves no file.) *)
Theorem saved_page_images_are_removed (E : Env)
  (llm : option LLMService.service) (file_path : string) (w : World) :
  (forall p, remove_error E p = None) ->
  exists evs,
    trace (snd (PDFProcessor.process E llm file_path w))
    = (trace w ++ evs)%list
    /\ forall p, In (EvSavePage p) evs ->
                 ~ In p (disk (snd (PDFProcessor.process E llm file_path w))).
Proof.
  intros removable.
  assert (W : snd (PDFProcessor.process E llm file_path w)
              = PDFProcessor.world (snd (PDFProcessor.run E llm file_path w))).
  { unfold PDFProcessor.process.
    destruct (PDFProcessor.run E llm file_path w) as [[x|e] f]; reflexivity. }
  rewrite W.
  destruct (run_ends E llm file_path w) as [Q|[f3 [R Q]]]; rewrite Q.
  - exists []. split; [now rewrite app_nil_r|intros p []].
  - destruct (cleanup_clears E removable f3) as [T N].
    destruct (cleanup_recorded E w f3 R) as [evs [Tr Sv]].
    exists evs. split; [exact Tr|].
    intros p S. apply N. rewrite <- T. now apply Sv.
Qed.

Lemma saved_page_images_are_removed_witness :
  exists evs,
    trace (snd (PDFProcessor.process
                  (Sample.env [] [("scan.pdf", Ret [Ret (Some ""); Ret None])]
                     Sample.no_renderer (fun _ => Ret [None; None])
                     (fun _ => Ret "A long enough line of recognised text, well over fifty characters in total.")
                     (Sample.always "Transcribed page."))
                  (Some Sample.service) "scan.pdf" Sample.world0))
    = (trace Sample.world0 ++ evs)%list
    /\ forall p, In (EvSavePage p) evs ->
                 ~ In p (disk (snd (PDFProcessor.process
                  (Sample.env [] [("scan.pdf", Ret [Ret (Some ""); Ret None])]
                     Sample.no_renderer (fun _ => Ret [None; None])
                     (fun _ => Ret "A long enough line of recognised text, well over fifty characters in total.")
                     (Sample.always "Transcribed page."))
                  (Some Sample.service) "scan.pdf" Sample.world0))).
Proof.
  apply (saved_page_images_are_removed
           (Sample.env [] [("scan.pdf", Ret [Ret (Some ""); Ret None])]
              Sample.no_renderer (fun _ => Ret [None; None])
              (fun _ => Ret "A long enough line of recognised text, well over fifty characters in total.")
              (Sample.always "Transcribed page."))
           (Some Sample.service) "scan.pdf" Sample.world0).
  intros p. reflexivity.
Defined.

(** ** The folder watcher *)

Section Watcher.
Import Text Effects NotesEventHandler.

Variable E : Env.
Variable processor : NotesProcessor.processor.







End Watcher.



(** ** The digest enhancer *)

Section Enhancer.
Import Text Effects EnhancedProcessor.

Variable E : Env.


End Enhancer.


(** ** The template filter *)

Section Truncation.
Import Text.

Lemma slice_to_exact (n : Z) (s : string) :
  0 <= n <= Z.of_nat (String.length s) ->
  Z.of_nat (String.length (slice_to n s)) = n.
Proof.
  revert n; induction s as [|x s IH]; intros n N; simpl in *; [lia|].
  destruct (Z.leb_spec n 0); simpl; [lia|].
  specialize (IH (n - 1)). lia.
Qed.

End Truncation.

(** X16. For a bound that is not negative, [truncate_text] returns a text
    of at most the bound's length unchanged, and cuts a longer one to its
    first [length] characters followed by three dots: the result of a cut
    is [length + 3] characters long, so a text one or two characters over
    the bound comes out longer than it went in. *)
Theorem truncate_text_cuts_to_the_bound (txt : string) (length : Z) :
  0 <= length ->
  (Z.of_nat (String.length txt) <= length
   /\ WebInterface.truncate_text txt length = txt)
  \/ (length < Z.of_nat (String.length txt)
      /\ exists kept rest,
           txt = kept ++ rest
           /\ Z.of_nat (String.length kept) = length
           /\ WebInterface.truncate_text txt length = kept ++ "..."
           /\ Z.of_nat (String.length (WebInterface.truncate_text txt length))
              = length + 3).
Proof.
  intros N. unfold WebInterface.truncate_text.
  destruct (Z.leb_spec (Z.of_nat (String.length txt)) length) as [L|L].
  - left. split; [exact L|].
    destruct txt; reflexivity.
  - right. split; [exact L|].
    assert (T : str_truthy txt = true) by (destruct txt; [simpl in L; lia|reflexivity]).
    rewrite T. cbn [negb]. unfold WebInterface.slice_upto.
    destruct (Z.ltb_spec length 0); [lia|].
    destruct (slice_to_prefix length txt) as [rest R].
    exists (Text.slice_to length txt), rest.
    split; [exact R|].
    assert (X : Z.of_nat (String.length (Text.slice_to length txt)) = length)
      by (apply slice_to_exact; lia).
    split; [exact X|]. split; [reflexivity|].
    rewrite length_append. simpl. lia.
Qed.

Lemma truncate_text_cuts_to_the_bound_witness :
  (Z.of_nat (String.length "Buy milk today") <= 12
   /\ WebInterface.truncate_text "Buy milk today" 12 = "Buy milk today")
  \/ (12 < Z.of_nat (String.length "Buy milk today")
      /\ exists kept rest,
           "Buy milk today" = kept ++ rest
           /\ Z.of_nat (String.length kept) = 12
           /\ WebInterface.truncate_text "Buy milk today" 12 = kept ++ "..."
           /\ Z.of_nat (String.length
                          (WebInterface.truncate_text "Buy milk today" 12))
              = 12 + 3).
Proof.
  apply (truncate_text_cuts_to_the_bound "Buy milk today" 12). lia.
Defined.

(** ** Finding content by its tag *)

Section ByTag.
Import DB StoreOps.

Variable ft : value -> option string.

Lemma add_tags_files (c : Z) (v : value) (s : store) :
  files (add_tags ft c v s) = files s.
Proof.
  unfold add_tags. destruct (iterate v) as [items|]; [|reflexivity].
  destruct (add_tag_loop ft c items s) as [s'|] eqn:L; [|reflexivity].
  revert s s' L. induction items as [|t items IH]; simpl; intros s s' L.
  - now inversion L.
  - destruct (add_one_tag ft c t s) as [s1|] eqn:A; [|discriminate].
    rewrite (IH _ _ L). unfold add_one_tag in A.
    destruct (bind_text ft t) as [[name|]|]; try discriminate.
    destruct (find_tag name (insert_tag name s)); [|discriminate].
    inversion A; subst. unfold insert_content_tag, insert_tag.
    destruct (existsb _ _), (find_tag name s); reflexivity.
Qed.

Lemma join_file_row (s : store) (r : content_row) (cv : content_view) :
  In cv (join_file s r) -> cv_row cv = r.
Proof.
  unfold join_file. destruct (file_by_id (c_file_id r) s); [|contradiction].
  intros [<-|[]]. reflexivity.
Qed.

Lemma limit_rows_all {A : Type} (limit : Z) (l : list A) :
  Z.of_nat (List.length l) <= limit -> limit_rows limit l = l.
Proof.
  intros L. unfold limit_rows. destruct (limit <? 0); [reflexivity|].
  apply firstn_all2. lia.
Qed.

(** The listing of a tag holds every stored item that is linked to the
    row of that name. *)
Lemma tagged_rows (name : string) (s : store) (t : tag_row) (r : content_row)
  (cv : content_view) :
  find_tag name s = Some t ->
  In (c_id r, t_id t) (content_tags s) ->
  In r (content s) -> In cv (join_file s r) ->
  In cv (get_content_by_tag name (-1) s).
Proof.
  intros F L R J. apply find_tag_name in F as [N T].
  unfold get_content_by_tag. cbn [bindable limit_rows].
  change (bindable (-1)) with true. cbn [limit_rows Z.ltb Z.compare].
  apply sort_by_In, in_flat_map. exists r. split; [exact R|].
  apply in_flat_map. exists cv. split; [exact J|].
  apply in_flat_map. exists (c_id r, t_id t). split; [exact L|].
  cbn [fst snd]. rewrite Z.eqb_refl. apply in_map_iff.
  exists t. split; [reflexivity|]. apply filter_In. split; [exact T|].
  rewrite Z.eqb_refl. cbn. now apply String.eqb_eq.
Qed.

End ByTag.

(** X17. A stored content item (one whose file row exists) that
    [add_tags] has tagged with a list of texts is returned by
    [get_content_by_tag] for each of these tag names, as the same row it
    has in the content listing, whenever the limit is not below the number
    of items that carry the tag. *)
Theorem tagged_content_is_found_by_tag :
  forall (float_text : value -> option string) (names : list string)
         (name : string) (item : DB.content_view) (limit : Z) (s : DB.store),
    In name names ->
    In item (DB.newest_first s) ->
    DB.bindable limit = true ->
    Z.of_nat
      (List.length
         (DB.get_content_by_tag name (-1)
            (DB.add_tags float_text (DB.c_id (DB.cv_row item))
               (VList (map VStr names)) s))) <= limit ->
    In item
      (DB.get_content_by_tag name limit
         (DB.add_tags float_text (DB.c_id (DB.cv_row item))
            (VList (map VStr names)) s)).
Proof.
  intros ft names name item limit s I V B L.
  set (c := DB.c_id (DB.cv_row item)) in *.
  set (s' := DB.add_tags ft c (VList (map VStr names)) s) in *.
  assert (U : DB.get_content_by_tag name limit s'
              = DB.get_content_by_tag name (-1) s').
  { unfold DB.get_content_by_tag in *. rewrite B.
    change (DB.bindable (-1)) with true in *. cbv iota in *.
    rewrite limit_rows_all; [reflexivity|].
    unfold DB.limit_rows in L at 1. exact L. }
  rewrite U.
  unfold DB.newest_first in V. apply sort_by_In, in_flat_map in V as [r [R J]].
  pose proof (join_file_row s r item J) as Er.
  assert (S : StoreOps.settled ft c s' (VStr name)).
  { unfold s', DB.add_tags. simpl.
    destruct (add_tag_loop_texts ft c names s) as [s1 T]. rewrite T.
    destruct (add_tag_loop_settles ft c _ s s1 T) as [S _].
    rewrite Forall_forall in S. apply S. now apply in_map. }
  destruct S as [n [t [Bn [F X]]]]. simpl in Bn. inversion Bn; subst n.
  apply existsb_exists in X as [ct [Ict P]]. apply pair_eqb_eq in P. subst ct.
  apply (tagged_rows name s' t r item F).
  - unfold c in Ict. now rewrite Er in Ict.
  - unfold s'. now rewrite add_tags_content.
  - unfold DB.join_file, DB.file_by_id, s' in *. now rewrite add_tags_files.
Qed.

Lemma tagged_content_is_found_by_tag_witness :
  In (DB.mkCView
        (DB.mkContent 1 1 "text" (Some "notes") None "2025-01-10T09:00:00")
        (Some "document") (Some "notes/todo.txt"))
     (DB.get_content_by_tag "work" 100
        (DB.add_tags Statements.no_floats 1
           (VList (map VStr ["work"; "home"])) Statements.one_note)).
Proof.
  apply (tagged_content_is_found_by_tag Statements.no_floats ["work"; "home"]
           "work"
           (DB.mkCView
              (DB.mkContent 1 1 "text" (Some "notes") None
                 "2025-01-10T09:00:00")
              (Some "document") (Some "notes/todo.txt"))
           100 Statements.one_note).
  - simpl. now left.
  - vm_compute. now left.
  - reflexivity.
  - vm_compute. discriminate.
Defined.

(** ** The tag counts of a digest *)

Section TagCounts.
Import DB Counting DigestGenerator.








Lemma occurrences_present (t : string) (l : list string) :
  In t l -> (0 < occurrences t l)%nat.
Proof.
  unfold occurrences. induction l as [|y l IH]; simpl; [contradiction|].
  destruct (String.eqb_spec t y) as [->|N]; simpl; [lia|].
  intros [E|I]; [congruence|auto].
Qed.





End TagCounts.

